(** * tfdown: a shallow embedding of the Terraform downloader

    The development follows the three Go source files of the repository:
    [config.go] (the persisted configuration), [downloader.go] (version
    lookup, download and archive extraction) and [main.go] (the command
    line driver and the installer).

    The Go standard library and the operating system are the environment of
    the program.  They are modelled first, one module per Go package and
    with the Go names: [strings], [strconv], [bufio], [filepath] and [os].
    Strings are byte strings, as in Go. *)

From Stdlib Require Import String Ascii List ZArith NArith Bool Lia.
From stdpp Require Import gmap strings.
Import ListNotations.

Local Open Scope char_scope.
Local Open Scope stdpp_scope.

(** ** Byte strings *)

Fixpoint drop_bytes (n : nat) (s : string) : string :=
  match n, s with
  | O, _ => s
  | S _, EmptyString => EmptyString
  | S n', String _ r => drop_bytes n' r
  end.

Definition bytes (l : list nat) : string :=
  string_of_list_ascii (map ascii_of_nat l).

Fixpoint repeatByte (n : nat) (c : ascii) : string :=
  match n with
  | O => EmptyString
  | S n' => String c (repeatByte n' c)
  end.

Fixpoint hasByte (c : ascii) (s : string) : bool :=
  match s with
  | EmptyString => false
  | String x r => Ascii.eqb x c || hasByte c r
  end.

(** Printable ASCII: the bytes from the space to the tilde. *)
Fixpoint printable (s : string) : bool :=
  match s with
  | EmptyString => true
  | String c r =>
      (32 <=? nat_of_ascii c)%nat && (nat_of_ascii c <=? 126)%nat && printable r
  end.

(** ** Package [strings] *)

Module strings.

Definition HasPrefix (s pre : string) : bool := String.prefix pre s.

Definition HasSuffix (s suf : string) : bool :=
  String.prefix (String.rev suf) (String.rev s).

(** [TrimPrefix] returns [s] without the leading [pre]; [s] itself when it
    does not start with [pre]. *)
Definition TrimPrefix (s pre : string) : string :=
  if HasPrefix s pre then drop_bytes (String.length pre) s else s.

(** The UTF-8 encodings of the code points for which [unicode.IsSpace]
    holds: tab, line feed, vertical tab, form feed, carriage return, space,
    U+0085, U+00A0, U+1680, U+2000 to U+200A, U+2028, U+2029, U+202F,
    U+205F and U+3000. *)
Definition spaces : list string :=
  [ bytes [9]; bytes [10]; bytes [11]; bytes [12]; bytes [13]; bytes [32];
    bytes [194; 133]; bytes [194; 160]; bytes [225; 154; 128];
    bytes [226; 128; 128]; bytes [226; 128; 129]; bytes [226; 128; 130];
    bytes [226; 128; 131]; bytes [226; 128; 132]; bytes [226; 128; 133];
    bytes [226; 128; 134]; bytes [226; 128; 135]; bytes [226; 128; 136];
    bytes [226; 128; 137]; bytes [226; 128; 138]; bytes [226; 128; 168];
    bytes [226; 128; 169]; bytes [226; 128; 175]; bytes [226; 129; 159];
    bytes [227; 128; 128] ].

(** The white space rune [s] starts with, if it starts with one. *)
Definition leadingSpace (s : string) : option string :=
  List.find (fun t => HasPrefix s t) spaces.

(** The white space rune [s] ends with, if it ends with one. *)
Definition trailingSpace (s : string) : option string :=
  List.find (fun t => HasSuffix s t) spaces.

Fixpoint trimLeft (fuel : nat) (s : string) : string :=
  match fuel with
  | O => s
  | S fuel' =>
      match leadingSpace s with
      | Some t => trimLeft fuel' (drop_bytes (String.length t) s)
      | None => s
      end
  end.

(** [trimRight] works on the reversed string: [r] is [s] backwards. *)
Fixpoint trimRight (fuel : nat) (r : string) : string :=
  match fuel with
  | O => r
  | S fuel' =>
      match List.find (fun t => String.prefix (String.rev t) r) spaces with
      | Some t => trimRight fuel' (drop_bytes (String.length t) r)
      | None => r
      end
  end.

(** [TrimSpace] removes all leading and trailing white space. *)
Definition TrimSpace (s : string) : string :=
  let l := trimLeft (String.length s) s in
  String.rev (trimRight (String.length l) (String.rev l)).

(** [cut s sep] splits [s] around the first [sep] byte. *)
Fixpoint cut (s : string) (sep : ascii) : option (string * string) :=
  match s with
  | EmptyString => None
  | String c r =>
      if Ascii.eqb c sep then Some (EmptyString, r)
      else match cut r sep with
           | Some (a, b) => Some (String c a, b)
           | None => None
           end
  end.

(** [SplitN2 s sep] is [strings.SplitN(s, sep, 2)] for a one byte
    separator: at most two substrings, the second being the unsplit
    remainder. *)
Definition SplitN2 (s : string) (sep : ascii) : list string :=
  match cut s sep with
  | Some (a, b) => [a; b]
  | None => [s]
  end.

Fixpoint Contains (s sub : string) : bool :=
  HasPrefix s sub ||
  match s with
  | EmptyString => false
  | String _ r => Contains r sub
  end.

End strings.

(** ** Package [strconv] *)

Module strconv.

(** [ParseBool]: [None] stands for the syntax error. *)
Definition ParseBool (str : string) : option bool :=
  if existsb (String.eqb str) ["1"; "t"; "T"; "TRUE"; "true"; "True"]
  then Some true
  else if existsb (String.eqb str) ["0"; "f"; "F"; "FALSE"; "false"; "False"]
  then Some false
  else None.

(** The [%t] verb of [fmt]. *)
Definition FormatBool (b : bool) : string := if b then "true" else "false".

End strconv.

(** ** Package [bufio]: a [Scanner] with the default line splitter *)

Module bufio.

(** [MaxScanTokenSize]: a line that does not fit a buffer of this many
    bytes, its line feed included, stops the scanner with [ErrTooLong]. *)
Definition MaxScanTokenSize : Z := 65536.

(** The lines of [s]: split at line feeds, a final line feed does not
    open one more line. *)
Fixpoint rawLines (s : string) : list string :=
  match s with
  | EmptyString => []
  | String c r =>
      if Ascii.eqb c "010" then EmptyString :: rawLines r
      else match rawLines r with
           | l :: ls => String c l :: ls
           | [] => [String c EmptyString]
           end
  end.

(** [dropCR] removes one trailing carriage return. *)
Definition dropCR (l : string) : string :=
  if strings.HasSuffix l (bytes [13])
  then String.rev (drop_bytes 1 (String.rev l)) else l.

(** The tokens [Scan] yields before it stops, and whether it stopped with
    [ErrTooLong]. *)
Fixpoint scan (ls : list string) : list string * bool :=
  match ls with
  | [] => ([], false)
  | l :: ls' =>
      if (MaxScanTokenSize <=? Z.of_nat (String.length l))%Z then ([], true)
      else let '(ts, e) := scan ls' in (dropCR l :: ts, e)
  end.

Definition Scan (s : string) : list string * bool := scan (rawLines s).

End bufio.

(** ** Package [path/filepath], for a Unix target

    A path is handled through its list of elements.  The internal form of
    a cleaned path is a list of elements, which starts with the empty
    element when the path is rooted: ["/a/b"] is [[""; "a"; "b"]], ["a/b"]
    is [["a"; "b"]], ["/"] is [[""]] and ["."] is [[]]. *)

Module filepath.

Definition Separator : ascii := "/".

(** The elements of a path: the substrings between separators. *)
Fixpoint elements (s : string) : list string :=
  match s with
  | EmptyString => [EmptyString]
  | String c r =>
      if Ascii.eqb c Separator then EmptyString :: elements r
      else match elements r with
           | e :: es => String c e :: es
           | [] => [String c EmptyString]
           end
  end.

Definition rooted (s : string) : bool :=
  match s with
  | String c _ => Ascii.eqb c Separator
  | EmptyString => false
  end.

(** One round of the loop of [Clean].  [out] is the output so far, last
    element first.  An empty element and ["."] are dropped; [".."] removes
    the last element of the output when there is one to remove, is
    dropped at the root, and is kept at the start of a path that is not
    rooted. *)
Definition cleanStep (isRooted : bool) (out : list string) (e : string)
  : list string :=
  if String.eqb e "" || String.eqb e "." then out
  else if String.eqb e ".." then
    match out with
    | [] => if isRooted then [] else [e]
    | top :: out' => if String.eqb top ".." then e :: out else out'
    end
  else e :: out.

(** The cleaned path, as a list of elements. *)
Definition key (s : string) : list string :=
  (if rooted s then [EmptyString] else []) ++
  rev (fold_left (cleanStep (rooted s)) (elements s) []).

(** The string of a list of elements. *)
Definition render (k : list string) : string :=
  match k with
  | [] => "."
  | [EmptyString] => "/"
  | _ => String.concat "/" k
  end.

Definition Clean (s : string) : string := render (key s).

(** [Join] of two elements: empty elements are ignored, the result is
    cleaned, and it is empty when both elements are. *)
Definition Join (a b : string) : string :=
  if negb (String.eqb a "") then Clean (a +:+ "/" +:+ b)
  else if negb (String.eqb b "") then Clean b
  else "".

(** The part of [s] up to and including its last separator. *)
Fixpoint dirPart (s : string) : string :=
  match s with
  | EmptyString => EmptyString
  | String c r =>
      let d := dirPart r in
      if Ascii.eqb c Separator || negb (String.eqb d "")
      then String c d else EmptyString
  end.

(** [Dir] drops the last element of the path and cleans the rest. *)
Definition Dir (s : string) : string := Clean (dirPart s).

End filepath.

(** ** Package [os]: the file system

    The file system is a finite map from cleaned paths (lists of elements,
    see [filepath.key]) to nodes.  The root, the working directory and the
    directories above it are always there.  A path is resolved as the
    kernel does it, element by element from the root or from the working
    directory: every element, [".."] included, is looked up in a directory
    that has to exist, so ["x/.."] names nothing when [x] is missing or is
    a regular file.

    What is left out: there are no symbolic links; there is no access
    control, the process may read and write every node, and the
    permission bits of a file are stored but never checked; the umask of
    the process is 0, so that a new file gets the permission bits it is
    created with; and a write to an open file does not fail, the disk is
    never full. *)

Module os.

Inductive Errno := ENOENT | ENOTDIR | EISDIR | EEXIST | ENOTEMPTY.

Inductive node :=
| Directory
| Regular (perm : N) (data : string).

Abbreviation FS := (gmap (list string) node).

#[global] Instance Errno_eq_dec : EqDecision Errno.
Proof. solve_decision. Defined.

#[global] Instance node_eq_dec : EqDecision node.
Proof. solve_decision. Defined.

(** [IsNotExist] and [IsExist] of package [os]. *)
Definition IsNotExist (e : Errno) : bool := bool_decide (e = ENOENT).
Definition IsExist (e : Errno) : bool :=
  bool_decide (e = EEXIST) || bool_decide (e = ENOTEMPTY).

(** The directories that exist in every file system: ["/"], ["."],
    [".."], ["../.."] and so on. *)
Definition anchor (k : list string) : bool :=
  forallb (String.eqb "..") k || bool_decide (k = [EmptyString]).

Definition node_at (fs : FS) (k : list string) : option node :=
  if anchor k then Some Directory else fs !! k.

(** The directory above [k].  The root is above itself; above the working
    directory and the directories above it there is one more [".."]. *)
Definition parent (k : list string) : list string :=
  if bool_decide (k = [EmptyString]) then k
  else if forallb (String.eqb "..") k then k ++ [".."]
  else removelast k.

(** One element of a path, looked up in the directory [k]: the empty
    element and ["."] name [k] itself. *)
Definition step (k : list string) (e : string) : list string :=
  if String.eqb e "" || String.eqb e "." then k
  else if String.eqb e ".." then parent k
  else k ++ [e].

(** Where the resolution of a path starts. *)
Definition start (name : string) : list string :=
  if filepath.rooted name then [EmptyString] else [].

(** Path resolution: every element is looked up in what has to be a
    directory.  The result is the place the path names, where there need
    not be anything. *)
Fixpoint follow (fs : FS) (cur todo : list string) : Errno + list string :=
  match todo with
  | [] => inr cur
  | e :: todo' =>
      match node_at fs cur with
      | Some Directory => follow fs (step cur e) todo'
      | Some (Regular _ _) => inl ENOTDIR
      | None => inl ENOENT
      end
  end.

(** The places the prefixes of a path name, in the order of the path. *)
Fixpoint visited (cur todo : list string) : list (list string) :=
  match todo with
  | [] => []
  | e :: todo' => step cur e :: visited (step cur e) todo'
  end.

(** The node a path string names.  The empty path names nothing. *)
Definition resolve (fs : FS) (name : string) : Errno + option node :=
  if String.eqb name "" then inl ENOENT
  else match follow fs (start name) (filepath.elements name) with
       | inl e => inl e
       | inr k => inr (node_at fs k)
       end.

Definition Stat (fs : FS) (name : string) : Errno + node :=
  match resolve fs name with
  | inl e => inl e
  | inr None => inl ENOENT
  | inr (Some n) => inr n
  end.

(** [Open] for reading: files and directories can both be opened. *)
Definition Open (fs : FS) (name : string) : Errno + node := Stat fs name.

(** [Mkdir] creates one directory, in a directory that exists. *)
Definition Mkdir (fs : FS) (name : string) : option Errno * FS :=
  match resolve fs name with
  | inl e => (Some e, fs)
  | inr (Some _) => (Some EEXIST, fs)
  | inr None => (None, <[filepath.key name := Directory]> fs)
  end.

(** [MkdirAll] makes sure that the prefixes of the path, as the path is
    written, name directories, from the shortest prefix on: what is
    missing is created, so for ["a/../b"] both [a] and [b].  It fails
    when a prefix names a regular file, and keeps what it has created by
    then.  The error is given as ENOTDIR: that is what Go returns when
    the path itself names the file; for a file further up the path the
    code depends on the version of Go, and nothing below relies on it. *)
Fixpoint mkdirAll (fs : FS) (cur todo : list string) : option Errno * FS :=
  match todo with
  | [] => (None, fs)
  | e :: todo' =>
      let d := step cur e in
      match node_at fs d with
      | Some Directory => mkdirAll fs d todo'
      | Some (Regular _ _) => (Some ENOTDIR, fs)
      | None => mkdirAll (<[d := Directory]> fs) d todo'
      end
  end.

Definition MkdirAll (fs : FS) (name : string) : option Errno * FS :=
  if String.eqb name "" then (Some ENOENT, fs)
  else mkdirAll fs (start name) (filepath.elements name).

(** [OpenFile] with [O_WRONLY|O_CREATE|O_TRUNC]: an existing file is
    emptied and keeps its permission bits, a missing one is created with
    [perm].  The handle returned is the cleaned path. *)
Definition OpenFile (fs : FS) (name : string) (perm : N)
  : (Errno + list string) * FS :=
  match resolve fs name with
  | inl e => (inl e, fs)
  | inr (Some Directory) => (inl EISDIR, fs)
  | inr (Some (Regular p _)) =>
      (inr (filepath.key name), <[filepath.key name := Regular p ""]> fs)
  | inr None =>
      (inr (filepath.key name), <[filepath.key name := Regular perm ""]> fs)
  end.

(** [Create] is [OpenFile] with mode 0666. *)
Definition Create (fs : FS) (name : string) : (Errno + list string) * FS :=
  OpenFile fs name 438.

(** Appending [data] to the open file [h]. *)
Definition write (fs : FS) (h : list string) (data : string) : FS :=
  match fs !! h with
  | Some (Regular p old) => <[h := Regular p (old +:+ data)]> fs
  | _ => fs
  end.

Definition WriteFile (fs : FS) (name data : string) (perm : N)
  : option Errno * FS :=
  match OpenFile fs name perm with
  | (inl e, fs') => (Some e, fs')
  | (inr h, fs') => (None, write fs' h data)
  end.

(** Reading a whole file; a directory can be opened but not read. *)
Definition ReadFile (fs : FS) (name : string) : Errno + string :=
  match Stat fs name with
  | inl e => inl e
  | inr Directory => inl EISDIR
  | inr (Regular _ data) => inr data
  end.

Definition Chmod (fs : FS) (name : string) (perm : N) : option Errno * FS :=
  match Stat fs name with
  | inl e => (Some e, fs)
  | inr Directory => (None, fs)
  | inr (Regular _ data) => (None, <[filepath.key name := Regular perm data]> fs)
  end.

Definition below (k : list string) (fs : FS) : FS :=
  filter (fun kv => k `prefix_of` kv.1 /\ kv.1 <> k) fs.

(** [Remove] deletes a file or an empty directory. *)
Definition Remove (fs : FS) (name : string) : option Errno * FS :=
  match Stat fs name with
  | inl e => (Some e, fs)
  | inr Directory =>
      if bool_decide (below (filepath.key name) fs = ∅)
      then (None, delete (filepath.key name) fs)
      else (Some ENOTEMPTY, fs)
  | inr (Regular _ _) => (None, delete (filepath.key name) fs)
  end.

(** A path whose last element is ["."]. *)
Definition endsWithDot (name : string) : bool :=
  String.eqb name "." || strings.HasSuffix name "/.".

(** [RemoveAll] deletes what the path names and everything below it.
    Nothing is deleted when the path is empty, ends in ["."] or names
    nothing. *)
Definition RemoveAll (fs : FS) (name : string) : FS :=
  if String.eqb name "" || endsWithDot name then fs
  else match resolve fs name with
       | inr (Some _) => filter (fun kv => ~ filepath.key name `prefix_of` kv.1) fs
       | _ => fs
       end.

(** [MkdirTemp dir pattern] with a pattern that ends in the star: the
    random strings drawn are [rands], in this order.  Go draws decimal
    numerals, so the names tried do not end in a separator. *)
Fixpoint mkdirTemp (fs : FS) (prefix : string) (rands : list string)
  : (Errno + string) * FS :=
  match rands with
  | [] => (inl EEXIST, fs)
  | r :: rands' =>
      match Mkdir fs (prefix +:+ r) with
      | (None, fs') => (inr (prefix +:+ r), fs')
      | (Some e, fs') =>
          if IsExist e then mkdirTemp fs' prefix rands' else (inl e, fs')
      end
  end.

Definition joinPath (dir name : string) : string :=
  if strings.HasSuffix dir "/" && negb (String.eqb dir "")
  then dir +:+ name else dir +:+ "/" +:+ name.

Definition MkdirTemp (fs : FS) (tempDir pattern : string) (rands : list string)
  : (Errno + string) * FS :=
  mkdirTemp fs (joinPath tempDir pattern) rands.

End os.

(** ** Errors and output

    A Go [error] is kept as the call that built it: the errors of the
    packages used, and [fmt.Errorf] with its format string and its
    argument. *)

Inductive error :=
| PathError (e : os.Errno)                 (* an error of package [os] *)
| ErrTooLong                               (* [bufio.ErrTooLong] *)
| ErrFormat                                (* [zip.ErrFormat]: not a valid zip file *)
| ErrEntry                                 (* an archive entry that cannot be decoded *)
| ErrTransport                             (* a failed HTTP round trip *)
| ErrJSON                                  (* a JSON syntax error *)
| Errorf0 (msg : string)
| ErrorfS (format : string) (arg : string)
| ErrorfD (format : string) (arg : Z)
| ErrorfW (format : string) (arg : error).

#[global] Instance error_eq_dec : EqDecision error.
Proof. solve_decision. Defined.

(** ** config.go *)

Record Config := mkConfig {
  Version : string;
  Install : bool;
  InstallPath : string;
  configPath : string
}.

#[global] Instance Config_eq_dec : EqDecision Config.
Proof. solve_decision. Defined.

Definition setVersion (v : string) (c : Config) : Config :=
  mkConfig v (Install c) (InstallPath c) (configPath c).
Definition setInstall (b : bool) (c : Config) : Config :=
  mkConfig (Version c) b (InstallPath c) (configPath c).
Definition setInstallPath (p : string) (c : Config) : Config :=
  mkConfig (Version c) (Install c) p (configPath c).

(** [NewConfig]: [home] is the result of [os.UserHomeDir], [None] when it
    fails. *)
Definition NewConfig (home : option string) : Config :=
  let homeDir := match home with Some h => h | None => "." end in
  let configPath := filepath.Join homeDir ".tfdown.conf" in
  {| Version := ""; Install := false; InstallPath := ""; configPath := configPath |}.

(** The body of the scanner loop of [Load], for one line of text. *)
Definition loadLine (c : Config) (text : string) : Config :=
  let line := strings.TrimSpace text in
  if String.eqb line "" || strings.HasPrefix line "#" then c
  else
    match strings.SplitN2 line "=" with
    | [k; v] =>
        let key := strings.TrimSpace k in
        let value := strings.TrimSpace v in
        if String.eqb key "version" then setVersion value c
        else if String.eqb key "install" then
          setInstall (match strconv.ParseBool value with
                      | Some b => b
                      | None => false
                      end) c
        else if String.eqb key "install_path" then setInstallPath value c
        else c
    | _ => c
    end.

(** What the scanner of [Load] yields on an open file: its tokens and the
    value of [scanner.Err()]. *)
Definition scanFile (file : os.node) : list string * option error :=
  match file with
  | os.Directory => ([], Some (PathError os.EISDIR))
  | os.Regular _ data =>
      let '(tokens, tooLong) := bufio.Scan data in
      (tokens, if tooLong then Some ErrTooLong else None)
  end.

(** [Load] reads the configuration from the config file.  The receiver is
    updated in place: the result holds the error and the receiver after
    the call. *)
Definition Load (c : Config) (fs : os.FS) : option error * Config :=
  match os.Open fs (configPath c) with
  | inl err =>
      if os.IsNotExist err then (None, c)
      else (Some (ErrorfW "error opening config file: %w" (PathError err)), c)
  | inr file =>
      let '(tokens, scanErr) := scanFile file in
      let c' := fold_left loadLine tokens c in
      match scanErr with
      | Some err => (Some (ErrorfW "error reading config file: %w" err), c')
      | None => (None, c')
      end
  end.

Definition getCurrentDate : string := "2026-02-05".

Definition LF : string := String "010" EmptyString.

(** The text [Save] writes. *)
Definition saveContent (c : Config) : string :=
  ("# tfdown configuration file" +:+ LF) +:+
  ("# Last updated: " +:+ getCurrentDate +:+ LF +:+ LF) +:+
  ("version=" +:+ Version c +:+ LF) +:+
  ("install=" +:+ strconv.FormatBool (Install c) +:+ LF) +:+
  ("install_path=" +:+ InstallPath c +:+ LF).

(** [Save] writes the configuration to the config file, with mode 0644. *)
Definition Save (c : Config) (fs : os.FS) : option error * os.FS :=
  match os.WriteFile fs (configPath c) (saveContent c) 420 with
  | (Some err, fs') =>
      (Some (ErrorfW "error writing config file: %w" (PathError err)), fs')
  | (None, fs') => (None, fs')
  end.

(** [Update] updates the configuration with new values and saves it. *)
Definition Update (c : Config) (version : string) (install : bool)
  (installPath : string) (fs : os.FS) : option error * Config * os.FS :=
  let c := if negb (String.eqb version "") then setVersion version c else c in
  let c := setInstall install c in
  let c := setInstallPath installPath c in
  let '(err, fs') := Save c fs in
  (err, c, fs').

(** ** The world the program runs in

    The environment is what the program reads and cannot change: the home
    directory, the platform, the directory for temporary files, the random
    strings [os.MkdirTemp] draws, the servers, and the decoders of
    [encoding/json] and [archive/zip], which are not modelled byte by
    byte.  The state is the file system and the trace of what the program
    did to the outside: the calls of its HTTP client and the text printed.

    The HTTP client is the one of [NewDownloader], an [http.Client] with
    no [CheckRedirect]: it follows the redirects a server answers with,
    to whatever location they name, and through the proxy the environment
    variables set.  [httpGet env url] is what [httpClient.Get url] returns
    in the end, the last response or an error; the requests the client
    sends on the way are not part of the model, so the trace has the URLs
    the program asks for, not the hosts that were contacted. *)

Record Response := mkResponse {
  StatusCode : Z;
  ContentLength : Z;
  Body : string;
  BodyFails : bool      (* reading the body ends in an error, after [Body] *)
}.

(** The response of HashiCorp's checkpoint API, for the fields the
    program declares with plain types. *)
Record TerraformCheck := mkTerraformCheck {
  Product : string;
  CurrentVersion : string;
  CurrentRelease : Z;
  CurrentDownloadURL : string;
  CurrentChangelogURL : string;
  ProjectWebsite : string
}.

(** What reading an archive entry gives. *)
Inductive entryData :=
| Stored (data : string)           (* the content of the entry *)
| Unreadable                       (* [f.Open()] fails *)
| Corrupt (data : string).         (* [io.Copy] fails after [data] *)

(** A [zip.File]: the header of an archive entry and its content. *)
Record zipFile := mkZipFile {
  Name : string;
  IsDir : bool;
  Mode : N;
  Data : entryData
}.

Record Env := mkEnv {
  UserHomeDir : option string;
  GOOS : string;
  GOARCH : string;
  TempDir : string;
  Random : list string;
  httpGet : string -> option Response;            (* [None]: an error *)
  jsonDecode : string -> option TerraformCheck;   (* [None]: malformed *)
  zipDecode : string -> option (list zipFile)     (* [None]: not an archive *)
}.

Inductive value :=
| Str (s : string)
| Err (e : error).

Inductive Event :=
| HttpGet (url : string)       (* a call of [httpClient.Get] with [url] *)
| Printf (format : string) (args : list value)
| Println (line : string)
| ProgressBar (total : Z).     (* the progress lines of one download *)

Record World := mkWorld {
  fs : os.FS;
  trace : list Event
}.

#[global] Instance value_eq_dec : EqDecision value.
Proof. solve_decision. Defined.

#[global] Instance Event_eq_dec : EqDecision Event.
Proof. solve_decision. Defined.

#[global] Instance World_eq_dec : EqDecision World.
Proof. solve_decision. Defined.

Definition emit (e : Event) (w : World) : World :=
  mkWorld (fs w) (trace w ++ [e]).

Definition setFS (w : World) (fs' : os.FS) : World := mkWorld fs' (trace w).

(** [d.httpClient.Get]: the call is recorded with the URL the program
    passes, and returns what the client ends with. *)
Definition Get (env : Env) (url : string) (w : World) : option Response * World :=
  (httpGet env url, emit (HttpGet url) w).

(** ** downloader.go *)

Definition terraformCheckURL : string :=
  "https://checkpoint-api.hashicorp.com/v1/check/terraform".

(** [fmt.Sprintf(terraformDownloadURL, ver, ver, targetOS, targetArch)]. *)
Definition terraformDownloadURL (ver targetOS targetArch : string) : string :=
  "https://releases.hashicorp.com/terraform/" +:+ ver +:+ "/terraform_" +:+
  ver +:+ "_" +:+ targetOS +:+ "_" +:+ targetArch +:+ ".zip".

Definition StatusOK : Z := 200.

Record Downloader := mkDownloader {
  targetOS : string;
  targetArch : string;
  targetVer : string;
  quiet : bool
}.

Definition NewDownloader (env : Env) (targetOS targetArch targetVer : string)
  (quiet : bool) : Downloader :=
  let targetOS := if String.eqb targetOS "" then GOOS env else targetOS in
  let targetArch := if String.eqb targetArch "" then GOARCH env else targetArch in
  mkDownloader targetOS targetArch targetVer quiet.

(** [GetLatestVersion] fetches the latest version of Terraform. *)
Definition GetLatestVersion (env : Env) (d : Downloader) (w : World)
  : (error + string) * World :=
  match Get env terraformCheckURL w with
  | (None, w) => (inl (ErrorfW "error fetching latest version: %w" ErrTransport), w)
  | (Some resp, w) =>
      if negb (StatusCode resp =? StatusOK)%Z then
        (inl (ErrorfD "error fetching latest version: status %d" (StatusCode resp)), w)
      else
        match jsonDecode env (Body resp) with
        | None => (inl (ErrorfW "error decoding version info: %w" ErrJSON), w)
        | Some check =>
            if String.eqb (CurrentVersion check) "" then
              (inl (Errorf0 "no version found in response"), w)
            else (inr (CurrentVersion check), w)
        end
  end.

(** [GetVersion] returns the target version (or latest if not specified). *)
Definition GetVersion (env : Env) (d : Downloader) (w : World)
  : (error + string) * World :=
  if negb (String.eqb (targetVer d) "") then
    (inr (strings.TrimPrefix (targetVer d) "v"), w)
  else GetLatestVersion env d w.

(** The part of [Download] after the version is known. *)
Definition downloadVersion (env : Env) (d : Downloader) (ver : string) (w : World)
  : (error + string) * World :=
  let ver := strings.TrimPrefix ver "v" in
  let downloadURL := terraformDownloadURL ver (targetOS d) (targetArch d) in
  let zipFile :=
    "terraform_" +:+ ver +:+ "_" +:+ targetOS d +:+ "_" +:+ targetArch d +:+ ".zip" in
  let w := emit (Printf "Downloading Terraform %s for %s/%s...\n"
                   [Str ver; Str (targetOS d); Str (targetArch d)]) w in
  let w := if negb (quiet d) then emit (Printf "URL: %s\n" [Str downloadURL]) w
           else w in
  match Get env downloadURL w with
  | (None, w) => (inl (ErrorfW "error downloading: %w" ErrTransport), w)
  | (Some resp, w) =>
      if negb (StatusCode resp =? StatusOK)%Z then
        (inl (ErrorfD "error downloading: status %d" (StatusCode resp)), w)
      else
        match os.Create (fs w) zipFile with
        | (inl err, fs') =>
            (inl (ErrorfW "error creating file: %w" (PathError err)), setFS w fs')
        | (inr out, fs') =>
            let w := setFS w fs' in
            let totalSize := ContentLength resp in
            let w :=
              if quiet d || (totalSize <=? 0)%Z
              then setFS w (os.write (fs w) out (Body resp))
              else emit (Println "")
                     (emit (ProgressBar totalSize)
                        (setFS w (os.write (fs w) out (Body resp)))) in
            if BodyFails resp then
              (inl (ErrorfW "error writing file: %w" ErrTransport), w)
            else
              (inr zipFile, emit (Printf "Downloaded to: %s\n" [Str zipFile]) w)
        end
  end.

(** [Download] downloads the specified version of Terraform. *)
Definition Download (env : Env) (d : Downloader) (w : World)
  : (error + string) * World :=
  if String.eqb (targetVer d) "" then
    match GetLatestVersion env d w with
    | (inl err, w) => (inl err, w)
    | (inr latest, w) => downloadVersion env d latest w
    end
  else downloadVersion env d (targetVer d) w.

(** [zip.OpenReader]: the file is read and decoded. *)
Definition OpenReader (env : Env) (fs : os.FS) (name : string)
  : error + list zipFile :=
  match os.ReadFile fs name with
  | inl e => inl (PathError e)
  | inr data =>
      match zipDecode env data with
      | None => inl ErrFormat
      | Some files => inr files
      end
  end.

(** The ZipSlip check of [Unzip]: [true] when the entry is refused. *)
Definition illegalPath (destPath fpath : string) : bool :=
  negb (strings.HasPrefix fpath (filepath.Clean destPath +:+ "/")).

(** The body of the loop of [Unzip], for one entry: the error returned,
    if any, and the file system after it. *)
Definition extractFile (destPath : string) (f : zipFile) (fs : os.FS)
  : option error * os.FS :=
  let fpath := filepath.Join destPath (Name f) in
  if illegalPath destPath fpath then
    (Some (ErrorfS "illegal file path: %s" fpath), fs)
  else if IsDir f then
    (None, (os.MkdirAll fs fpath).2)
  else
    match os.MkdirAll fs (filepath.Dir fpath) with
    | (Some err, fs) => (Some (PathError err), fs)
    | (None, fs) =>
        match os.OpenFile fs fpath (Mode f) with
        | (inl err, fs) => (Some (PathError err), fs)
        | (inr outFile, fs) =>
            match Data f with
            | Unreadable => (Some ErrEntry, fs)
            | Stored data => (None, os.write fs outFile data)
            | Corrupt data => (Some ErrEntry, os.write fs outFile data)
            end
        end
    end.

(** The loop of [Unzip] over [r.File]. *)
Fixpoint extractFiles (destPath : string) (files : list zipFile) (fs : os.FS)
  : option error * os.FS :=
  match files with
  | [] => (None, fs)
  | f :: files' =>
      match extractFile destPath f fs with
      | (Some err, fs) => (Some err, fs)
      | (None, fs) => extractFiles destPath files' fs
      end
  end.

(** [Unzip] extracts the terraform binary from the zip file. *)
Definition Unzip (env : Env) (zipPath destPath : string) (fs : os.FS)
  : option error * os.FS :=
  match OpenReader env fs zipPath with
  | inl err => (Some (ErrorfW "error opening zip: %w" err), fs)
  | inr files =>
      match os.MkdirAll fs destPath with
      | (Some err, fs) =>
          (Some (ErrorfW "error creating destination directory: %w" (PathError err)), fs)
      | (None, fs) => extractFiles destPath files fs
      end
  end.

(** ** main.go *)

Definition version : string := "1.0.0".

Definition copyFile (src dst : string) (fs : os.FS) : option error * os.FS :=
  match os.ReadFile fs src with
  | inl err => (Some (PathError err), fs)
  | inr data =>
      match os.WriteFile fs dst data 493 with
      | (Some err, fs') => (Some (PathError err), fs')
      | (None, fs') => (None, fs')
      end
  end.

(** [installTerraform] once the temporary directory is there, up to the
    point where the deferred [os.RemoveAll(tempDir)] runs. *)
Definition installFrom (env : Env) (zipFile installPath tempDir : string)
  (w : World) : option error * World :=
  let w := emit (Printf "Extracting %s...\n" [Str zipFile]) w in
  match Unzip env zipFile tempDir (fs w) with
  | (Some err, fs') => (Some (ErrorfW "error extracting zip: %w" err), setFS w fs')
  | (None, fs') =>
      let w := setFS w fs' in
      let binaryName :=
        if strings.Contains zipFile "windows" then "terraform.exe" else "terraform" in
      let srcPath := filepath.Join tempDir binaryName in
      match os.Stat (fs w) srcPath with
      | inl _ => (Some (ErrorfS "terraform binary not found in zip: %s" srcPath), w)
      | inr _ =>
          let dstPath := filepath.Join installPath binaryName in
          let w := emit (Printf "Installing to %s...\n" [Str dstPath]) w in
          match copyFile srcPath dstPath (fs w) with
          | (Some err, fs') =>
              (Some (ErrorfW "error copying binary: %w" err), setFS w fs')
          | (None, fs') =>
              let w := setFS w fs' in
              let chmod :=
                if negb (String.eqb (GOOS env) "windows")
                then os.Chmod (fs w) dstPath 493 else (None, fs w) in
              match chmod with
              | (Some err, fs') =>
                  (Some (ErrorfW "error making binary executable: %w" (PathError err)),
                   setFS w fs')
              | (None, fs') =>
                  (None, setFS w (os.Remove fs' zipFile).2)
              end
          end
      end
  end.

Definition installTerraform (env : Env) (zipFile installPath : string) (w : World)
  : option error * World :=
  let notExist :=
    match os.Stat (fs w) installPath with
    | inl err => os.IsNotExist err
    | inr _ => false
    end in
  if notExist then
    (Some (ErrorfS "install path does not exist: %s" installPath), w)
  else
    match os.MkdirTemp (fs w) (TempDir env) "tfdown-" (Random env) with
    | (inl err, fs') =>
        (Some (ErrorfW "error creating temp directory: %w" (PathError err)),
         setFS w fs')
    | (inr tempDir, fs') =>
        let '(err, w) := installFrom env zipFile installPath tempDir (setFS w fs') in
        (err, setFS w (os.RemoveAll (fs w) tempDir))
    end.

Definition helpLines : list string :=
  [ "Usage:"; "  tfdown [flags]"; ""; "Flags:";
    "  --os string           Target OS (linux, windows, darwin, openbsd, solaris)";
    "                        Default: current OS";
    "  --arch string         Target architecture (amd64, 386, arm64, arm)";
    "                        Default: current architecture";
    "  --ver string          Target Terraform version (e.g., 1.7.0)";
    "                        Default: latest stable version";
    "  --install             Enable automatic installation";
    "  --install-path string Path to install Terraform";
    "  -f, --force           Force download and install even if already up to date";
    "  -q, --quiet           Quiet mode, disable progress bar";
    "  --version             Show tfdown version";
    "  --help                Show this help message";
    ""; "Examples:";
    "  # Download latest version for current platform"; "  tfdown"; "";
    "  # Download and install to /usr/local/bin";
    "  tfdown --install --install-path /usr/local/bin"; "";
    "  # Force re-download and install even if up to date"; "  tfdown -f"; "";
    "  # Download specific version for Linux ARM64";
    "  tfdown --ver 1.7.0 --os linux --arch arm64"; "";
    "Configuration:"; "  Config file: ~/.tfdown.conf";
    "  The tool saves the last downloaded version and install settings.";
    "  When run without arguments, it will check for updates and install";
    "  automatically if configured." ].

Definition printHelp (w : World) : World :=
  fold_left (fun w l => emit (Println l) w) helpLines
    (emit (Printf "tfdown v%s - Terraform downloader\n\n" [Str version]) w).

(** The command line, as package [flag] reads it: the flags set, in the
    order they are given, each with its value. *)
Inductive Flag :=
| flag_os (s : string)
| flag_arch (s : string)
| flag_ver (s : string)
| flag_version (b : bool)
| flag_install (b : bool)
| flag_install_path (s : string)
| flag_quiet (b : bool)
| flag_force (b : bool)
| flag_help (b : bool)
| flag_q (b : bool)
| flag_f (b : bool).

Definition flagName (f : Flag) : string :=
  match f with
  | flag_os _ => "os" | flag_arch _ => "arch" | flag_ver _ => "ver"
  | flag_version _ => "version" | flag_install _ => "install"
  | flag_install_path _ => "install-path" | flag_quiet _ => "quiet"
  | flag_force _ => "force" | flag_help _ => "help"
  | flag_q _ => "q" | flag_f _ => "f"
  end.

(** The variables the flags are bound to. *)
Record Flags := mkFlags {
  targetOSFlag : string;
  targetArchFlag : string;
  targetVersion : string;
  showVersion : bool;
  installFlag : bool;
  installPath : string;
  quietMode : bool;
  forceFlag : bool;
  showHelp : bool
}.

Definition defaults : Flags := mkFlags "" "" "" false false "" false false false.

Definition setFlag (o : Flags) (f : Flag) : Flags :=
  match o, f with
  | mkFlags a b c d e g h i j, flag_os s => mkFlags s b c d e g h i j
  | mkFlags a b c d e g h i j, flag_arch s => mkFlags a s c d e g h i j
  | mkFlags a b c d e g h i j, flag_ver s => mkFlags a b s d e g h i j
  | mkFlags a b c d e g h i j, flag_version x => mkFlags a b c x e g h i j
  | mkFlags a b c d e g h i j, flag_install x => mkFlags a b c d x g h i j
  | mkFlags a b c d e g h i j, flag_install_path s => mkFlags a b c d e s h i j
  | mkFlags a b c d e g h i j, flag_quiet x => mkFlags a b c d e g x i j
  | mkFlags a b c d e g h i j, flag_q x => mkFlags a b c d e g x i j
  | mkFlags a b c d e g h i j, flag_force x => mkFlags a b c d e g h x j
  | mkFlags a b c d e g h i j, flag_f x => mkFlags a b c d e g h x j
  | mkFlags a b c d e g h i j, flag_help x => mkFlags a b c d e g h i x
  end.

(** [flag.Parse] and [flag.NFlag]: the number of flags that have been set. *)
Definition Parse (args : list Flag) : Flags := fold_left setFlag args defaults.
Definition NFlag (args : list Flag) : nat := length (remove_dups (map flagName args)).

(** The test of [main] for a run that has nothing to do. *)
Definition upToDate (autoUpdate : bool) (configVersion ver : string)
  (installFlag forceFlag : bool) : bool :=
  autoUpdate && String.eqb configVersion ver && negb installFlag && negb forceFlag.

Definition warn (format : string) (err : option error) (w : World) : World :=
  match err with
  | Some e => emit (Printf format [Err e]) w
  | None => w
  end.

(** [main], from the download on: the run has something to do. *)
Definition proceed (env : Env) (o : Flags) (config : Config)
  (installFlag : bool) (installPath : string) (downloader : Downloader)
  (ver : string) (w : World) : Z * World :=
  let '(installFlag, installPath) :=
    if forceFlag o && Install config && negb (String.eqb (InstallPath config) "")
    then (true, InstallPath config) else (installFlag, installPath) in
  match Download env downloader w with
  | (inl err, w) => (1%Z, emit (Printf "Error downloading: %v\n" [Err err]) w)
  | (inr zipFile, w) =>
      let '(err, config, fs') := Update config ver installFlag installPath (fs w) in
      let w := warn "Warning: Could not save config: %v\n" err (setFS w fs') in
      if installFlag && negb (String.eqb installPath "") then
        match installTerraform env zipFile installPath w with
        | (Some err, w) => (1%Z, emit (Printf "Error installing: %v\n" [Err err]) w)
        | (None, w) =>
            (0%Z, emit (Printf "Successfully installed Terraform %s to %s\n"
                          [Str ver; Str installPath]) w)
        end
      else
        (0%Z,
         emit (Printf "  tfdown --install --install-path /path/to/install\n" [])
           (emit (Printf "To install automatically next time, use:\n" [])
              (emit (Printf "\nDownload complete! Terraform %s is ready.\n" [Str ver])
                 w)))
  end.

(** [main], from the point where the version to download is known. *)
Definition mainWith (env : Env) (o : Flags) (autoUpdate : bool) (config : Config)
  (installFlag : bool) (installPath : string) (downloader : Downloader)
  (ver : string) (w : World) : Z * World :=
  if upToDate autoUpdate (Version config) ver installFlag (forceFlag o) then
    (0%Z, emit (Printf "Already up to date (version %s)\n" [Str ver]) w)
  else proceed env o config installFlag installPath downloader ver w.

(** [main]: the exit status and the world after the run. *)
Definition main (env : Env) (args : list Flag) (w : World) : Z * World :=
  let o := Parse args in
  if showHelp o then (0%Z, printHelp w)
  else if showVersion o then
    (0%Z, emit (Printf "tfdown version %s\n" [Str version]) w)
  else
    let '(err, config) := Load (NewConfig (UserHomeDir env)) (fs w) in
    let w := warn "Warning: Could not load config: %v\n" err w in
    let autoUpdate := Nat.eqb (NFlag args) 0 in
    let '(installFlag, installPath) :=
      if autoUpdate && Install config && negb (String.eqb (InstallPath config) "")
      then (true, InstallPath config) else (installFlag o, installPath o) in
    let downloader :=
      NewDownloader env (targetOSFlag o) (targetArchFlag o) (targetVersion o)
        (quietMode o) in
    match GetVersion env downloader w with
    | (inl err, w) => (1%Z, emit (Printf "Error getting version: %v\n" [Err err]) w)
    | (inr ver, w) =>
        mainWith env o autoUpdate config installFlag installPath downloader ver w
    end.

(** ** Sample worlds *)

Module Sample.

Definition archive : list zipFile :=
  [ mkZipFile "terraform" false 493 (Stored "ELF") ].

Definition latest : TerraformCheck :=
  mkTerraformCheck "terraform" "1.7.0" 0 "" "" "".

(** A server that knows release 1.7.0 for linux/amd64 and nothing else. *)
Definition env : Env :=
  mkEnv (Some "/home/u") "linux" "amd64" "/tmp" ["1234"]
    (fun url =>
       if String.eqb url terraformCheckURL
       then Some (mkResponse 200 4 "json" false)
       else if String.eqb url (terraformDownloadURL "1.7.0" "linux" "amd64")
       then Some (mkResponse 200 3 "zip" false)
       else Some (mkResponse 404 0 "" false))
    (fun s => if String.eqb s "json" then Some latest else None)
    (fun s => if String.eqb s "zip" then Some archive else None).

Definition disk : os.FS :=
  {[ [""; "home"] := os.Directory;
     [""; "home"; "u"] := os.Directory;
     [""; "tmp"] := os.Directory;
     [""; "usr"] := os.Directory;
     [""; "usr"; "bin"] := os.Directory ]}.

Definition start : World := mkWorld disk [].

(** The same environment with an archive decoder that yields [files]. *)
Definition withArchive (files : list zipFile) : Env :=
  mkEnv (UserHomeDir env) (GOOS env) (GOARCH env) (TempDir env) (Random env)
    (httpGet env) (jsonDecode env) (fun _ => Some files).

(** An archive with an entry that climbs out of the destination. *)
Definition evilArchive : list zipFile :=
  [ mkZipFile "README" false 420 (Stored "read me");
    mkZipFile "../../evil" false 493 (Stored "evil");
    mkZipFile "terraform" false 493 (Stored "ELF") ].

(** A disk with a downloaded archive in the working directory. *)
Definition diskWithZip : os.FS := <[ ["tf.zip"] := os.Regular 438 "zip" ]> disk.

(** An archive with a directory entry and files in two directories. *)
Definition treeArchive : list zipFile :=
  [ mkZipFile "bin/" true 493 (Stored "");
    mkZipFile "bin/terraform" false 493 (Stored "ELF");
    mkZipFile "docs/LICENSE.txt" false 420 (Stored "MPL") ].

(** An archive in which a file entry lies below another file entry. *)
Definition clashArchive : list zipFile :=
  [ mkZipFile "terraform" false 493 (Stored "ELF");
    mkZipFile "terraform/LICENSE.txt" false 420 (Stored "MPL") ].

(** The state an earlier [tfdown --install --install-path /usr/bin] left. *)
Definition installed : Config :=
  mkConfig "1.7.0" true "/usr/bin" "/home/u/.tfdown.conf".

Definition diskInstalled : os.FS :=
  <[ [""; "home"; "u"; ".tfdown.conf"] := os.Regular 420 (saveContent installed) ]>
    (<[ [""; "usr"; "bin"; "terraform"] := os.Regular 493 "ELF" ]> disk).

End Sample.

(** ** Notions used in the statements *)

(** A proper element of a cleaned path. *)
Definition real (e : string) : Prop :=
  e <> "" /\ e <> "." /\ e <> ".." /\ hasByte "/" e = false.

(** The shape of a cleaned path: the root followed by proper elements, or
    some [".."] followed by proper elements. *)
Definition normal (k : list string) : Prop :=
  (exists body, k = "" :: body /\ Forall real body)
  \/ (exists ds body, k = ds ++ body /\ Forall (eq "..") ds /\ Forall real body).

Definition isRooted (k : list string) : bool :=
  match k with
  | e :: _ => String.eqb e ""
  | [] => false
  end.

(** [key] on the elements of a path. *)
Definition assemble (r : bool) (els : list string) : list string :=
  (if r then [EmptyString] else []) ++ rev (fold_left (filepath.cleanStep r) els []).

(** The elements whose concatenation is the string of a cleaned path. *)
Definition shown (k : list string) : list string :=
  match k with
  | [] => ["."]
  | [EmptyString] => [""; ""]
  | _ => k
  end.

(** The cleaned path of an archive entry extracted to [destPath]. *)
Definition entryPath (destPath : string) (f : zipFile) : list string :=
  filepath.key (filepath.Join destPath (Name f)).

(** [q] is [done] extended by some, not none, of the elements [todo]. *)
Definition between (done todo q : list string) : Prop :=
  exists a b, todo = a ++ b /\ a <> [] /\ q = done ++ a.

(** [q] is where a file entry among [es] goes. *)
Definition isFilePath (destPath : string) (es : list zipFile) (q : list string) : Prop :=
  exists f, In f es /\ IsDir f = false /\ entryPath destPath f = q.

(** [q] is a directory of the extraction: a directory entry among [es]
    or a directory above an entry among [es]. *)
Definition isDirPath (destPath : string) (es : list zipFile) (q : list string) : Prop :=
  exists f, In f es /\ q `prefix_of` entryPath destPath f
            /\ (q <> entryPath destPath f \/ IsDir f = true).

(** The file system [fs] is [fs1] with the entries [es] extracted to
    [destPath]: every file entry is a regular file with the content of the
    entry, every directory of the extraction is a directory, and every
    other path is as in [fs1]. *)
Definition extracted (fs1 : os.FS) (destPath : string) (es : list zipFile)
  (fs : os.FS) : Prop :=
  (forall f, In f es -> IsDir f = false ->
             exists data perm, Data f = Stored data
                               /\ os.node_at fs (entryPath destPath f)
                                  = Some (os.Regular perm data))
  /\ (forall q, isDirPath destPath es q -> os.node_at fs q = Some os.Directory)
  /\ (forall q, ~ isFilePath destPath es q -> ~ isDirPath destPath es q ->
                fs !! q = fs1 !! q).

(** No file entry goes where another entry goes, or above it. *)
Definition consistent (destPath : string) (files : list zipFile) : Prop :=
  forall (i j : nat) (f g : zipFile),
    files !! i = Some f -> files !! j = Some g -> i <> j -> IsDir f = false ->
    ~ entryPath destPath f `prefix_of` entryPath destPath g.

(** Nothing in [fs] is in the way of the extraction of [files]: there is
    no regular file where the archive needs a directory, and no directory
    where the archive has a file. *)
Definition unobstructed (fs : os.FS) (destPath : string) (files : list zipFile)
  : Prop :=
  (forall q p d, isDirPath destPath files q -> os.node_at fs q <> Some (os.Regular p d))
  /\ (forall q, isFilePath destPath files q -> os.node_at fs q <> Some os.Directory).

(** ** downloader.go: the progress reader *)

(** The value of an [int64] after an addition: two's complement, 64 bits. *)
Definition int64 (z : Z) : Z := ((z + 2 ^ 63) mod 2 ^ 64 - 2 ^ 63)%Z.

(** A [ProgressReader]; of the callback only whether it is set matters. *)
Record ProgressReader := mkProgressReader {
  Total : Z;
  Current : Z;
  onProgress : bool
}.

(** [Read]: [r] is what the wrapped reader returned for this call, the
    number of bytes and the error.  The result is what [Read] returns, the
    reader after the call, and the calls of the callback with their
    arguments. *)
Definition Read (pr : ProgressReader) (r : Z * option error)
  : (Z * option error) * ProgressReader * list (Z * Z) :=
  let '(n, err) := r in
  let pr := mkProgressReader (Total pr) (int64 (Current pr + n)) (onProgress pr) in
  ((n, err), pr, if onProgress pr then [(Current pr, Total pr)] else []).

(** A sequence of calls of [Read], as [io.Copy] makes them: the reader at
    the end and all the calls of the callback. *)
Fixpoint readAll (pr : ProgressReader) (rs : list (Z * option error))
  : ProgressReader * list (Z * Z) :=
  match rs with
  | [] => (pr, [])
  | r :: rs' =>
      let '(_, pr', calls) := Read pr r in
      let '(pr'', calls') := readAll pr' rs' in
      (pr'', calls ++ calls')
  end.

(** ** More notions used in the statements *)

(** The running sums of [ns] from [start] on. *)
Fixpoint runningSums (start : Z) (ns : list Z) : list Z :=
  match ns with
  | [] => []
  | n :: ns' => (start + n)%Z :: runningSums (start + n)%Z ns'
  end.

(** A line that fits the buffer of the scanner. *)
Definition short (l : string) : Prop :=
  (Z.of_nat (String.length l) < bufio.MaxScanTokenSize)%Z.

(** A server whose connection breaks after two bytes of any body. *)
Definition cutOffEnv : Env :=
  mkEnv (Some "/home/u") "linux" "amd64" "/tmp" ["1234"]
    (fun _ => Some (mkResponse 200 3 "zi" true))
    (fun _ => None) (fun _ => None).

(** [fmt.Sprintf("terraform_%s_%s_%s.zip", ver, targetOS, targetArch)], the
    name of the file [Download] writes, in the working directory. *)
Definition zipName (ver targetOS targetArch : string) : string :=
  "terraform_" +:+ ver +:+ "_" +:+ targetOS +:+ "_" +:+ targetArch +:+ ".zip".

(** The way to [k] is open: every directory above [k] is there. *)
Definition reachable (fs : os.FS) (k : list string) : Prop :=
  forall a b, k = a ++ b -> b <> [] -> os.node_at fs a = Some os.Directory.

(** From [cur] on, every element of [todo] leads one level down. *)
Definition appends (cur todo : list string) : Prop :=
  forall a e b, todo = a ++ e :: b -> os.step (cur ++ a) e = cur ++ a ++ [e].

(** Every directory of [fs] is a directory of [fs']. *)
Definition keepsDirs (fs fs' : os.FS) : Prop :=
  forall q, os.node_at fs q = Some os.Directory -> os.node_at fs' q = Some os.Directory.

(** [q] did not exist in [fs] and is a directory in [fs']. *)
Definition created (fs fs' : os.FS) (q : list string) : Prop :=
  os.node_at fs q = None /\ fs' !! q = Some os.Directory.

(** What an extraction to [destPath] may change at [q]: [q] lies below
    the destination, or [q] is a place on the way to the destination, as
    the path is written, and has been created. *)
Definition extractionChange (destPath : string) (fs fs' : os.FS) (q : list string)
  : Prop :=
  (exists rest, rest <> [] /\ q = filepath.key destPath ++ rest /\ normal q)
  \/ (In q (os.visited (os.start destPath) (filepath.elements destPath))
      /\ created fs fs' q).

(** The world [w'] comes after [w]: the trace has grown by events that all
    satisfy [P]. *)
Definition after (P : Event -> Prop) (w w' : World) : Prop :=
  exists evs, trace w' = trace w ++ evs /\ Forall P evs.

(** The URLs the program may call its HTTP client with: the one of the
    checkpoint service and those of the release server. *)
Definition allowedEvent (e : Event) : Prop :=
  match e with
  | HttpGet url =>
      url = terraformCheckURL
      \/ strings.HasPrefix url "https://releases.hashicorp.com/terraform/" = true
  | _ => True
  end.

(** The line of a run that has nothing to do is not printed. *)
Definition notUpToDateLine (e : Event) : Prop :=
  match e with
  | Printf format _ => format <> "Already up to date (version %s)\n"
  | _ => True
  end.

(** Text printed, as opposed to a call of the HTTP client. *)
Definition isOutput (e : Event) : Prop :=
  match e with
  | HttpGet _ => False
  | _ => True
  end.

(** The three lines [main] prints before it exits with status 1. *)
Definition errorLine (e : Event) : Prop :=
  exists err,
    e = Printf "Error getting version: %v\n" [Err err]
    \/ e = Printf "Error downloading: %v\n" [Err err]
    \/ e = Printf "Error installing: %v\n" [Err err].

(** [P] holds of every event of a download and an install. *)
Definition coversRun (P : Event -> Prop) : Prop :=
  P (HttpGet terraformCheckURL)
  /\ (forall ver os arch, P (HttpGet (terraformDownloadURL ver os arch)))
  /\ (forall line, P (Println line))
  /\ (forall total, P (ProgressBar total))
  /\ (forall format args,
        format <> "Already up to date (version %s)\n" -> P (Printf format args)).

(** * Properties *)

(** ** The model of the Go library on the examples of its documentation *)

Example Clean_examples :
  map filepath.Clean
    [ "a/c"; "a//c"; "a/c/."; "a/c/b/.."; "/../a/c"; "/../a/b/../././/c"; "";
      "/"; "a/b/../../.."; "../a/.."; "./x/" ]
  = [ "a/c"; "a/c"; "a/c"; "a/c"; "/a/c"; "/a/c"; ".";
      "/"; ".."; ".."; "x" ].
Proof. reflexivity. Qed.

Example Join_examples :
  [ filepath.Join "a" "b"; filepath.Join "a" ""; filepath.Join "" "b";
    filepath.Join "" ""; filepath.Join "a/b" "../../../xyz";
    filepath.Join "/tmp/x" "../../evil"; filepath.Join "/tmp/x" "/etc/passwd" ]
  = [ "a/b"; "a"; "b"; ""; "../xyz"; "/evil"; "/tmp/x/etc/passwd" ].
Proof. reflexivity. Qed.

Example Dir_examples :
  map filepath.Dir
    [ "/foo/bar/baz.js"; "/foo/bar/baz"; "/foo/bar/baz/"; "dev.txt";
      "../todo.txt"; ".."; "."; "/"; "" ]
  = [ "/foo/bar"; "/foo/bar"; "/foo/bar/baz"; "."; ".."; "."; "."; "/"; "." ].
Proof. reflexivity. Qed.

Example TrimSpace_examples :
  [ strings.TrimSpace (" " +:+ bytes [9; 10] +:+ " Hello, Gophers " +:+ bytes [10; 9; 13; 10]);
    strings.TrimSpace (bytes [194; 160] +:+ "x y" +:+ bytes [226; 128; 168]);
    strings.TrimSpace (bytes [32; 9; 32]);
    strings.TrimSpace (bytes [160] +:+ "x") ]
  = [ "Hello, Gophers"; "x y"; ""; bytes [160] +:+ "x" ].
Proof. reflexivity. Qed.

Example Scan_examples :
  [ bufio.Scan ("a" +:+ LF +:+ "b" +:+ bytes [13] +:+ LF +:+ LF +:+ "c");
    bufio.Scan ("a" +:+ LF); bufio.Scan "" ]
  = [ (["a"; "b"; ""; "c"], false); (["a"], false); ([], false) ].
Proof. reflexivity. Qed.

Example ParseBool_examples :
  map strconv.ParseBool ["true"; "T"; "1"; "0"; "False"; "yes"; ""; "TRUE "]
  = [Some true; Some true; Some true; Some false; Some false; None; None; None].
Proof. reflexivity. Qed.

Example MkdirAll_examples :
  (os.MkdirAll Sample.disk "/tmp/a/b").1 = None
  /\ os.Stat (os.MkdirAll Sample.disk "/tmp/a/b").2 "/tmp/a" = inr os.Directory
  /\ (os.MkdirAll Sample.diskWithZip "tf.zip").1 = Some os.ENOTDIR
  /\ (os.MkdirAll Sample.diskWithZip "tf.zip/x").1 <> None
  /\ os.Stat Sample.diskWithZip "tf.zip/x" = inl os.ENOTDIR
  /\ os.Stat Sample.disk "/nowhere/x" = inl os.ENOENT
  /\ os.Stat Sample.disk "" = inl os.ENOENT.
Proof. repeat split; discriminate. Qed.

(** Paths are resolved element by element, not cleaned first: an element
    before a [".."] has to be a directory, and [os.MkdirAll] makes it
    when it is missing. *)
Example resolution_examples :
  os.Stat Sample.diskWithZip "tf.zip/../tmp" = inl os.ENOTDIR
  /\ os.Stat Sample.disk "nowhere/../tmp" = inl os.ENOENT
  /\ os.Stat Sample.disk "/tmp/../usr/./bin" = inr os.Directory
  /\ os.Stat Sample.disk "/../tmp/" = inr os.Directory
  /\ os.Stat Sample.diskWithZip "tf.zip/" = inl os.ENOTDIR
  /\ (os.MkdirAll Sample.disk "nowhere/../d").1 = None
  /\ (os.MkdirAll Sample.disk "nowhere/../d").2 !! ["nowhere"] = Some os.Directory
  /\ (os.MkdirAll Sample.disk "nowhere/../d").2 !! ["d"] = Some os.Directory
  /\ os.RemoveAll Sample.diskWithZip "tf.zip/../tmp" = Sample.diskWithZip
  /\ os.RemoveAll Sample.diskWithZip "/usr/./bin/../../tmp" !! [""; "tmp"] = None.
Proof. repeat split. Qed.

(** Closed equations are settled by evaluating both sides. *)
Ltac evaluate :=
  lazymatch goal with
  | |- @eq ?T ?a ?b => vm_cast_no_check (@eq_refl T b)
  end.

(** ** Strings *)

Lemma sapp_nil_l (s : string) : "" +:+ s = s.
Proof. reflexivity. Qed.

Lemma sapp_cons (c : ascii) (a b : string) : String c a +:+ b = String c (a +:+ b).
Proof. reflexivity. Qed.

Lemma sapp_nil_r (s : string) : s +:+ "" = s.
Proof. induction s as [|c s IH]; [reflexivity|]. rewrite sapp_cons, IH. reflexivity. Qed.

Lemma sapp_assoc (a b c : string) : (a +:+ b) +:+ c = a +:+ (b +:+ c).
Proof.
  induction a as [|x a IH]; [reflexivity|].
  rewrite !sapp_cons, IH. reflexivity.
Qed.

Lemma sprefix_nil (s : string) : String.prefix "" s = true.
Proof. destruct s; reflexivity. Qed.

Lemma sprefix_cons (a b : ascii) (s t : string) :
  String.prefix (String a s) (String b t) = Ascii.eqb a b && String.prefix s t.
Proof.
  simpl. destruct (ascii_dec a b) as [->|Hne].
  - rewrite Ascii.eqb_refl. reflexivity.
  - destruct (Ascii.eqb_spec a b); [contradiction|reflexivity].
Qed.

Lemma sprefix_cons_nil (a : ascii) (s : string) : String.prefix (String a s) "" = false.
Proof. reflexivity. Qed.

Lemma TrimPrefix_v (s : string) :
  strings.TrimPrefix s "v" =
  match s with
  | String c r => if Ascii.eqb c "v" then r else s
  | EmptyString => s
  end.
Proof.
  destruct s as [|c r]; [reflexivity|].
  unfold strings.TrimPrefix, strings.HasPrefix.
  rewrite sprefix_cons, sprefix_nil, andb_true_r, Ascii.eqb_sym.
  destruct (Ascii.eqb c "v"); reflexivity.
Qed.

Lemma hasByte_app (c : ascii) (a b : string) :
  hasByte c (a +:+ b) = hasByte c a || hasByte c b.
Proof.
  induction a as [|x a IH]; [reflexivity|].
  rewrite sapp_cons. simpl. rewrite IH, orb_assoc. reflexivity.
Qed.

Lemma slength_app (a b : string) :
  String.length (a +:+ b) = (String.length a + String.length b)%nat.
Proof.
  induction a as [|x a IH]; [reflexivity|].
  rewrite sapp_cons. simpl. rewrite IH. reflexivity.
Qed.

Lemma rev_app_spec (s1 s2 : string) : String.rev_app s1 s2 = String.rev s1 +:+ s2.
Proof.
  revert s2. induction s1 as [|a s1 IH]; intros s2; [reflexivity|].
  unfold String.rev. simpl. rewrite (IH (String a s2)), (IH (String a "")).
  rewrite sapp_assoc. reflexivity.
Qed.

Lemma srev_cons (a : ascii) (s : string) :
  String.rev (String a s) = String.rev s +:+ String a "".
Proof. unfold String.rev at 1. simpl. apply rev_app_spec. Qed.

Lemma srev_app_distr (a b : string) :
  String.rev (a +:+ b) = String.rev b +:+ String.rev a.
Proof.
  induction a as [|x a IH].
  - rewrite sapp_nil_l. symmetry. apply sapp_nil_r.
  - rewrite sapp_cons, !srev_cons, IH, sapp_assoc. reflexivity.
Qed.

Lemma srev_involutive (s : string) : String.rev (String.rev s) = s.
Proof.
  induction s as [|a s IH]; [reflexivity|].
  rewrite srev_cons, srev_app_distr, IH. reflexivity.
Qed.

(** A pattern without the byte [c] matches at the start of [x] followed
    by [c] exactly when it matches at the start of [x]. *)
Lemma prefix_app_free (c : ascii) (t x y : string) :
  hasByte c t = false ->
  String.prefix t (x +:+ String c y) = String.prefix t x.
Proof.
  revert x. induction t as [|a t IH]; intros x H.
  - rewrite !sprefix_nil. reflexivity.
  - simpl in H. apply orb_false_elim in H as [Ha Ht].
    destruct x as [|b x].
    + rewrite sapp_nil_l, sprefix_cons, Ha. reflexivity.
    + rewrite sapp_cons, !sprefix_cons, IH by exact Ht. reflexivity.
Qed.

Lemma find_ext_in {A : Type} (f g : A -> bool) (l : list A) :
  (forall x, In x l -> f x = g x) -> List.find f l = List.find g l.
Proof.
  induction l as [|x l IH]; intros H; [reflexivity|].
  simpl. rewrite (H x) by (left; reflexivity).
  destruct (g x); [reflexivity|]. apply IH. intros y Hy. apply H. right. exact Hy.
Qed.

Lemma spaces_without (c : ascii) :
  forallb (fun t => negb (hasByte c (String.rev t))) strings.spaces = true ->
  forall t, In t strings.spaces -> hasByte c (String.rev t) = false.
Proof.
  intros H t Ht. rewrite forallb_forall in H. apply negb_true_iff. apply H, Ht.
Qed.

(** White space at the end of a line is white space at the end of what
    follows its last "=". *)
Lemma trailingSpace_after_eq (a v : string) :
  strings.trailingSpace ((a +:+ "=") +:+ v) = strings.trailingSpace v.
Proof.
  unfold strings.trailingSpace, strings.HasSuffix. apply find_ext_in.
  intros t Ht. rewrite !srev_app_distr.
  change (String.rev "=") with (String "=" ""). rewrite sapp_cons, sapp_nil_l.
  apply prefix_app_free. apply spaces_without; [reflexivity|exact Ht].
Qed.

Lemma trimLeft_bare (n : nat) (s : string) :
  strings.leadingSpace s = None -> strings.trimLeft n s = s.
Proof.
  intros H. destruct n as [|n]; [reflexivity|].
  change (strings.trimLeft (S n) s)
    with (match strings.leadingSpace s with
          | Some t => strings.trimLeft n (drop_bytes (String.length t) s)
          | None => s
          end).
  rewrite H. reflexivity.
Qed.

Lemma trimRight_bare (n : nat) (s : string) :
  strings.trailingSpace s = None -> strings.trimRight n (String.rev s) = String.rev s.
Proof.
  intros H. destruct n as [|n]; [reflexivity|].
  change (strings.trimRight (S n) (String.rev s))
    with (match strings.trailingSpace s with
          | Some t => strings.trimRight n (drop_bytes (String.length t) (String.rev s))
          | None => String.rev s
          end).
  rewrite H. reflexivity.
Qed.

Lemma TrimSpace_bare (s : string) :
  strings.leadingSpace s = None -> strings.trailingSpace s = None ->
  strings.TrimSpace s = s.
Proof.
  intros Hl Ht. unfold strings.TrimSpace.
  rewrite trimLeft_bare by exact Hl. rewrite trimRight_bare by exact Ht.
  apply srev_involutive.
Qed.

Lemma dropCR_bare (l : string) : strings.trailingSpace l = None -> bufio.dropCR l = l.
Proof.
  intros H. unfold bufio.dropCR.
  assert (E : strings.HasSuffix l (bytes [13]) = false).
  { apply (List.find_none _ _ H). simpl. tauto. }
  rewrite E. reflexivity.
Qed.

Lemma rawLines_line (a rest : string) :
  hasByte "010" a = false ->
  bufio.rawLines (a +:+ String "010" rest) = a :: bufio.rawLines rest.
Proof.
  induction a as [|c a IH]; intros H; [reflexivity|].
  simpl in H. apply orb_false_elim in H as [Hc Ha].
  rewrite sapp_cons. simpl. rewrite Hc, IH by exact Ha. reflexivity.
Qed.

(** ** Paths *)

Lemma elements_free (e : string) :
  hasByte "/" e = false -> filepath.elements e = [e].
Proof.
  induction e as [|c e IH]; intros H; [reflexivity|].
  simpl in H. apply orb_false_elim in H as [Hc He].
  simpl. unfold filepath.Separator. rewrite Hc, IH by exact He. reflexivity.
Qed.

Lemma elements_app_sep (e r : string) :
  hasByte "/" e = false ->
  filepath.elements (e +:+ String "/" r) = e :: filepath.elements r.
Proof.
  induction e as [|c e IH]; intros H; [reflexivity|].
  simpl in H. apply orb_false_elim in H as [Hc He].
  rewrite sapp_cons. simpl. unfold filepath.Separator. rewrite Hc, IH by exact He.
  reflexivity.
Qed.

Lemma elements_slash_free (s : string) :
  Forall (fun e => hasByte "/" e = false) (filepath.elements s).
Proof.
  induction s as [|c s IH]; [repeat constructor|].
  simpl. unfold filepath.Separator.
  destruct (Ascii.eqb c "/") eqn:Hc; [constructor; [reflexivity|exact IH]|].
  destruct (filepath.elements s) as [|e es]; [repeat constructor; simpl; rewrite Hc; reflexivity|].
  inversion IH as [|? ? He Hes]; subst.
  constructor; [simpl; rewrite Hc, He; reflexivity|exact Hes].
Qed.

Lemma concat_cons (x : string) (xs : list string) :
  xs <> [] -> String.concat "/" (x :: xs) = x +:+ String "/" (String.concat "/" xs).
Proof. destruct xs; [congruence|reflexivity]. Qed.

Lemma concat_snoc (xs : list string) (e : string) :
  xs <> [] ->
  String.concat "/" (xs ++ [e]) = String.concat "/" xs +:+ String "/" e.
Proof.
  induction xs as [|x xs IH]; intros H; [congruence|].
  destruct xs as [|y ys]; [reflexivity|].
  change ((x :: y :: ys) ++ [e]) with (x :: ((y :: ys) ++ [e])).
  rewrite concat_cons by discriminate. rewrite IH by discriminate.
  rewrite (concat_cons x (y :: ys)) by discriminate.
  rewrite sapp_assoc, sapp_cons. reflexivity.
Qed.

Lemma elements_concat (k : list string) :
  k <> [] -> Forall (fun e => hasByte "/" e = false) k ->
  filepath.elements (String.concat "/" k) = k.
Proof.
  induction k as [|x xs IH]; intros Hne H; [congruence|].
  inversion H as [|? ? Hx Hxs]; subst.
  destruct xs as [|y ys].
  - apply elements_free, Hx.
  - rewrite concat_cons by discriminate.
    rewrite elements_app_sep by exact Hx. rewrite IH; [reflexivity|discriminate|exact Hxs].
Qed.

(** Two strings that agree up to their first separator agree on what
    comes before it. *)
Lemma sprefix_sep (d e x y : string) :
  hasByte "/" d = false -> hasByte "/" e = false ->
  String.prefix (d +:+ String "/" x) (e +:+ String "/" y) = true ->
  d = e /\ String.prefix x y = true.
Proof.
  revert e. induction d as [|a d IH]; intros e Hd He H.
  - destruct e as [|b e].
    + rewrite !sapp_nil_l, sprefix_cons in H. apply andb_prop in H as [_ H]. auto.
    + rewrite sapp_nil_l, sapp_cons, sprefix_cons in H. apply andb_prop in H as [H _].
      simpl in He. apply orb_false_elim in He as [Hb _].
      rewrite Ascii.eqb_sym, Hb in H. discriminate.
  - simpl in Hd. apply orb_false_elim in Hd as [Ha Hd].
    destruct e as [|b e].
    + rewrite sapp_nil_l, sapp_cons, sprefix_cons, Ha in H. discriminate.
    + simpl in He. apply orb_false_elim in He as [Hb He].
      rewrite !sapp_cons, sprefix_cons in H. apply andb_prop in H as [Hab H].
      apply Ascii.eqb_eq in Hab. subst b.
      destruct (IH e Hd He H) as [-> Hxy]. auto.
Qed.

Lemma sprefix_sep_free (d x e : string) :
  hasByte "/" e = false -> String.prefix (d +:+ String "/" x) e = false.
Proof.
  revert e. induction d as [|a d IH]; intros e He.
  - rewrite sapp_nil_l. destruct e as [|b e]; [reflexivity|].
    simpl in He. apply orb_false_elim in He as [Hb _].
    rewrite sprefix_cons, Ascii.eqb_sym, Hb. reflexivity.
  - rewrite sapp_cons. destruct e as [|b e]; [reflexivity|].
    simpl in He. apply orb_false_elim in He as [_ He].
    rewrite sprefix_cons, IH by exact He. apply andb_false_r.
Qed.

(** The check of the extraction, on lists of elements: when the string of
    [kd] followed by a separator starts the string of [kf], the elements
    of [kd] start those of [kf], and more follow. *)
Lemma concat_prefix (kd kf : list string) :
  kd <> [] ->
  Forall (fun e => hasByte "/" e = false) kd ->
  Forall (fun e => hasByte "/" e = false) kf ->
  String.prefix (String.concat "/" kd +:+ "/") (String.concat "/" kf) = true ->
  exists rest, rest <> [] /\ kf = kd ++ rest.
Proof.
  revert kf. induction kd as [|d kd IH]; intros kf Hne Hd Hf H; [congruence|].
  inversion Hd as [|? ? Hd1 Hd2]; subst.
  destruct kf as [|e es].
  - exfalso. change (String.concat "/" []) with "" in H.
    destruct (String.concat "/" (d :: kd) +:+ "/") eqn:E; [|discriminate H].
    apply (f_equal String.length) in E. rewrite slength_app in E. simpl in E. lia.
  - inversion Hf as [|? ? He1 He2]; subst.
    destruct es as [|e2 es].
    + exfalso. simpl (String.concat "/" [e]) in H.
      destruct kd as [|d2 kd].
      * simpl in H. rewrite sprefix_sep_free in H by exact He1. discriminate.
      * rewrite concat_cons, sapp_assoc, sapp_cons in H by discriminate.
        rewrite sprefix_sep_free in H by exact He1. discriminate.
    + rewrite (concat_cons e (e2 :: es)) in H by discriminate.
      destruct kd as [|d2 kd].
      * simpl (String.concat "/" [d]) in H.
        apply sprefix_sep in H as [-> _]; [|assumption..].
        exists (e2 :: es). split; [discriminate|reflexivity].
      * rewrite concat_cons, sapp_assoc, sapp_cons in H by discriminate.
        apply sprefix_sep in H as [-> H]; [|assumption..].
        destruct (IH (e2 :: es)) as (rest & Hrest & Heq);
          [discriminate|assumption|assumption|exact H|].
        exists rest. split; [exact Hrest|]. rewrite Heq. reflexivity.
Qed.


Lemma real_slash_free (l : list string) :
  Forall real l -> Forall (fun e => hasByte "/" e = false) l.
Proof. intros H. eapply Forall_impl; [exact H|]. intros e (_ & _ & _ & He). exact He. Qed.

Lemma dots_slash_free (l : list string) :
  Forall (eq "..") l -> Forall (fun e => hasByte "/" e = false) l.
Proof. intros H. eapply Forall_impl; [exact H|]. intros e <-. reflexivity. Qed.

Lemma normal_slash_free (k : list string) :
  normal k -> Forall (fun e => hasByte "/" e = false) k.
Proof.
  intros [(body & -> & Hb)|(ds & body & -> & Hd & Hb)].
  - constructor; [reflexivity|]. apply real_slash_free, Hb.
  - apply Forall_app. split; [apply dots_slash_free, Hd|apply real_slash_free, Hb].
Qed.

Lemma cleanStep_real (r : bool) (out : list string) (e : string) :
  real e -> filepath.cleanStep r out e = e :: out.
Proof.
  intros (H1 & H2 & H3 & _). unfold filepath.cleanStep.
  apply String.eqb_neq in H1, H2, H3. rewrite H1, H2, H3. reflexivity.
Qed.

Lemma fold_real (r : bool) (body out : list string) :
  Forall real body -> fold_left (filepath.cleanStep r) body out = rev body ++ out.
Proof.
  revert out. induction body as [|e body IH]; intros out H; [reflexivity|].
  inversion H as [|? ? He Hb]; subst. simpl.
  rewrite cleanStep_real by exact He. rewrite IH by exact Hb.
  rewrite <- app_assoc. reflexivity.
Qed.

Lemma fold_dots (ds out : list string) :
  Forall (eq "..") ds -> Forall (eq "..") out ->
  fold_left (filepath.cleanStep false) ds out = ds ++ out
  /\ Forall (eq "..") (ds ++ out).
Proof.
  revert out. induction ds as [|d ds IH]; intros out Hd Ho; [split; [reflexivity|exact Ho]|].
  inversion Hd as [|? ? <- Hds]; subst. simpl.
  assert (E : filepath.cleanStep false out ".." = ".." :: out).
  { destruct out as [|top out]; [reflexivity|].
    inversion Ho as [|? ? <- _]; subst. reflexivity. }
  rewrite E. destruct (IH (".." :: out) Hds) as [IH1 IH2]; [constructor; auto|].
  rewrite IH1. split.
  - clear -Hds. induction Hds as [|x l <- _ IHl]; [reflexivity|].
    simpl. rewrite IHl. reflexivity.
  - constructor; [reflexivity|]. apply Forall_app. split; [exact Hds|exact Ho].
Qed.

Lemma rev_dots (ds : list string) : Forall (eq "..") ds -> rev ds = ds.
Proof.
  induction 1 as [|x l <- Hl IH]; [reflexivity|].
  simpl. rewrite IH. clear IH. induction Hl as [|y l <- _ IH]; [reflexivity|].
  simpl. rewrite IH. reflexivity.
Qed.

Lemma assemble_normal (k : list string) : normal k -> assemble (isRooted k) k = k.
Proof.
  intros [(body & -> & Hb)|(ds & body & -> & Hd & Hb)]; unfold assemble.
  - simpl. rewrite fold_real by exact Hb. rewrite app_nil_r, rev_involutive.
    reflexivity.
  - assert (Hr : isRooted (ds ++ body) = false).
    { destruct Hd as [|d ds <- _]; [|reflexivity].
      destruct Hb as [|b body (Hb & _) _]; [reflexivity|].
      simpl. apply String.eqb_neq, Hb. }
    rewrite Hr, fold_left_app. simpl.
    destruct (fold_dots ds [] Hd) as [E _]; [constructor|].
    rewrite E, app_nil_r, fold_real by exact Hb.
    rewrite rev_app_distr, rev_involutive, rev_dots by exact Hd. reflexivity.
Qed.

Lemma assemble_trailing_separator (r : bool) (els : list string) :
  assemble r (els ++ [""]) = assemble r els.
Proof. unfold assemble. rewrite fold_left_app. reflexivity. Qed.

Lemma normal_snoc_inv (k : list string) (e : string) : normal (k ++ [e]) -> normal k.
Proof.
  intros [(body & E & Hb)|(ds & body & E & Hd & Hb)].
  - destruct k as [|x k]; [right; exists [], []; repeat split; constructor|].
    simpl in E. injection E as -> E. left. exists k. split; [reflexivity|].
    rewrite <- E in Hb. apply Forall_app in Hb. apply Hb.
  - right. destruct (rev body) as [|b ydob] eqn:Hrev.
    + apply (f_equal (@rev string)) in Hrev. rewrite rev_involutive in Hrev.
      simpl in Hrev. subst body. rewrite app_nil_r in E. subst ds.
      apply Forall_app in Hd as [Hd _]. exists k, []. rewrite app_nil_r.
      repeat split; [exact Hd|constructor].
    + apply (f_equal (@rev string)) in Hrev. rewrite rev_involutive in Hrev.
      simpl in Hrev. subst body. rewrite app_assoc in E.
      apply app_inj_tail in E as [-> _]. exists ds, (rev ydob).
      apply Forall_app in Hb as [Hb _]. repeat split; assumption.
Qed.


(** The output of the loop of [Clean], last element first: proper
    elements on top of the [".."] a path that is not rooted starts with. *)
Lemma cleanStep_stack (r : bool) (out : list string) (e : string) :
  hasByte "/" e = false ->
  (exists body ds, out = body ++ ds /\ Forall real body /\ Forall (eq "..") ds
                   /\ (r = true -> ds = [])) ->
  exists body ds, filepath.cleanStep r out e = body ++ ds /\ Forall real body
                  /\ Forall (eq "..") ds /\ (r = true -> ds = []).
Proof.
  intros He (body & ds & -> & Hb & Hd & Hr). unfold filepath.cleanStep.
  destruct (String.eqb_spec e "") as [->|H1]; [exists body, ds; auto|].
  destruct (String.eqb_spec e ".") as [->|H2]; [exists body, ds; auto|].
  simpl. destruct (String.eqb_spec e "..") as [->|H3].
  - destruct body as [|b body].
    + simpl. destruct ds as [|d ds].
      * destruct r; [exists [], []|exists [], [".."]]; repeat split; auto;
          try constructor; auto. discriminate.
      * inversion Hd as [|? ? <- Hds]; subst. simpl.
        exists [], (".." :: ".." :: ds). repeat split; auto.
        intros Hr'. specialize (Hr Hr'). discriminate.
    + inversion Hb as [|? ? Hb1 Hb2]; subst. simpl.
      destruct Hb1 as (_ & _ & Hb1 & _). apply String.eqb_neq in Hb1. rewrite Hb1.
      exists body, ds. auto.
  - exists (e :: body), ds. repeat split; auto. constructor; [|exact Hb].
    repeat split; assumption.
Qed.

Lemma fold_stack (r : bool) (els out : list string) :
  Forall (fun e => hasByte "/" e = false) els ->
  (exists body ds, out = body ++ ds /\ Forall real body /\ Forall (eq "..") ds
                   /\ (r = true -> ds = [])) ->
  exists body ds, fold_left (filepath.cleanStep r) els out = body ++ ds
                  /\ Forall real body /\ Forall (eq "..") ds /\ (r = true -> ds = []).
Proof.
  revert out. induction els as [|e els IH]; intros out He Ho; [exact Ho|].
  inversion He as [|? ? He1 He2]; subst. simpl.
  apply IH; [exact He2|]. apply cleanStep_stack; assumption.
Qed.

Lemma assemble_is_normal (r : bool) (els : list string) :
  Forall (fun e => hasByte "/" e = false) els -> normal (assemble r els).
Proof.
  intros He. unfold assemble.
  destruct (fold_stack r els [] He) as (body & ds & -> & Hb & Hd & Hr).
  { exists [], []. repeat split; auto. }
  rewrite rev_app_distr. destruct r.
  - rewrite (Hr eq_refl). left. exists (rev body). split; [reflexivity|].
    apply Forall_rev, Hb.
  - right. exists (rev ds), (rev body). split; [reflexivity|].
    split; apply Forall_rev; assumption.
Qed.

Lemma key_normal (s : string) : normal (filepath.key s).
Proof. apply (assemble_is_normal (filepath.rooted s)), elements_slash_free. Qed.

Lemma normal_head (k : list string) (x : string) (xs : list string) :
  normal k -> k = x :: xs -> x = "" \/ exists c x', x = String c x' /\ Ascii.eqb c "/" = false.
Proof.
  intros Hn ->. pose proof (normal_slash_free _ Hn) as Hs.
  inversion Hs as [|? ? Hx _]; subst.
  destruct x as [|c x']; [left; reflexivity|]. right. exists c, x'.
  split; [reflexivity|]. simpl in Hx. apply orb_false_elim in Hx. apply Hx.
Qed.

Lemma rooted_concat (k : list string) (r : string) :
  normal k -> k <> [] -> (k = [""] -> filepath.rooted r = true) ->
  filepath.rooted (String.concat "/" k +:+ r) = isRooted k.
Proof.
  intros Hn Hne Hr. destruct k as [|x xs]; [congruence|].
  destruct (normal_head _ x xs Hn eq_refl) as [->|(c & x' & -> & Hc)].
  - destruct xs as [|y ys]; [apply Hr; reflexivity|reflexivity].
  - destruct xs as [|y ys]; simpl; unfold filepath.Separator; rewrite Hc; reflexivity.
Qed.

Lemma render_concat (k : list string) :
  k <> [] -> k <> [""] -> filepath.render k = String.concat "/" k.
Proof.
  intros H1 H2. destruct k as [|x xs]; [congruence|].
  destruct x as [|c x]; [|reflexivity]. destruct xs; [congruence|reflexivity].
Qed.

(** Cleaning a cleaned path changes nothing. *)
Lemma key_render (k : list string) : normal k -> filepath.key (filepath.render k) = k.
Proof.
  intros Hn.
  destruct (decide (k = [])) as [->|H1]; [reflexivity|].
  destruct (decide (k = [""])) as [->|H2]; [reflexivity|].
  rewrite render_concat by assumption. unfold filepath.key. fold (assemble
    (filepath.rooted (String.concat "/" k)) (filepath.elements (String.concat "/" k))).
  rewrite <- (sapp_nil_r (String.concat "/" k)) at 1.
  rewrite rooted_concat by (try assumption; congruence).
  rewrite elements_concat by (try assumption; apply normal_slash_free, Hn).
  apply assemble_normal, Hn.
Qed.

Lemma render_nonempty (k : list string) :
  normal k -> String.eqb (filepath.render k) "" = false.
Proof.
  intros Hn.
  destruct (decide (k = [])) as [->|H1]; [reflexivity|].
  destruct (decide (k = [""])) as [->|H2]; [reflexivity|].
  rewrite render_concat by assumption. destruct k as [|x xs]; [congruence|].
  destruct (normal_head _ x xs Hn eq_refl) as [->|(c & x' & -> & Hc)].
  - destruct xs as [|y ys]; [congruence|reflexivity].
  - destruct xs; reflexivity.
Qed.


Lemma dirPart_free (e : string) : hasByte "/" e = false -> filepath.dirPart e = "".
Proof.
  induction e as [|c e IH]; intros H; [reflexivity|].
  simpl in H. apply orb_false_elim in H as [Hc He].
  simpl. unfold filepath.Separator. rewrite Hc, IH by exact He. reflexivity.
Qed.

Lemma dirPart_app (x e : string) :
  hasByte "/" e = false -> filepath.dirPart (x +:+ String "/" e) = x +:+ "/".
Proof.
  intros He. induction x as [|c x IH].
  - rewrite !sapp_nil_l. simpl. rewrite dirPart_free by exact He. reflexivity.
  - rewrite !sapp_cons. simpl. rewrite IH.
    assert (E : String.eqb (x +:+ "/") "" = false) by (destruct x; reflexivity).
    rewrite E, orb_true_r. reflexivity.
Qed.

Lemma elements_concat_app (k : list string) (r : string) :
  k <> [] -> Forall (fun e => hasByte "/" e = false) k ->
  filepath.elements (String.concat "/" k +:+ String "/" r) = k ++ filepath.elements r.
Proof.
  induction k as [|x xs IH]; intros Hne H; [congruence|].
  inversion H as [|? ? Hx Hxs]; subst.
  destruct xs as [|y ys].
  - simpl. apply elements_app_sep, Hx.
  - rewrite concat_cons by discriminate. rewrite sapp_assoc, sapp_cons.
    rewrite elements_app_sep by exact Hx. rewrite IH; [reflexivity|discriminate|exact Hxs].
Qed.

(** [Dir] of a cleaned path is the path without its last element. *)
Lemma key_Dir_render (k : list string) :
  normal k -> k <> [""] ->
  filepath.key (filepath.Dir (filepath.render k)) = removelast k.
Proof.
  intros Hn Hroot. unfold filepath.Dir, filepath.Clean.
  rewrite key_render by apply key_normal.
  destruct (decide (k = [])) as [->|Hk]; [reflexivity|].
  destruct (exists_last Hk) as (k' & e & ->). clear Hk.
  rewrite removelast_last.
  pose proof (normal_slash_free _ Hn) as Hs. apply Forall_app in Hs as [Hs' He].
  inversion He as [|? ? He' _]; subst.
  destruct (decide (k' = [])) as [->|Hk'].
  - simpl app. rewrite render_concat by (try discriminate; exact Hroot).
    simpl. rewrite dirPart_free by exact He'. reflexivity.
  - rewrite render_concat;
      [|destruct k'; discriminate|destruct k' as [|? [|]]; [congruence|discriminate..]].
    rewrite concat_snoc by exact Hk'. rewrite dirPart_app by exact He'.
    unfold filepath.key.
    fold (assemble (filepath.rooted (String.concat "/" k' +:+ "/"))
            (filepath.elements (String.concat "/" k' +:+ "/"))).
    pose proof (normal_snoc_inv _ _ Hn) as Hn'.
    rewrite rooted_concat by (try assumption; reflexivity).
    rewrite elements_concat_app by assumption.
    change (filepath.elements "") with [""].
    rewrite assemble_trailing_separator. apply assemble_normal, Hn'.
Qed.

Lemma render_shown (k : list string) :
  filepath.render k = String.concat "/" (shown k).
Proof. destruct k as [|[|c x] [|y ys]]; reflexivity. Qed.

Lemma normal_no_dot (k : list string) : normal k -> ~ In "." k.
Proof.
  intros [(body & -> & Hb)|(ds & body & -> & Hd & Hb)] Hin.
  - destruct Hin as [Hin|Hin]; [discriminate|].
    rewrite Forall_forall in Hb. apply list_elem_of_In, Hb in Hin.
    destruct Hin as (_ & H & _). congruence.
  - apply in_app_or in Hin as [Hin|Hin].
    + rewrite Forall_forall in Hd. apply list_elem_of_In, Hd in Hin. discriminate.
    + rewrite Forall_forall in Hb. apply list_elem_of_In, Hb in Hin.
      destruct Hin as (_ & H & _). congruence.
Qed.

Lemma normal_rooted_body (body : list string) : normal ("" :: body) -> Forall real body.
Proof.
  intros [(body' & E & Hb)|(ds & body' & E & Hd & Hb)].
  - injection E as <-. exact Hb.
  - destruct ds as [|d ds].
    + simpl in E. subst body'. inversion Hb as [|? ? (H & _) _]. congruence.
    + inversion Hd as [|? ? Hd1 _]; subst. discriminate.
Qed.

(** The check of [Unzip] on cleaned paths: a path that passes lies
    strictly below the destination. *)
Lemma legal_below (kd kf : list string) :
  normal kd -> normal kf ->
  String.prefix (filepath.render kd +:+ "/") (filepath.render kf) = true ->
  exists rest, rest <> [] /\ kf = kd ++ rest.
Proof.
  intros Hd Hf H. rewrite !render_shown in H.
  assert (Sd : Forall (fun e => hasByte "/" e = false) (shown kd)).
  { pose proof (normal_slash_free _ Hd) as Hs.
    destruct kd as [|[|c x] [|y ys]]; try exact Hs; repeat constructor. }
  assert (Sf : Forall (fun e => hasByte "/" e = false) (shown kf)).
  { pose proof (normal_slash_free _ Hf) as Hs.
    destruct kf as [|[|c x] [|y ys]]; try exact Hs; repeat constructor. }
  apply concat_prefix in H as (rest & Hrest & E);
    [|destruct kd as [|[|c x] [|y ys]]; discriminate|assumption..].
  assert (Hkf : shown kf = kf \/ kf = [] \/ kf = [""]).
  { destruct kf as [|[|c x] [|y ys]]; auto. }
  assert (Hkd : shown kd = kd \/ kd = [] \/ kd = [""]).
  { destruct kd as [|[|c x] [|y ys]]; auto. }
  destruct Hkd as [Ed|[->| ->]].
  - rewrite Ed in E. destruct Hkf as [Ef|[->| ->]].
    + exists rest. rewrite <- Ef. auto.
    + exfalso. simpl in E. destruct kd as [|d kd]; [discriminate|].
      destruct kd, rest; try discriminate; congruence.
    + exfalso. simpl in E. destruct kd as [|d [|d2 kd]]; [discriminate| |].
      * injection E as <- _. discriminate.
      * destruct kd, rest; try discriminate; congruence.
  - exfalso. simpl in E. destruct Hkf as [Ef|[->| ->]].
    + rewrite Ef in E. apply (normal_no_dot _ Hf). rewrite E. left. reflexivity.
    + destruct rest; [congruence|discriminate].
    + discriminate.
  - exfalso. simpl in E. destruct Hkf as [Ef|[->| ->]].
    + rewrite Ef in E. subst kf. apply normal_rooted_body in Hf.
      inversion Hf as [|? ? (Hx & _) _]. congruence.
    + discriminate.
    + destruct rest; [congruence|discriminate].
Qed.


(** ** The file system *)

Lemma node_at_insert_ne (fs : os.FS) (k q : list string) (n : os.node) :
  q <> k -> os.node_at (<[k := n]> fs) q = os.node_at fs q.
Proof.
  intros H. unfold os.node_at. destruct (os.anchor q); [reflexivity|].
  apply lookup_insert_ne. congruence.
Qed.

Lemma node_at_insert_eq (fs : os.FS) (k : list string) (n : os.node) :
  os.anchor k = false -> os.node_at (<[k := n]> fs) k = Some n.
Proof. intros H. unfold os.node_at. rewrite H. apply lookup_insert_eq. Qed.

Lemma node_at_anchor (fs : os.FS) (k : list string) :
  os.anchor k = true -> os.node_at fs k = Some os.Directory.
Proof. intros H. unfold os.node_at. rewrite H. reflexivity. Qed.

Lemma node_at_not_directory (fs : os.FS) (k : list string) :
  os.node_at fs k <> Some os.Directory -> os.anchor k = false.
Proof.
  intros H. destruct (os.anchor k) eqn:E; [|reflexivity].
  exfalso. apply H, node_at_anchor, E.
Qed.

Lemma node_at_None (fs : os.FS) (q : list string) :
  os.node_at fs q = None -> os.anchor q = false /\ fs !! q = None.
Proof. unfold os.node_at. destruct (os.anchor q); [discriminate|auto]. Qed.

Lemma node_at_same (fs fs' : os.FS) (q : list string) :
  fs !! q = fs' !! q -> os.node_at fs q = os.node_at fs' q.
Proof. intros H. unfold os.node_at. rewrite H. reflexivity. Qed.

Lemma node_at_lookup (fs : os.FS) (q : list string) (p : N) (d : string) :
  os.node_at fs q = Some (os.Regular p d) -> fs !! q = Some (os.Regular p d).
Proof. unfold os.node_at. destruct (os.anchor q); [discriminate|auto]. Qed.

(** *** Steps and cleaned paths *)

Lemma dots_forallb (k : list string) :
  Forall (eq "..") k -> forallb (String.eqb "..") k = true.
Proof. induction 1 as [|x l <- _ IH]; [reflexivity|]. cbn [forallb]. exact IH. Qed.

Lemma forallb_dots (k : list string) :
  forallb (String.eqb "..") k = true -> Forall (eq "..") k.
Proof.
  induction k as [|x k IH]; intros H; [constructor|].
  cbn [forallb] in H. apply andb_prop in H as [H1 H2]. apply String.eqb_eq in H1.
  constructor; [exact H1|apply IH, H2].
Qed.

Lemma parent_dots (k : list string) :
  Forall (eq "..") k -> os.parent k = k ++ [".."].
Proof.
  intros H. unfold os.parent.
  destruct (bool_decide_reflect (k = [""])) as [->|_].
  - inversion H as [|? ? E _]. discriminate E.
  - rewrite dots_forallb by exact H. reflexivity.
Qed.

Lemma parent_snoc (k : list string) (e : string) :
  e <> "" -> e <> ".." -> os.parent (k ++ [e]) = k.
Proof.
  intros H1 H2. unfold os.parent.
  destruct (bool_decide_reflect (k ++ [e] = [""])) as [E|_].
  - exfalso. destruct k as [|x [|y k]]; simpl in E; try discriminate E.
    injection E as E. congruence.
  - destruct (forallb (String.eqb "..") (k ++ [e])) eqn:F.
    + exfalso. apply forallb_dots, Forall_app in F as [_ F].
      inversion F as [|? ? E _]. congruence.
    + apply removelast_last.
Qed.

(** A step of the kernel is a round of the loop of [Clean]. *)
Lemma step_cleanStep (r : bool) (out : list string) (e : string) :
  (exists body ds, out = body ++ ds /\ Forall real body /\ Forall (eq "..") ds
                   /\ (r = true -> ds = [])) ->
  os.step ((if r then [EmptyString] else []) ++ rev out) e
  = (if r then [EmptyString] else []) ++ rev (filepath.cleanStep r out e).
Proof.
  intros (body & ds & -> & Hb & Hd & Hr). unfold os.step, filepath.cleanStep.
  destruct (String.eqb e "" || String.eqb e "."); [reflexivity|].
  destruct (String.eqb_spec e "..") as [->|He].
  - destruct body as [|b body].
    + simpl. destruct ds as [|d ds].
      * destruct r; reflexivity.
      * inversion Hd as [|? ? <- Hds]; subst.
        assert (r = false) as -> by (destruct r; [specialize (Hr eq_refl); discriminate|reflexivity]).
        cbn [String.eqb Ascii.eqb Bool.eqb app]. 
        change (rev (".." :: ".." :: ds)) with (rev (".." :: ds) ++ [".."]).
        apply parent_dots. apply Forall_rev. constructor; [reflexivity|exact Hds].
    + inversion Hb as [|? ? (Hb1 & _ & Hb3 & _) Hb2]; subst.
      cbn [app]. apply String.eqb_neq in Hb3 as Hb3'. rewrite Hb3'.
      change (rev (b :: body ++ ds)) with (rev (body ++ ds) ++ [b]).
      rewrite app_assoc. apply parent_snoc; assumption.
  - simpl. rewrite app_assoc. reflexivity.
Qed.

Lemma steps_fold (r : bool) (els out : list string) :
  Forall (fun e => hasByte "/" e = false) els ->
  (exists body ds, out = body ++ ds /\ Forall real body /\ Forall (eq "..") ds
                   /\ (r = true -> ds = [])) ->
  fold_left os.step els ((if r then [EmptyString] else []) ++ rev out)
  = (if r then [EmptyString] else []) ++ rev (fold_left (filepath.cleanStep r) els out).
Proof.
  revert out. induction els as [|e els IH]; intros out He Ho; [reflexivity|].
  inversion He as [|? ? He1 He2]; subst. simpl.
  rewrite step_cleanStep by exact Ho.
  apply IH; [exact He2|]. apply cleanStep_stack; assumption.
Qed.

(** The place a path names is its cleaned form. *)
Lemma steps_key (s : string) :
  fold_left os.step (filepath.elements s) (os.start s) = filepath.key s.
Proof.
  unfold os.start, filepath.key.
  pose proof (steps_fold (filepath.rooted s) (filepath.elements s) []
                (elements_slash_free s)) as H.
  simpl in H. rewrite app_nil_r in H. apply H.
  exists [], []. repeat split; auto.
Qed.


(** *** Path resolution *)

Lemma follow_steps (fs : os.FS) (todo cur k : list string) :
  os.follow fs cur todo = inr k -> k = fold_left os.step todo cur.
Proof.
  revert cur. induction todo as [|e todo IH]; intros cur H; simpl in H.
  - injection H as <-. reflexivity.
  - destruct (os.node_at fs cur) as [[|]|]; try discriminate. apply IH, H.
Qed.

(** The resolution of a path only looks at directories: it goes the
    same way in a file system that has kept them. *)
Lemma follow_keeps (fs fs' : os.FS) (todo cur k : list string) :
  keepsDirs fs fs' -> os.follow fs cur todo = inr k -> os.follow fs' cur todo = inr k.
Proof.
  intros Hk. revert cur. induction todo as [|e todo IH]; intros cur H; simpl in *.
  - exact H.
  - destruct (os.node_at fs cur) as [[|]|] eqn:E; try discriminate.
    rewrite (Hk cur E). apply IH, H.
Qed.

Lemma keepsDirs_insert (fs : os.FS) (k : list string) (n : os.node) :
  os.node_at fs k <> Some os.Directory -> keepsDirs fs (<[k := n]> fs).
Proof.
  intros Hn q Hq. rewrite node_at_insert_ne; [exact Hq|]. intros ->. congruence.
Qed.

Lemma keepsDirs_refl (fs : os.FS) : keepsDirs fs fs.
Proof. intros q H. exact H. Qed.

Lemma keepsDirs_trans (fs1 fs2 fs3 : os.FS) :
  keepsDirs fs1 fs2 -> keepsDirs fs2 fs3 -> keepsDirs fs1 fs3.
Proof. intros H1 H2 q H. apply H2, H1, H. Qed.

Lemma reachable_snoc (fs : os.FS) (k : list string) (e : string) :
  os.node_at fs k = Some os.Directory -> reachable fs k -> reachable fs (k ++ [e]).
Proof.
  intros Hk Hr a b E Hb.
  destruct (exists_last Hb) as (b' & x & ->).
  rewrite app_assoc in E. apply app_inj_tail in E as [-> _].
  destruct b' as [|y b']; [rewrite app_nil_r in Hk; exact Hk|].
  apply (Hr a (y :: b')); [reflexivity|discriminate].
Qed.

Lemma reachable_removelast (fs : os.FS) (k : list string) :
  reachable fs k -> reachable fs (removelast k).
Proof.
  intros Hr a b E Hb.
  destruct (decide (k = [])) as [->|Hk]; [simpl in E; symmetry in E;
    apply app_eq_nil in E as [_ ->]; congruence|].
  destruct (exists_last Hk) as (k' & x & ->). rewrite removelast_last in E. subst k'.
  apply (Hr a (b ++ [x])); [rewrite app_assoc; reflexivity|].
  intros E. apply app_eq_nil in E as [_ E]. discriminate E.
Qed.

Lemma reachable_step (fs : os.FS) (k : list string) (e : string) :
  os.node_at fs k = Some os.Directory -> reachable fs k -> reachable fs (os.step k e).
Proof.
  intros Hk Hr. unfold os.step.
  destruct (String.eqb e "" || String.eqb e "."); [exact Hr|].
  destruct (String.eqb e "..").
  - unfold os.parent. destruct (bool_decide (k = [""])); [exact Hr|].
    destruct (forallb (String.eqb "..") k).
    + apply reachable_snoc; assumption.
    + apply reachable_removelast, Hr.
  - apply reachable_snoc; assumption.
Qed.

Lemma follow_reachable (fs : os.FS) (todo cur k : list string) :
  reachable fs cur -> os.follow fs cur todo = inr k -> reachable fs k.
Proof.
  revert cur. induction todo as [|e todo IH]; intros cur Hr H; simpl in H.
  - injection H as <-. exact Hr.
  - destruct (os.node_at fs cur) as [[|]|] eqn:E; try discriminate.
    apply (IH _ (reachable_step fs cur e E Hr) H).
Qed.

Lemma start_reachable (fs : os.FS) (name : string) : reachable fs (os.start name).
Proof.
  unfold os.start. intros a b E Hb. destruct (filepath.rooted name).
  - destruct a as [|x a]; [apply node_at_anchor; reflexivity|].
    simpl in E. injection E as _ E. symmetry in E.
    apply app_eq_nil in E as [_ ->]. congruence.
  - symmetry in E. apply app_eq_nil in E as [_ ->]. congruence.
Qed.

(** Every place on the way is a directory, up to the place the path
    names. *)
Lemma follow_visited (fs : os.FS) (todo cur k : list string) :
  os.follow fs cur todo = inr k ->
  forall q, In q (os.visited cur todo) -> os.node_at fs q = Some os.Directory \/ q = k.
Proof.
  revert cur. induction todo as [|e todo IH]; intros cur H q Hq; simpl in *.
  - destruct Hq.
  - destruct (os.node_at fs cur) as [[|]|] eqn:E; try discriminate.
    destruct Hq as [<-|Hq]; [|apply (IH _ H q Hq)].
    destruct todo as [|e' todo]; simpl in H.
    + right. congruence.
    + left. destruct (os.node_at fs (os.step cur e)) as [[|]|]; try discriminate.
      reflexivity.
Qed.

Lemma resolve_inr (fs : os.FS) (name : string) (r : option os.node) :
  os.resolve fs name = inr r ->
  String.eqb name "" = false
  /\ os.follow fs (os.start name) (filepath.elements name) = inr (filepath.key name)
  /\ r = os.node_at fs (filepath.key name)
  /\ reachable fs (filepath.key name).
Proof.
  unfold os.resolve. destruct (String.eqb name ""); [discriminate|].
  destruct (os.follow fs (os.start name) (filepath.elements name)) as [e|k] eqn:F;
    [discriminate|].
  intros H. injection H as <-.
  pose proof (follow_steps _ _ _ _ F) as Hk. rewrite steps_key in Hk. subst k.
  split; [reflexivity|]. split; [reflexivity|]. split; [reflexivity|].
  apply (follow_reachable fs _ _ _ (start_reachable fs name) F).
Qed.

(** What a path names in a file system that has kept the directories. *)
Lemma resolve_keeps (fs fs' : os.FS) (name : string) (r : option os.node) :
  keepsDirs fs fs' -> os.resolve fs name = inr r ->
  os.resolve fs' name = inr (os.node_at fs' (filepath.key name)).
Proof.
  intros Hk H. apply resolve_inr in H as (Hne & F & _ & _).
  unfold os.resolve. rewrite Hne, (follow_keeps fs fs' _ _ _ Hk F). reflexivity.
Qed.

(** Changing the node a path names does not change the way to it. *)
Lemma resolve_insert (fs : os.FS) (name : string) (n : os.node) (r : option os.node) :
  os.resolve fs name = inr r -> r <> Some os.Directory ->
  os.resolve (<[filepath.key name := n]> fs) name = inr (Some n).
Proof.
  intros H Hr. pose proof (resolve_inr _ _ _ H) as (_ & _ & -> & _).
  rewrite (resolve_keeps fs _ name _ (keepsDirs_insert fs _ n Hr) H).
  rewrite node_at_insert_eq; [reflexivity|]. apply (node_at_not_directory fs), Hr.
Qed.

(** Writing a file does not disturb the reading of another path. *)
Lemma resolve_insert_other (fs : os.FS) (name other : string) (n : os.node)
  (r r' : option os.node) :
  os.resolve fs name = inr r ->
  os.resolve fs other = inr r' -> r' <> Some os.Directory ->
  filepath.key name <> filepath.key other ->
  os.resolve (<[filepath.key other := n]> fs) name = inr r.
Proof.
  intros H H' Hr' Hne.
  pose proof (resolve_inr _ _ _ H) as (_ & _ & -> & _).
  pose proof (resolve_inr _ _ _ H') as (_ & _ & -> & _).
  rewrite (resolve_keeps fs _ name _ (keepsDirs_insert fs _ n Hr') H).
  rewrite node_at_insert_ne by exact Hne. reflexivity.
Qed.

(** A file that has been written can be opened and holds what was
    written. *)
Lemma WriteFile_Open (fs fs' : os.FS) (name data : string) (perm : N) :
  os.WriteFile fs name data perm = (None, fs') ->
  exists p, os.Open fs' name = inr (os.Regular p data).
Proof.
  unfold os.WriteFile, os.OpenFile, os.Open, os.Stat.
  destruct (os.resolve fs name) as [e|[[|p old]|]] eqn:R; try discriminate.
  - intros H. injection H as <-. exists p.
    unfold os.write. rewrite lookup_insert_eq, insert_insert_eq, sapp_nil_l.
    rewrite (resolve_insert fs name _ _ R); [reflexivity|discriminate].
  - intros H. injection H as <-. exists perm.
    unfold os.write. rewrite lookup_insert_eq, insert_insert_eq, sapp_nil_l.
    rewrite (resolve_insert fs name _ _ R); [reflexivity|discriminate].
Qed.


(** *** Directories *)

Lemma between_cons (done : list string) (e : string) (todo q : list string) :
  between done (e :: todo) q <-> q = done ++ [e] \/ between (done ++ [e]) todo q.
Proof.
  split.
  - intros (a & b & E & Ha & ->). destruct a as [|x a]; [congruence|].
    simpl in E. injection E as <- ->.
    destruct a as [|y a]; [left; reflexivity|].
    right. exists (y :: a), b. repeat split; [discriminate|].
    rewrite <- app_assoc. reflexivity.
  - intros [->|(a & b & -> & Ha & ->)].
    + exists [e], todo. repeat split. discriminate.
    + exists (e :: a), b. repeat split; [discriminate|].
      rewrite <- app_assoc. reflexivity.
Qed.

Lemma between_longer (done todo q : list string) :
  between done todo q -> (length done < length q)%nat.
Proof.
  intros (a & b & _ & Ha & ->). rewrite length_app.
  destruct a; [congruence|simpl; lia].
Qed.

Lemma between_nil (k q : list string) :
  between [] k q <-> q `prefix_of` k /\ q <> [].
Proof.
  split.
  - intros (a & b & -> & Ha & ->). split; [exists b; reflexivity|exact Ha].
  - intros [[b ->] Hq]. exists q, b. auto.
Qed.


Lemma appends_cons (cur : list string) (e : string) (todo : list string) :
  appends cur (e :: todo) -> os.step cur e = cur ++ [e] /\ appends (cur ++ [e]) todo.
Proof.
  intros H. split.
  - specialize (H [] e todo eq_refl). rewrite app_nil_r in H. exact H.
  - intros a e' b ->. specialize (H (e :: a) e' b eq_refl).
    rewrite <- !app_assoc. exact H.
Qed.

Lemma appends_real (cur body : list string) : Forall real body -> appends cur body.
Proof.
  intros H a e b ->. apply Forall_app in H as [_ H].
  inversion H as [|? ? (H1 & H2 & H3 & _) _]; subst.
  unfold os.step. apply String.eqb_neq in H1, H2, H3. rewrite H1, H2, H3.
  simpl. rewrite app_assoc. reflexivity.
Qed.

Lemma appends_normal (ds body : list string) :
  Forall (eq "..") ds -> Forall real body -> appends [] (ds ++ body).
Proof.
  intros Hd Hb a e b E. simpl.
  assert (Hreal : real e -> os.step a e = a ++ [e]).
  { intros (H1 & H2 & H3 & _). unfold os.step.
    apply String.eqb_neq in H1, H2, H3. rewrite H1, H2, H3. reflexivity. }
  apply List.app_eq_app in E as [l [[-> E]|[-> ->]]].
  - destruct l as [|x l].
    + simpl in E. subst body. inversion Hb; subst. apply Hreal. assumption.
    + simpl in E. injection E as <- ->.
      apply Forall_app in Hd as [Ha Hx]. inversion Hx as [|? ? <- _]; subst.
      unfold os.step. simpl. apply parent_dots, Ha.
  - apply Forall_app in Hb as [_ Hb]. inversion Hb; subst. apply Hreal. assumption.
Qed.

Lemma visited_appends (todo cur : list string) :
  appends cur todo -> forall q, In q (os.visited cur todo) <-> between cur todo q.
Proof.
  revert cur. induction todo as [|e todo IH]; intros cur H q.
  - simpl. split; [intros []|]. intros (a & b & E & Ha & _).
    symmetry in E. apply app_eq_nil in E as [-> _]. congruence.
  - apply appends_cons in H as [He H]. simpl. rewrite He, between_cons, (IH _ H).
    split; intros [E|E]; auto.
Qed.

Lemma follow_appends (fs : os.FS) (todo cur : list string) :
  appends cur todo ->
  (forall a b, todo = a ++ b -> b <> [] -> os.node_at fs (cur ++ a) = Some os.Directory) ->
  os.follow fs cur todo = inr (cur ++ todo).
Proof.
  revert cur. induction todo as [|e todo IH]; intros cur H Hd; simpl.
  - rewrite app_nil_r. reflexivity.
  - apply appends_cons in H as [He H].
    pose proof (Hd [] (e :: todo) eq_refl) as H0. rewrite app_nil_r in H0.
    rewrite H0 by discriminate. rewrite He, IH.
    + rewrite <- app_assoc. reflexivity.
    + exact H.
    + intros a b -> Hb. rewrite <- app_assoc. apply (Hd (e :: a) b); auto.
Qed.

(** [MkdirAll] never removes or replaces a node. *)
Lemma mkdirAll_keeps (todo cur : list string) (fs fs' : os.FS) (r : option os.Errno) :
  os.mkdirAll fs cur todo = (r, fs') ->
  forall q n, os.node_at fs q = Some n -> os.node_at fs' q = Some n.
Proof.
  revert cur fs. induction todo as [|e todo IH]; intros cur fs H q n Hn; simpl in H.
  - injection H as _ <-. exact Hn.
  - destruct (os.node_at fs (os.step cur e)) as [[|p d]|] eqn:E.
    + apply (IH _ _ H q n Hn).
    + injection H as _ <-. exact Hn.
    + apply (IH _ _ H q n). rewrite node_at_insert_ne; [exact Hn|].
      intros ->. congruence.
Qed.

(** [MkdirAll], whether it succeeds or not, only creates directories on
    the way, where there was nothing. *)
Lemma mkdirAll_frame (todo cur : list string) (fs fs' : os.FS) (r : option os.Errno) :
  os.mkdirAll fs cur todo = (r, fs') ->
  forall q, fs' !! q <> fs !! q -> In q (os.visited cur todo) /\ created fs fs' q.
Proof.
  revert cur fs. induction todo as [|e todo IH]; intros cur fs H q Hq; simpl in H.
  - injection H as _ <-. congruence.
  - simpl. destruct (os.node_at fs (os.step cur e)) as [[|p d]|] eqn:E.
    + destruct (IH _ _ H q Hq) as [Hb Hc]. auto.
    + injection H as _ <-. congruence.
    + destruct (decide (q = os.step cur e)) as [->|Hne].
      * split; [left; reflexivity|]. split; [exact E|].
        apply node_at_None in E as [Ha _].
        pose proof (mkdirAll_keeps _ _ _ _ _ H (os.step cur e) os.Directory
                      (node_at_insert_eq fs _ _ Ha)) as Hk.
        unfold os.node_at in Hk. rewrite Ha in Hk. exact Hk.
      * assert (Hq' : fs' !! q <> <[os.step cur e := os.Directory]> fs !! q)
          by (rewrite lookup_insert_ne by congruence; exact Hq).
        destruct (IH _ _ H q Hq') as [Hb [Hn Hd]].
        split; [right; exact Hb|]. split; [|exact Hd].
        rewrite node_at_insert_ne in Hn by exact Hne. exact Hn.
Qed.

(** After a successful [MkdirAll] every place on the way is a
    directory. *)
Lemma mkdirAll_post (todo cur : list string) (fs fs' : os.FS) :
  os.mkdirAll fs cur todo = (None, fs') ->
  forall q, In q (os.visited cur todo) -> os.node_at fs' q = Some os.Directory.
Proof.
  revert cur fs. induction todo as [|e todo IH]; intros cur fs H q Hq; simpl in *.
  - destruct Hq.
  - destruct (os.node_at fs (os.step cur e)) as [[|p d]|] eqn:E; [|discriminate|].
    + destruct Hq as [<-|Hq]; [|apply (IH _ _ H q Hq)].
      apply (mkdirAll_keeps _ _ _ _ _ H _ _ E).
    + destruct Hq as [<-|Hq]; [|apply (IH _ _ H q Hq)].
      apply (mkdirAll_keeps _ _ _ _ _ H). apply node_at_insert_eq.
      apply node_at_None in E. apply E.
Qed.

Lemma mkdirAll_succeeds (todo cur : list string) (fs : os.FS) :
  (forall q p d, In q (os.visited cur todo) -> os.node_at fs q <> Some (os.Regular p d)) ->
  exists fs', os.mkdirAll fs cur todo = (None, fs').
Proof.
  revert cur fs. induction todo as [|e todo IH]; intros cur fs H; simpl.
  - exists fs. reflexivity.
  - destruct (os.node_at fs (os.step cur e)) as [[|p d]|] eqn:E.
    + apply IH. intros q p d Hq. apply H. right. exact Hq.
    + exfalso. apply (H (os.step cur e) p d); [left; reflexivity|exact E].
    + apply IH. intros q p d Hq.
      destruct (decide (q = os.step cur e)) as [->|Hne].
      * rewrite node_at_insert_eq; [discriminate|]. apply node_at_None in E. apply E.
      * rewrite node_at_insert_ne by exact Hne. apply H. right. exact Hq.
Qed.

Lemma MkdirAll_keeps (fs : os.FS) (name : string) (q : list string) (n : os.node) :
  os.node_at fs q = Some n -> os.node_at (os.MkdirAll fs name).2 q = Some n.
Proof.
  unfold os.MkdirAll. destruct (String.eqb name ""); [auto|].
  destruct (os.mkdirAll fs (os.start name) (filepath.elements name)) as [r fs'] eqn:E.
  apply (mkdirAll_keeps _ _ _ _ _ E).
Qed.

Lemma MkdirAll_frame (fs : os.FS) (name : string) (q : list string) :
  (os.MkdirAll fs name).2 !! q <> fs !! q ->
  In q (os.visited (os.start name) (filepath.elements name))
  /\ created fs (os.MkdirAll fs name).2 q.
Proof.
  unfold os.MkdirAll. destruct (String.eqb name ""); [cbn; congruence|].
  destruct (os.mkdirAll fs (os.start name) (filepath.elements name)) as [r fs'] eqn:E.
  cbn [snd]. apply (mkdirAll_frame _ _ _ _ _ E).
Qed.

(** *** Cleaned paths

    For a cleaned path the kernel goes down one element after the other:
    the places on the way are the prefixes of the path. *)

Lemma clean_shape (k : list string) :
  normal k ->
  (k = [] /\ os.start (filepath.render k) = []
   /\ filepath.elements (filepath.render k) = ["."])
  \/ (exists body, k = "" :: body /\ Forall real body
        /\ os.start (filepath.render k) = [""]
        /\ filepath.elements (filepath.render k)
           = "" :: match body with [] => [""] | _ => body end)
  \/ (exists ds body, k = ds ++ body /\ k <> [] /\ Forall (eq "..") ds
        /\ Forall real body /\ os.start (filepath.render k) = []
        /\ filepath.elements (filepath.render k) = k).
Proof.
  intros Hn. pose proof (normal_slash_free _ Hn) as Hs.
  destruct Hn as [(body & -> & Hb)|(ds & body & -> & Hd & Hb)].
  - right. left. exists body. split; [reflexivity|]. split; [exact Hb|].
    destruct body as [|b body]; [split; reflexivity|].
    split; [reflexivity|]. rewrite render_concat by discriminate.
    apply elements_concat; [discriminate|exact Hs].
  - destruct (decide (ds ++ body = [])) as [E|Hne]; [left; rewrite E; auto|].
    right. right. exists ds, body. split; [reflexivity|]. split; [exact Hne|].
    split; [exact Hd|]. split; [exact Hb|].
    assert (Hroot : ds ++ body <> [""]).
    { intros E. destruct ds as [|d ds].
      - simpl in E. subst body. inversion Hb as [|? ? (H & _) _]. congruence.
      - inversion Hd as [|? ? <- _]. discriminate E. }
    rewrite render_concat by assumption. split.
    + unfold os.start.
      pose proof (rooted_concat (ds ++ body) "") as Hr.
      rewrite sapp_nil_r in Hr. rewrite Hr; [|right; exists ds, body; auto|exact Hne|congruence].
      destruct ds as [|d ds].
      * destruct body as [|b body]; [reflexivity|].
        inversion Hb as [|? ? (H & _) _]; subst. simpl.
        apply String.eqb_neq in H. rewrite H. reflexivity.
      * inversion Hd as [|? ? <- _]. reflexivity.
    + apply elements_concat; assumption.
Qed.

Lemma clean_visited (k : list string) :
  normal k ->
  forall q, In q (os.visited (os.start (filepath.render k))
                    (filepath.elements (filepath.render k))) ->
            q `prefix_of` k.
Proof.
  intros Hn q.
  destruct (clean_shape k Hn) as [(-> & -> & ->)|[(body & -> & Hb & -> & ->)
                                   |(ds & body & -> & Hne & Hd & Hb & -> & ->)]].
  - intros [<-|[]]. reflexivity.
  - cbn [os.visited]. change (os.step [""] "") with [""].
    intros [<-|H]; [exists body; reflexivity|].
    destruct body as [|b body].
    + destruct H as [<-|[]]. reflexivity.
    + apply (visited_appends _ _ (appends_real [""] _ Hb)) in H
        as (a & c & -> & _ & ->).
      exists c. reflexivity.
  - intros H. apply (visited_appends _ _ (appends_normal _ _ Hd Hb)) in H.
    apply between_nil in H. apply H.
Qed.

Lemma clean_visited_prefix (k : list string) :
  normal k ->
  forall q, q `prefix_of` k -> q <> [] ->
            In q (os.visited (os.start (filepath.render k))
                    (filepath.elements (filepath.render k))).
Proof.
  intros Hn q Hq Hq0.
  destruct (clean_shape k Hn) as [(-> & -> & ->)|[(body & -> & Hb & -> & ->)
                                   |(ds & body & -> & Hne & Hd & Hb & -> & ->)]].
  - apply prefix_nil_inv in Hq. congruence.
  - cbn [os.visited]. change (os.step [""] "") with [""].
    destruct Hq as [c Hc]. destruct q as [|x q]; [congruence|].
    simpl in Hc. injection Hc as <- ->.
    destruct q as [|y q]; [left; reflexivity|]. right.
    apply (visited_appends _ _ (appends_real [""] _ Hb)).
    exists (y :: q), c. repeat split. discriminate.
  - apply (visited_appends _ _ (appends_normal _ _ Hd Hb)).
    apply between_nil. auto.
Qed.

(** A cleaned path names what is at its key, when the way is open. *)
Lemma resolve_clean (fs : os.FS) (k : list string) :
  normal k -> reachable fs k ->
  os.resolve fs (filepath.render k) = inr (os.node_at fs k).
Proof.
  intros Hn Hr. unfold os.resolve. rewrite render_nonempty by exact Hn.
  destruct (clean_shape k Hn) as [(-> & -> & ->)|[(body & -> & Hb & -> & ->)
                                   |(ds & body & -> & Hne & Hd & Hb & -> & ->)]].
  - reflexivity.
  - cbn [os.follow]. change (os.node_at fs [""]) with (Some os.Directory).
    cbv iota. change (os.step [""] "") with [""].
    destruct body as [|b body]; [reflexivity|].
    rewrite (follow_appends fs _ _ (appends_real [""] _ Hb)); [reflexivity|].
    intros a c E Hc. apply (Hr ("" :: a) c); [rewrite E; reflexivity|exact Hc].
  - rewrite (follow_appends fs _ _ (appends_normal _ _ Hd Hb)); [reflexivity|].
    intros a c E Hc. apply (Hr a c); assumption.
Qed.

(** [MkdirAll] on a cleaned path. *)
Lemma MkdirAll_clean_succeeds (fs : os.FS) (k : list string) :
  normal k ->
  (forall q p d, q `prefix_of` k -> os.node_at fs q <> Some (os.Regular p d)) ->
  exists fs', os.MkdirAll fs (filepath.render k) = (None, fs').
Proof.
  intros Hn H. unfold os.MkdirAll. rewrite render_nonempty by exact Hn.
  apply mkdirAll_succeeds. intros q p d Hq. apply H, (clean_visited k Hn q Hq).
Qed.

Lemma MkdirAll_clean_post (fs fs' : os.FS) (k : list string) :
  normal k -> os.MkdirAll fs (filepath.render k) = (None, fs') ->
  (forall q, q `prefix_of` k -> os.node_at fs' q = Some os.Directory)
  /\ (forall q, ~ q `prefix_of` k -> fs' !! q = fs !! q)
  /\ (forall q n, os.node_at fs q = Some n -> os.node_at fs' q = Some n).
Proof.
  intros Hn H. split; [|split].
  - intros q Hq. destruct (decide (q = [])) as [->|Hq0];
      [apply node_at_anchor; reflexivity|].
    unfold os.MkdirAll in H. rewrite render_nonempty in H by exact Hn.
    apply (mkdirAll_post _ _ _ _ H), clean_visited_prefix; assumption.
  - intros q Hq. destruct (decide (fs' !! q = fs !! q)) as [E|E]; [exact E|].
    exfalso. apply Hq.
    pose proof (MkdirAll_frame fs (filepath.render k) q) as Hf.
    rewrite H in Hf. destruct (Hf E) as [Hv _]. apply (clean_visited k Hn q Hv).
  - intros q n Hq. pose proof (MkdirAll_keeps fs (filepath.render k) q n Hq) as Hk.
    rewrite H in Hk. exact Hk.
Qed.

(** ** config.go *)

(** C9. [Update] keeps the stored version when the version argument is
    empty and replaces it otherwise, always overwrites the install flag and
    the install path, and then saves the whole record: the error and the
    file system are those of [Save] on the updated record, and the
    receiver is the updated record whether or not the save succeeds. *)
Theorem Update_merges_then_saves :
  forall (c : Config) (version : string) (install : bool) (installPath : string)
         (fs : os.FS),
    let c' := {| Version := match version with
                            | EmptyString => Version c
                            | _ => version
                            end;
                 Install := install;
                 InstallPath := installPath;
                 configPath := configPath c |} in
    Update c version install installPath fs = ((Save c' fs).1, c', (Save c' fs).2).
Proof.
  intros c version install installPath fs c'. unfold Update.
  assert (Hc : setInstallPath installPath
                 (setInstall install
                    (if negb (String.eqb version "") then setVersion version c else c))
               = c').
  { subst c'. destruct version; reflexivity. }
  rewrite Hc. destruct (Save c' fs) as [err fs']. reflexivity.
Qed.

(** ** downloader.go: version resolution *)

(** C7. With a non-empty explicit version, [GetVersion] returns the
    version without one leading "v" and leaves the world as it is: no
    request is sent.  "v1.7.0" and "1.7.0" both give "1.7.0".  With the
    empty version it is [GetLatestVersion], which sends the request to the
    checkpoint service. *)
Theorem GetVersion_explicit_or_latest :
  forall (env : Env) (d : Downloader) (w : World),
    GetVersion env d w =
      match targetVer d with
      | EmptyString => GetLatestVersion env d w
      | String c r => (inr (if Ascii.eqb c "v" then r else String c r), w)
      end
    /\ (targetVer d = "v1.7.0" \/ targetVer d = "1.7.0" ->
        GetVersion env d w = (inr "1.7.0", w))
    /\ trace (GetLatestVersion env d w).2 = trace w ++ [HttpGet terraformCheckURL].
Proof.
  intros env d w. split; [|split].
  - unfold GetVersion. destruct (targetVer d) as [|c r] eqn:Hv; [reflexivity|].
    simpl. rewrite TrimPrefix_v. reflexivity.
  - unfold GetVersion. intros [-> | ->]; reflexivity.
  - unfold GetLatestVersion, Get. simpl.
    destruct (httpGet env terraformCheckURL) as [resp|]; [|reflexivity].
    destruct (negb (StatusCode resp =? StatusOK)%Z); [reflexivity|].
    destruct (jsonDecode env (Body resp)) as [check|]; [|reflexivity].
    destruct (String.eqb (CurrentVersion check) ""); reflexivity.
Qed.

Lemma GetVersion_explicit_or_latest_witness :
  GetVersion Sample.env (mkDownloader "linux" "amd64" "v1.7.0" false) Sample.start
  = (inr "1.7.0", Sample.start).
Proof.
  apply (GetVersion_explicit_or_latest Sample.env
           (mkDownloader "linux" "amd64" "v1.7.0" false) Sample.start).
  left. reflexivity.
Defined.

(** ** main.go: the decision to skip *)

(** C2. In an unattended run whose stored version is the resolved one,
    with neither the force flag nor the install flag set, the test of
    [main] holds, and when it holds the run ends at once: exit status 0,
    one line printed, the file system untouched, no download and no
    install.  With the force flag set the test fails whatever the
    versions are, and the run goes on to the download. *)
Theorem upToDate_skips_unless_forced :
  (forall v : string, upToDate true v v false false = true)
  /\ (forall (autoUpdate : bool) (configVersion ver : string) (installFlag : bool),
        upToDate autoUpdate configVersion ver installFlag true = false)
  /\ (forall env o autoUpdate config installFlag installPath downloader ver w,
        upToDate autoUpdate (Version config) ver installFlag (forceFlag o) = true ->
        mainWith env o autoUpdate config installFlag installPath downloader ver w
        = (0%Z, mkWorld (fs w)
                  (trace w ++ [Printf "Already up to date (version %s)\n" [Str ver]])))
  /\ (forall env o autoUpdate config installFlag installPath downloader ver w,
        forceFlag o = true ->
        mainWith env o autoUpdate config installFlag installPath downloader ver w
        = proceed env o config installFlag installPath downloader ver w).
Proof.
  repeat split.
  - intros v. unfold upToDate. rewrite String.eqb_refl. reflexivity.
  - intros autoUpdate configVersion ver installFlag. unfold upToDate.
    rewrite !andb_false_r. reflexivity.
  - intros env o autoUpdate config installFlag installPath downloader ver w H.
    unfold mainWith. rewrite H. reflexivity.
  - intros env o autoUpdate config installFlag installPath downloader ver w H.
    unfold mainWith, upToDate. rewrite H, !andb_false_r. reflexivity.
Qed.

Lemma upToDate_skips_unless_forced_witness :
  mainWith Sample.env defaults true (mkConfig "1.7.0" false "" "/home/u/.tfdown.conf")
    false "" (mkDownloader "linux" "amd64" "" false) "1.7.0" Sample.start
  = (0%Z, mkWorld Sample.disk [Printf "Already up to date (version %s)\n" [Str "1.7.0"]])
  /\ mainWith Sample.env (Parse [flag_f true]) false
       (mkConfig "1.7.0" false "" "/home/u/.tfdown.conf")
       false "" (mkDownloader "linux" "amd64" "" false) "1.7.0" Sample.start
     = proceed Sample.env (Parse [flag_f true])
         (mkConfig "1.7.0" false "" "/home/u/.tfdown.conf")
         false "" (mkDownloader "linux" "amd64" "" false) "1.7.0" Sample.start.
Proof.
  destruct upToDate_skips_unless_forced as (_ & _ & Hskip & Hforce).
  split.
  - apply (Hskip Sample.env defaults true
             (mkConfig "1.7.0" false "" "/home/u/.tfdown.conf")
             false "" (mkDownloader "linux" "amd64" "" false) "1.7.0" Sample.start).
    reflexivity.
  - apply Hforce. reflexivity.
Defined.

(** ** downloader.go: the download *)

Lemma GetLatestVersion_fs (env : Env) (d : Downloader) (w : World) :
  fs (GetLatestVersion env d w).2 = fs w.
Proof.
  unfold GetLatestVersion, Get.
  destruct (httpGet env terraformCheckURL) as [resp|]; [|reflexivity].
  destruct (negb (StatusCode resp =? StatusOK)%Z); [reflexivity|].
  destruct (jsonDecode env (Body resp)) as [check|]; [|reflexivity].
  destruct (String.eqb (CurrentVersion check) ""); reflexivity.
Qed.

Lemma GetLatestVersion_other_error (env : Env) (d : Downloader) (w w' : World)
  (code : Z) :
  GetLatestVersion env d w <> (inl (ErrorfD "error downloading: status %d" code), w').
Proof.
  unfold GetLatestVersion, Get.
  destruct (httpGet env terraformCheckURL) as [resp|]; [|discriminate].
  destruct (negb (StatusCode resp =? StatusOK)%Z); [discriminate|].
  destruct (jsonDecode env (Body resp)) as [check|]; [|discriminate].
  destruct (String.eqb (CurrentVersion check) ""); discriminate.
Qed.

Lemma downloadVersion_status_fs (env : Env) (d : Downloader) (ver : string)
  (w w' : World) (code : Z) :
  downloadVersion env d ver w = (inl (ErrorfD "error downloading: status %d" code), w') ->
  fs w' = fs w.
Proof.
  unfold downloadVersion, Get.
  set (url := terraformDownloadURL _ _ _).
  set (w1 := if negb (quiet d) then _ else _).
  assert (Hfs : fs w1 = fs w) by (subst w1; destruct (quiet d); reflexivity).
  destruct (httpGet env url) as [resp|]; [|discriminate].
  destruct (negb (StatusCode resp =? StatusOK)%Z).
  - intros H. injection H as _ <-. exact Hfs.
  - destruct (os.Create _ _) as [[err|out] fs']; [discriminate|].
    destruct (BodyFails resp); discriminate.
Qed.

(** C5, as the code has it.  When the GET of the archive is answered with
    a status other than 200, the download returns the status error right
    after the request, and the file system is as it was: the destination
    file is not created.  Whenever [Download] returns the status error, the
    file system is unchanged. *)
Theorem Download_status_error_creates_no_file :
  forall (env : Env) (d : Downloader) (w : World),
    (forall (ver : string) (resp : Response),
        httpGet env (terraformDownloadURL (strings.TrimPrefix ver "v")
                       (targetOS d) (targetArch d)) = Some resp ->
        StatusCode resp <> 200%Z ->
        exists w',
          downloadVersion env d ver w
          = (inl (ErrorfD "error downloading: status %d" (StatusCode resp)), w')
          /\ fs w' = fs w
          /\ last (trace w') = Some (HttpGet (terraformDownloadURL
                       (strings.TrimPrefix ver "v") (targetOS d) (targetArch d))))
    /\ (forall (code : Z) (w' : World),
          Download env d w = (inl (ErrorfD "error downloading: status %d" code), w') ->
          fs w' = fs w).
Proof.
  intros env d w. split.
  - intros ver resp Hget Hcode. unfold downloadVersion, Get. rewrite Hget.
    assert (Hne : (StatusCode resp =? StatusOK)%Z = false)
      by (apply Z.eqb_neq; exact Hcode).
    rewrite Hne. simpl. eexists. split; [reflexivity|]. split.
    + destruct (quiet d); reflexivity.
    + simpl. apply last_snoc.
  - intros code w' H. unfold Download in H.
    destruct (String.eqb (targetVer d) "").
    + pose proof (GetLatestVersion_fs env d w) as Hfs.
      destruct (GetLatestVersion env d w) as [[err|latest] w1] eqn:E; simpl in Hfs.
      * exfalso. apply (GetLatestVersion_other_error env d w w' code).
        rewrite E. exact H.
      * rewrite <- Hfs. eapply downloadVersion_status_fs. exact H.
    + eapply downloadVersion_status_fs. exact H.
Qed.

Lemma Download_status_error_creates_no_file_witness :
  exists w',
    downloadVersion Sample.env (mkDownloader "linux" "amd64" "9.9.9" true) "9.9.9"
      Sample.start
    = (inl (ErrorfD "error downloading: status %d" 404), w')
    /\ fs w' = Sample.disk
    /\ last (trace w') = Some (HttpGet (terraformDownloadURL "9.9.9" "linux" "amd64")).
Proof.
  apply (proj1 (Download_status_error_creates_no_file Sample.env
                  (mkDownloader "linux" "amd64" "9.9.9" true) Sample.start)
           "9.9.9" (mkResponse 404 0 "" false)).
  - reflexivity.
  - discriminate.
Defined.

(** C5, as the specification has it, fails: the server answers 404, the
    download returns the status error, and there is no file under the name
    of the archive afterwards. *)
Lemma Download_404_leaves_no_file :
  httpGet Sample.env (terraformDownloadURL "9.9.9" "linux" "amd64")
  = Some (mkResponse 404 0 "" false)
  /\ (Download Sample.env (mkDownloader "linux" "amd64" "9.9.9" true) Sample.start).1
     = inl (ErrorfD "error downloading: status %d" 404)
  /\ os.Stat (fs (Download Sample.env (mkDownloader "linux" "amd64" "9.9.9" true)
                    Sample.start).2)
       "terraform_9.9.9_linux_amd64.zip"
     = inl os.ENOENT.
Proof. repeat split; evaluate. Qed.

(** ** main.go: the installer *)

(** C10, as the code has it.  When [os.Stat] fails on the install path
    with the not-exist error (ENOENT: an element of the path is missing
    in a directory), [installTerraform] returns its error at once and the
    world is as it was: no temporary directory, no extraction, no file
    written, nothing printed; the install path still does not exist
    afterwards. *)
Theorem installTerraform_missing_install_path :
  forall (env : Env) (zipFile installPath : string) (w : World),
    os.Stat (fs w) installPath = inl os.ENOENT ->
    installTerraform env zipFile installPath w
    = (Some (ErrorfS "install path does not exist: %s" installPath), w)
    /\ os.Stat (fs (installTerraform env zipFile installPath w).2) installPath
       = inl os.ENOENT.
Proof.
  intros env zipFile installPath w H.
  assert (E : installTerraform env zipFile installPath w
              = (Some (ErrorfS "install path does not exist: %s" installPath), w)).
  { unfold installTerraform. rewrite H. reflexivity. }
  split; [exact E|]. rewrite E. exact H.
Qed.

Lemma installTerraform_missing_install_path_witness :
  installTerraform (Sample.withArchive Sample.archive) "tf.zip" "/opt/terraform/bin"
    (mkWorld Sample.diskWithZip [])
  = (Some (ErrorfS "install path does not exist: %s" "/opt/terraform/bin"),
     mkWorld Sample.diskWithZip [])
  /\ os.Stat (fs (installTerraform (Sample.withArchive Sample.archive) "tf.zip"
                    "/opt/terraform/bin" (mkWorld Sample.diskWithZip [])).2)
       "/opt/terraform/bin"
     = inl os.ENOENT.
Proof.
  apply (installTerraform_missing_install_path (Sample.withArchive Sample.archive)
           "tf.zip" "/opt/terraform/bin" (mkWorld Sample.diskWithZip [])).
  evaluate.
Defined.

(** C10, as the specification has it, fails on an install path that does
    not exist because an element on the way to it is a regular file:
    there is nothing at [tf.zip/bin], but [os.Stat] fails with ENOTDIR,
    which [os.IsNotExist] does not take for a not-exist error.  So the
    temporary directory is made, the archive is extracted into it (the
    binary is written there before the deferred [os.RemoveAll] runs),
    both messages are printed, and only the copy fails. *)
Lemma installTerraform_below_a_file :
  os.node_at Sample.diskWithZip (filepath.key "tf.zip/bin") = None
  /\ os.Stat Sample.diskWithZip "tf.zip/bin" = inl os.ENOTDIR
  /\ os.IsNotExist os.ENOTDIR = false
  /\ os.MkdirTemp Sample.diskWithZip "/tmp" "tfdown-" ["1234"]
     = (inr "/tmp/tfdown-1234",
        <[ [""; "tmp"; "tfdown-1234"] := os.Directory ]> Sample.diskWithZip)
  /\ os.ReadFile
       (fs (installFrom (Sample.withArchive Sample.archive) "tf.zip" "tf.zip/bin"
              "/tmp/tfdown-1234"
              (mkWorld (<[ [""; "tmp"; "tfdown-1234"] := os.Directory ]>
                          Sample.diskWithZip) [])).2)
       "/tmp/tfdown-1234/terraform"
     = inr "ELF"
  /\ installTerraform (Sample.withArchive Sample.archive) "tf.zip" "tf.zip/bin"
       (mkWorld Sample.diskWithZip [])
     = (Some (ErrorfW "error copying binary: %w" (PathError os.ENOTDIR)),
        mkWorld Sample.diskWithZip
          [ Printf "Extracting %s...\n" [Str "tf.zip"];
            Printf "Installing to %s...\n" [Str "tf.zip/bin/terraform"] ]).
Proof. repeat split; evaluate. Qed.

(** ** downloader.go: extraction *)

Lemma extractFiles_app (destPath : string) (pre rest : list zipFile) (fs : os.FS) :
  extractFiles destPath (pre ++ rest) fs =
  match extractFiles destPath pre fs with
  | (Some err, fs') => (Some err, fs')
  | (None, fs') => extractFiles destPath rest fs'
  end.
Proof.
  revert fs. induction pre as [|f pre IH]; intros fs; simpl; [reflexivity|].
  destruct (extractFile destPath f fs) as [[err|] fs']; [reflexivity|]. apply IH.
Qed.

Lemma extractFiles_illegal (destPath : string) (f : zipFile) (post : list zipFile)
  (fs : os.FS) :
  illegalPath destPath (filepath.Join destPath (Name f)) = true ->
  extractFiles destPath (f :: post) fs
  = (Some (ErrorfS "illegal file path: %s" (filepath.Join destPath (Name f))), fs).
Proof. intros H. simpl. unfold extractFile. rewrite H. reflexivity. Qed.

(** C1. Let the archive hold an entry whose joined path does not start
    with the cleaned destination followed by a separator.  Then [Unzip]
    fails; the file system it leaves is the one the entries before the
    offending one produced, so neither that entry nor any later one is
    written; and unless an earlier entry already failed, the error is the
    illegal-path error for the offending entry. *)
Theorem Unzip_refuses_path_traversal :
  forall (env : Env) (zipPath destPath : string) (fs fs1 : os.FS)
         (pre post : list zipFile) (f : zipFile),
    OpenReader env fs zipPath = inr (pre ++ f :: post) ->
    os.MkdirAll fs destPath = (None, fs1) ->
    illegalPath destPath (filepath.Join destPath (Name f)) = true ->
    Unzip env zipPath destPath fs
    = (Some (match (extractFiles destPath pre fs1).1 with
             | Some err => err
             | None => ErrorfS "illegal file path: %s"
                         (filepath.Join destPath (Name f))
             end),
       (extractFiles destPath pre fs1).2).
Proof.
  intros env zipPath destPath fs fs1 pre post f Hopen Hmk Hbad.
  unfold Unzip. rewrite Hopen, Hmk, extractFiles_app.
  destruct (extractFiles destPath pre fs1) as [[err|] fs2]; cbn [fst snd];
    [reflexivity|].
  apply extractFiles_illegal. exact Hbad.
Qed.

Lemma Unzip_refuses_path_traversal_witness :
  Unzip (Sample.withArchive Sample.evilArchive) "tf.zip" "/tmp/tfdown-1234"
    Sample.diskWithZip
  = (Some (ErrorfS "illegal file path: %s" "/evil"),
     <[ [""; "tmp"; "tfdown-1234"; "README"] := os.Regular 420 "read me" ]>
       (<[ [""; "tmp"; "tfdown-1234"] := os.Directory ]> Sample.diskWithZip)).
Proof.
  rewrite (Unzip_refuses_path_traversal (Sample.withArchive Sample.evilArchive)
             "tf.zip" "/tmp/tfdown-1234" Sample.diskWithZip
             (<[ [""; "tmp"; "tfdown-1234"] := os.Directory ]> Sample.diskWithZip)
             [mkZipFile "README" false 420 (Stored "read me")]
             [mkZipFile "terraform" false 493 (Stored "ELF")]
             (mkZipFile "../../evil" false 493 (Stored "evil"))).
  - evaluate.
  - evaluate.
  - evaluate.
  - evaluate.
Defined.

(** ** main.go: the unattended run *)

(** What an unattended run does, for every environment and every world:
    with the install configured it always goes on to the download,
    whatever the versions are; otherwise it stops when the stored version
    is the latest one. *)
Lemma main_unattended (env : Env) (w : World) :
  main env [] w =
  let config := (Load (NewConfig (UserHomeDir env)) (fs w)).2 in
  let w1 := warn "Warning: Could not load config: %v\n"
              (Load (NewConfig (UserHomeDir env)) (fs w)).1 w in
  let downloader := NewDownloader env "" "" "" false in
  match GetLatestVersion env downloader w1 with
  | (inl err, w2) => (1%Z, emit (Printf "Error getting version: %v\n" [Err err]) w2)
  | (inr ver, w2) =>
      if Install config && negb (String.eqb (InstallPath config) "") then
        proceed env defaults config true (InstallPath config) downloader ver w2
      else if String.eqb (Version config) ver then
        (0%Z, emit (Printf "Already up to date (version %s)\n" [Str ver]) w2)
      else proceed env defaults config false "" downloader ver w2
  end.
Proof.
  unfold main. change (Parse []) with defaults. change (NFlag []) with 0%nat.
  cbn [showHelp showVersion defaults Nat.eqb andb targetOSFlag targetArchFlag
       targetVersion quietMode installFlag installPath].
  destruct (Load (NewConfig (UserHomeDir env)) (fs w)) as [err config].
  cbn [fst snd]. unfold GetVersion.
  change (targetVer (NewDownloader env "" "" "" false)) with "".
  cbn [String.eqb negb].
  destruct (GetLatestVersion env (NewDownloader env "" "" "" false) _)
    as [[e|ver] w2]; [destruct (Install config && _); reflexivity|].
  unfold mainWith, upToDate.
  destruct (Install config && negb (String.eqb (InstallPath config) "")).
  - cbn [forceFlag defaults andb negb]. rewrite andb_false_r. reflexivity.
  - cbn [forceFlag defaults andb negb installFlag installPath].
    rewrite !andb_true_r. reflexivity.
Qed.

(** C3 at the failing input.  The configuration file holds version 1.7.0
    with the install enabled at /usr/bin, the latest release is 1.7.0, and
    the program is run without flags.  The run copies the install settings
    into the install flag before the test, so the test fails: the
    archive is requested (and installed again), and "Already up to date"
    is not printed.  With the install disabled in the same file the run
    prints it and requests no archive. *)
Theorem main_unattended_installed_downloads_again :
  let w := mkWorld Sample.diskInstalled [] in
  let archiveURL := terraformDownloadURL "1.7.0" "linux" "amd64" in
  let upToDateLine := Printf "Already up to date (version %s)\n" [Str "1.7.0"] in
  Load (NewConfig (UserHomeDir Sample.env)) (fs w) = (None, Sample.installed)
  /\ GetVersion Sample.env (NewDownloader Sample.env "" "" "" false) w
     = (inr "1.7.0", emit (HttpGet terraformCheckURL) w)
  /\ (main Sample.env [] w).1 = 0%Z
  /\ In (HttpGet archiveURL) (trace (main Sample.env [] w).2)
  /\ ~ In upToDateLine (trace (main Sample.env [] w).2)
  /\ (let w' := mkWorld (<[ [""; "home"; "u"; ".tfdown.conf"] :=
                              os.Regular 420
                                (saveContent (mkConfig "1.7.0" false "/usr/bin"
                                                "/home/u/.tfdown.conf")) ]>
                           Sample.diskInstalled) [] in
      main Sample.env [] w'
      = (0%Z, mkWorld (fs w') [HttpGet terraformCheckURL; upToDateLine])).
Proof.
  intros w archiveURL upToDateLine.
  split; [evaluate|]. split; [evaluate|]. split; [evaluate|].
  assert (Htrace : trace (main Sample.env [] w).2
                   = [ HttpGet terraformCheckURL; HttpGet terraformCheckURL;
                       Printf "Downloading Terraform %s for %s/%s...\n"
                         [Str "1.7.0"; Str "linux"; Str "amd64"];
                       Printf "URL: %s\n" [Str archiveURL];
                       HttpGet archiveURL;
                       ProgressBar 3; Println "";
                       Printf "Downloaded to: %s\n"
                         [Str "terraform_1.7.0_linux_amd64.zip"];
                       Printf "Extracting %s...\n"
                         [Str "terraform_1.7.0_linux_amd64.zip"];
                       Printf "Installing to %s...\n" [Str "/usr/bin/terraform"];
                       Printf "Successfully installed Terraform %s to %s\n"
                         [Str "1.7.0"; Str "/usr/bin"] ]) by evaluate.
  rewrite Htrace. split; [|split].
  - simpl. tauto.
  - intros H. repeat (destruct H as [H|H]; [discriminate H|]). exact H.
  - intros w'. evaluate.
Qed.

(** ** config.go: loading *)

Lemma scan_short_lines (ls : list string) :
  Forall (fun l => (Z.of_nat (String.length l) < bufio.MaxScanTokenSize)%Z) ls ->
  bufio.scan ls = (map bufio.dropCR ls, false).
Proof.
  induction 1 as [|l ls Hl _ IH]; [reflexivity|].
  simpl. destruct (Z.leb_spec bufio.MaxScanTokenSize (Z.of_nat (String.length l)));
    [lia|].
  rewrite IH. reflexivity.
Qed.

Lemma Load_regular_short (c : Config) (fs : os.FS) (perm : N) (data : string) :
  os.Open fs (configPath c) = inr (os.Regular perm data) ->
  Forall (fun l => (Z.of_nat (String.length l) < bufio.MaxScanTokenSize)%Z)
    (bufio.rawLines data) ->
  Load c fs = (None, fold_left loadLine (map bufio.dropCR (bufio.rawLines data)) c).
Proof.
  intros Hopen Hshort. unfold Load. rewrite Hopen.
  unfold scanFile, bufio.Scan. rewrite scan_short_lines by exact Hshort.
  reflexivity.
Qed.

(** C8, as the code has it.  [Load] on a missing file returns no error and
    leaves the configuration as it is (the zero state of [NewConfig]).  On
    a file whose lines are all shorter than the scanner's 64 KiB token
    limit it returns no error and is the line-by-line fold of [loadLine]
    over all the lines, where a line without "=" changes nothing, a line
    with an unknown key changes nothing, and an "install" line whose value
    is not a boolean sets the install flag to false. *)
Theorem Load_tolerant_on_short_lines :
  (forall (c : Config) (fs : os.FS),
      os.Open fs (configPath c) = inl os.ENOENT -> Load c fs = (None, c))
  /\ (forall (c : Config) (fs : os.FS) (perm : N) (data : string),
        os.Open fs (configPath c) = inr (os.Regular perm data) ->
        Forall (fun l => (Z.of_nat (String.length l) < 65536)%Z) (bufio.rawLines data) ->
        Load c fs
        = (None, fold_left loadLine (map bufio.dropCR (bufio.rawLines data)) c))
  /\ (forall (c : Config) (text : string),
        strings.cut (strings.TrimSpace text) "=" = None -> loadLine c text = c)
  /\ (forall (c : Config) (text k v : string),
        strings.cut (strings.TrimSpace text) "=" = Some (k, v) ->
        strings.TrimSpace k <> "version" ->
        strings.TrimSpace k <> "install" ->
        strings.TrimSpace k <> "install_path" ->
        loadLine c text = c)
  /\ (forall (c : Config) (text k v : string),
        strings.cut (strings.TrimSpace text) "=" = Some (k, v) ->
        strings.HasPrefix (strings.TrimSpace text) "#" = false ->
        strings.TrimSpace k = "install" ->
        strconv.ParseBool (strings.TrimSpace v) = None ->
        loadLine c text = setInstall false c).
Proof.
  split; [|split; [|split; [|split]]].
  - intros c fs H. unfold Load. rewrite H. reflexivity.
  - intros c fs perm data Hopen Hshort. apply (Load_regular_short c fs perm data Hopen).
    exact Hshort.
  - intros c text H. unfold loadLine, strings.SplitN2. rewrite H.
    destruct (_ || _); reflexivity.
  - intros c text k v H Hv Hi Hp. unfold loadLine, strings.SplitN2. rewrite H.
    apply String.eqb_neq in Hv, Hi, Hp. rewrite Hv, Hi, Hp.
    destruct (_ || _); reflexivity.
  - intros c text k v H Hc Hk Hb. unfold loadLine, strings.SplitN2.
    rewrite H, Hc, Hk, Hb.
    destruct (strings.TrimSpace text) as [|x r]; [discriminate H|]. reflexivity.
Qed.

Lemma Load_tolerant_on_short_lines_witness :
  Load (NewConfig (Some "/nowhere")) Sample.disk = (None, NewConfig (Some "/nowhere"))
  /\ Load (NewConfig (Some "/home/u")) Sample.diskInstalled = (None, Sample.installed)
  /\ loadLine Sample.installed "  just some words " = Sample.installed
  /\ loadLine Sample.installed "colour = blue" = Sample.installed
  /\ loadLine Sample.installed "install = maybe" = setInstall false Sample.installed.
Proof.
  destruct Load_tolerant_on_short_lines as (Hnone & Hfile & Hjunk & Hkey & Hbool).
  split; [|split; [|split; [|split]]].
  - apply Hnone. evaluate.
  - rewrite (Hfile (NewConfig (Some "/home/u")) Sample.diskInstalled 420%N
               (saveContent Sample.installed)).
    + evaluate.
    + evaluate.
    + repeat constructor.
  - apply Hjunk. evaluate.
  - apply (Hkey Sample.installed "colour = blue" "colour " " blue").
    + evaluate.
    + discriminate.
    + discriminate.
    + discriminate.
  - apply (Hbool Sample.installed "install = maybe" "install " " maybe").
    + evaluate.
    + evaluate.
    + evaluate.
    + evaluate.
Defined.

(** C8, as the specification has it, fails on a line that does not fit
    the scanner's buffer: a first line of 65536 bytes without "=" is not
    skipped, the load stops there with an error and the version line after
    it is not read.  Without the long line the version is loaded. *)
Lemma Load_aborts_on_long_line :
  let junk := repeatByte (Z.to_nat 65536) "x" in
  let c := NewConfig (Some "/home/u") in
  let file data :=
    <[ [""; "home"; "u"; ".tfdown.conf"] := os.Regular 420 data ]> Sample.disk in
  strings.cut junk "=" = None
  /\ Load c (file (junk +:+ LF +:+ "version=1.7.0" +:+ LF))
     = (Some (ErrorfW "error reading config file: %w" ErrTooLong), c)
  /\ Load c (file ("version=1.7.0" +:+ LF)) = (None, setVersion "1.7.0" c).
Proof. repeat split; evaluate. Qed.


(** ** config.go: saving and loading again *)

Lemma rawLines_saveContent (c : Config) :
  hasByte "010" (Version c) = false ->
  hasByte "010" (InstallPath c) = false ->
  bufio.rawLines (saveContent c)
  = [ "# tfdown configuration file"; "# Last updated: 2026-02-05"; "";
      "version=" +:+ Version c;
      "install=" +:+ strconv.FormatBool (Install c);
      "install_path=" +:+ InstallPath c ].
Proof.
  intros Hv Hp. unfold saveContent. rewrite !sapp_assoc.
  change (bufio.rawLines
            ("# tfdown configuration file" +:+ String "010"
               ("# Last updated: 2026-02-05" +:+ String "010"
                  ("" +:+ String "010"
                     (("version=" +:+ Version c) +:+ String "010"
                        (("install=" +:+ strconv.FormatBool (Install c)) +:+ String "010"
                           (("install_path=" +:+ InstallPath c) +:+ String "010" ""))))))
          = [ "# tfdown configuration file"; "# Last updated: 2026-02-05"; "";
              "version=" +:+ Version c;
              "install=" +:+ strconv.FormatBool (Install c);
              "install_path=" +:+ InstallPath c ]).
  rewrite !rawLines_line; try reflexivity.
  - rewrite hasByte_app, Hp. reflexivity.
  - destruct (Install c); reflexivity.
  - rewrite hasByte_app, Hv. reflexivity.
Qed.

Lemma loadLine_version (c : Config) (v : string) :
  strings.leadingSpace v = None -> strings.trailingSpace v = None ->
  loadLine c ("version=" +:+ v) = setVersion v c.
Proof.
  intros Hl Ht. unfold loadLine.
  rewrite (TrimSpace_bare ("version=" +:+ v)).
  - change (strings.SplitN2 ("version=" +:+ v) "=") with ["version"; v].
    cbv beta iota zeta. rewrite (TrimSpace_bare v Hl Ht). reflexivity.
  - reflexivity.
  - rewrite <- Ht. apply (trailingSpace_after_eq "version" v).
Qed.

Lemma loadLine_install_path (c : Config) (v : string) :
  strings.leadingSpace v = None -> strings.trailingSpace v = None ->
  loadLine c ("install_path=" +:+ v) = setInstallPath v c.
Proof.
  intros Hl Ht. unfold loadLine.
  rewrite (TrimSpace_bare ("install_path=" +:+ v)).
  - change (strings.SplitN2 ("install_path=" +:+ v) "=") with ["install_path"; v].
    cbv beta iota zeta. rewrite (TrimSpace_bare v Hl Ht). reflexivity.
  - reflexivity.
  - rewrite <- Ht. apply (trailingSpace_after_eq "install_path" v).
Qed.

Lemma loadLine_install (c : Config) (b : bool) :
  loadLine c ("install=" +:+ strconv.FormatBool b) = setInstall b c.
Proof. destruct b; reflexivity. Qed.

(** C6, as the code has it.  Let the version and the install path each
    be free of line feeds and of white space at either end, and short
    enough for their lines to fit the scanner's buffer; they may be empty.
    When [Save] succeeds, [Load] from the file it wrote, into any
    configuration bound to the same file, returns no error and gives back
    the saved version, install flag and install path. *)
Theorem Save_Load_round_trip :
  forall (c c0 : Config) (fs : os.FS),
    configPath c0 = configPath c ->
    (Save c fs).1 = None ->
    hasByte "010" (Version c) = false ->
    strings.leadingSpace (Version c) = None ->
    strings.trailingSpace (Version c) = None ->
    (Z.of_nat (String.length ("version=" +:+ Version c)) < 65536)%Z ->
    hasByte "010" (InstallPath c) = false ->
    strings.leadingSpace (InstallPath c) = None ->
    strings.trailingSpace (InstallPath c) = None ->
    (Z.of_nat (String.length ("install_path=" +:+ InstallPath c)) < 65536)%Z ->
    Load c0 (Save c fs).2 = (None, c).
Proof.
  intros c c0 fs Hpath Hsave Hv1 Hv2 Hv3 Hv4 Hp1 Hp2 Hp3 Hp4.
  unfold Save in *.
  destruct (os.WriteFile fs (configPath c) (saveContent c) 420) as [[e|] fs'] eqn:EW;
    [discriminate Hsave|]. cbn [snd].
  apply WriteFile_Open in EW as [p Hopen]. rewrite <- Hpath in Hopen.
  rewrite (Load_regular_short c0 fs' p (saveContent c) Hopen);
    rewrite rawLines_saveContent by assumption.
  - cbn [map fold_left].
    rewrite !dropCR_bare.
    + change (loadLine c0 "# tfdown configuration file") with c0.
      change (loadLine c0 "# Last updated: 2026-02-05") with c0.
      change (loadLine c0 "") with c0.
      rewrite loadLine_version, loadLine_install, loadLine_install_path by assumption.
      destruct c as [v i ip cp], c0 as [v0 i0 ip0 cp0]. simpl in Hpath. subst cp0.
      reflexivity.
    + rewrite <- Hp3. apply (trailingSpace_after_eq "install_path").
    + destruct (Install c); reflexivity.
    + rewrite <- Hv3. apply (trailingSpace_after_eq "version").
    + reflexivity.
    + reflexivity.
    + reflexivity.
  - repeat constructor; try exact Hv4; try exact Hp4.
    destruct (Install c); reflexivity.
Qed.

Lemma Save_Load_round_trip_witness :
  Load (NewConfig (Some "/home/u")) (Save Sample.installed Sample.disk).2
  = (None, Sample.installed).
Proof.
  apply (Save_Load_round_trip Sample.installed (NewConfig (Some "/home/u")) Sample.disk);
    try reflexivity; try evaluate.
Defined.

(** C6, as the specification has it, fails: a version that ends in a
    space is a non-empty printable string, and it comes back without the
    space. *)
Lemma Save_Load_drops_trailing_space :
  let c := mkConfig "1.7.0 " true "/usr/bin" "/home/u/.tfdown.conf" in
  printable (Version c) = true /\ Version c <> ""
  /\ printable (InstallPath c) = true /\ InstallPath c <> ""
  /\ (Save c Sample.disk).1 = None
  /\ Load (NewConfig (Some "/home/u")) (Save c Sample.disk).2
     = (None, mkConfig "1.7.0" true "/usr/bin" "/home/u/.tfdown.conf")
  /\ Load (NewConfig (Some "/home/u")) (Save c Sample.disk).2 <> (None, c).
Proof.
  intros c. split; [reflexivity|]. split; [discriminate|].
  split; [reflexivity|]. split; [discriminate|].
  split; [evaluate|].
  assert (E : Load (NewConfig (Some "/home/u")) (Save c Sample.disk).2
              = (None, mkConfig "1.7.0" true "/usr/bin" "/home/u/.tfdown.conf"))
    by evaluate.
  split; [exact E|]. rewrite E. discriminate.
Qed.


(** ** Extraction of a consistent archive *)

Lemma prefix_removelast (q k : list string) :
  q `prefix_of` k -> q <> k -> q `prefix_of` removelast k.
Proof.
  intros [b ->] Hne.
  destruct (decide (b = [])) as [->|Hb]; [rewrite app_nil_r in Hne; congruence|].
  destruct (exists_last Hb) as (b' & x & ->).
  rewrite app_assoc, removelast_last. exists b'. reflexivity.
Qed.

Lemma removelast_prefix (k : list string) : removelast k `prefix_of` k.
Proof.
  destruct (decide (k = [])) as [->|Hk]; [reflexivity|].
  destruct (exists_last Hk) as (k' & x & ->). rewrite removelast_last.
  exists [x]. reflexivity.
Qed.

Lemma removelast_shorter (k : list string) : k <> [] -> removelast k <> k.
Proof.
  intros Hk. destruct (exists_last Hk) as (k' & x & ->). rewrite removelast_last.
  intros E. apply (f_equal length) in E. rewrite length_app in E. simpl in E. lia.
Qed.

(** What the check of [Unzip] gives for an entry it lets through. *)
Lemma entry_facts (destPath : string) (f : zipFile) :
  String.eqb destPath "" = false ->
  illegalPath destPath (filepath.Join destPath (Name f)) = false ->
  filepath.Join destPath (Name f) = filepath.render (entryPath destPath f)
  /\ String.eqb (filepath.Join destPath (Name f)) "" = false
  /\ (exists rest, rest <> [] /\ entryPath destPath f = filepath.key destPath ++ rest)
  /\ filepath.key (filepath.Dir (filepath.Join destPath (Name f)))
     = removelast (entryPath destPath f).
Proof.
  intros Hd Hl. unfold entryPath.
  assert (EJ : filepath.Join destPath (Name f)
               = filepath.render (filepath.key (destPath +:+ "/" +:+ Name f))).
  { unfold filepath.Join. rewrite Hd. reflexivity. }
  rewrite EJ in *. rewrite key_render by apply key_normal.
  set (kf := filepath.key (destPath +:+ "/" +:+ Name f)) in *.
  assert (Hn : normal kf) by apply key_normal.
  unfold illegalPath, strings.HasPrefix, filepath.Clean in Hl.
  apply negb_false_iff in Hl.
  assert (Hroot : kf <> [""]).
  { intros E. pose proof (key_normal destPath) as Hkd.
    destruct (legal_below _ _ Hkd Hn Hl) as (rest & Hrest & E').
    rewrite E in E', Hl. revert Hl E'.
    generalize (filepath.key destPath). intros [|d kd] Hl E'.
    - discriminate Hl.
    - destruct kd, rest; try discriminate; congruence. }
  split; [reflexivity|]. split; [apply render_nonempty, Hn|].
  split; [apply legal_below; [apply key_normal|exact Hn|exact Hl]|].
  apply key_Dir_render; assumption.
Qed.


Lemma isFilePath_snoc (destPath : string) (es : list zipFile) (f : zipFile)
  (q : list string) :
  isFilePath destPath (es ++ [f]) q
  <-> isFilePath destPath es q \/ (IsDir f = false /\ entryPath destPath f = q).
Proof.
  unfold isFilePath. split.
  - intros (g & Hg & H1 & H2). apply in_app_or in Hg as [Hg|[<-|[]]].
    + left. exists g. auto.
    + right. auto.
  - intros [(g & Hg & H1 & H2)|[H1 H2]].
    + exists g. split; [apply in_or_app; left; exact Hg|auto].
    + exists f. split; [apply in_or_app; right; left; reflexivity|auto].
Qed.

Lemma isDirPath_snoc (destPath : string) (es : list zipFile) (f : zipFile)
  (q : list string) :
  isDirPath destPath (es ++ [f]) q
  <-> isDirPath destPath es q
      \/ (q `prefix_of` entryPath destPath f
          /\ (q <> entryPath destPath f \/ IsDir f = true)).
Proof.
  unfold isDirPath. split.
  - intros (g & Hg & H1 & H2). apply in_app_or in Hg as [Hg|[<-|[]]].
    + left. exists g. auto.
    + right. auto.
  - intros [(g & Hg & H1 & H2)|[H1 H2]].
    + exists g. split; [apply in_or_app; left; exact Hg|auto].
    + exists f. split; [apply in_or_app; right; left; reflexivity|auto].
Qed.

Section Extraction.

Variables (destPath : string) (files : list zipFile) (fs1 : os.FS).

Hypothesis Hdest : String.eqb destPath "" = false.
Hypothesis Hlegal :
  forall f, In f files -> illegalPath destPath (filepath.Join destPath (Name f)) = false.
Hypothesis Hstored :
  forall f, In f files -> IsDir f = false -> exists data, Data f = Stored data.
Hypothesis Hconsistent : consistent destPath files.
Hypothesis Hfree : unobstructed fs1 destPath files.

Lemma earlier_entry (es todo : list zipFile) (f g : zipFile) :
  files = es ++ f :: todo -> In g es ->
  exists i, files !! i = Some g /\ files !! length es = Some f /\ i <> length es.
Proof.
  intros -> Hg. apply list_elem_of_In, list_elem_of_lookup_1 in Hg as [i Hi].
  exists i. split; [apply lookup_app_l_Some, Hi|].
  split; [apply list_lookup_middle; reflexivity|].
  apply lookup_lt_Some in Hi. lia.
Qed.

Lemma current_entry (es todo : list zipFile) (f : zipFile) :
  files = es ++ f :: todo -> In f files.
Proof. intros ->. apply in_or_app. right. left. reflexivity. Qed.

(** No file entry extracted so far is at or above the place of the
    entry that comes next. *)
Lemma not_a_file_path (es todo : list zipFile) (f : zipFile) (q : list string) :
  files = es ++ f :: todo -> q `prefix_of` entryPath destPath f ->
  ~ isFilePath destPath es q.
Proof.
  intros E Hq (g & Hg & Hfile & <-).
  destruct (earlier_entry es todo f g E Hg) as (i & Hi & Hj & Hij).
  exact (Hconsistent i (length es) g f Hi Hj Hij Hfile Hq).
Qed.

(** No directory of the extraction so far is where a file entry goes
    next. *)
Lemma not_a_dir_path (es todo : list zipFile) (f : zipFile) :
  files = es ++ f :: todo -> IsDir f = false ->
  ~ isDirPath destPath es (entryPath destPath f).
Proof.
  intros E Hfile (g & Hg & H1 & H2).
  destruct (earlier_entry es todo f g E Hg) as (i & Hi & Hj & Hij).
  apply (Hconsistent (length es) i f g Hj Hi); auto.
Qed.

Lemma nothing_in_the_way (es todo : list zipFile) (f : zipFile) (fs : os.FS)
  (q : list string) (p : N) (d : string) :
  files = es ++ f :: todo -> extracted fs1 destPath es fs ->
  q `prefix_of` entryPath destPath f ->
  q <> entryPath destPath f \/ IsDir f = true ->
  os.node_at fs q <> Some (os.Regular p d).
Proof.
  intros E (_ & Idir & Iframe) Hq Hd Hreg.
  assert (Hnd : ~ isDirPath destPath es q).
  { intros H. rewrite (Idir q H) in Hreg. discriminate. }
  pose proof (not_a_file_path es todo f q E Hq) as Hnf.
  rewrite (node_at_same _ _ _ (Iframe q Hnf Hnd)) in Hreg.
  apply (proj1 Hfree q p d); [|exact Hreg].
  exists f. split; [exact (current_entry _ _ _ E)|]. auto.
Qed.

Lemma place_not_directory (es todo : list zipFile) (f : zipFile) (fs : os.FS) :
  files = es ++ f :: todo -> extracted fs1 destPath es fs -> IsDir f = false ->
  os.node_at fs (entryPath destPath f) <> Some os.Directory.
Proof.
  intros E (_ & _ & Iframe) Hfile.
  pose proof (not_a_dir_path es todo f E Hfile) as Hnd.
  pose proof (not_a_file_path es todo f _ E (reflexivity _)) as Hnf.
  rewrite (node_at_same _ _ _ (Iframe _ Hnf Hnd)).
  apply (proj2 Hfree). exists f. split; [exact (current_entry _ _ _ E)|]. auto.
Qed.

(** One round of the loop of [Unzip] on a directory entry. *)
Lemma extract_directory (es todo : list zipFile) (f : zipFile) (fs : os.FS) :
  files = es ++ f :: todo -> extracted fs1 destPath es fs -> IsDir f = true ->
  exists fs', extractFile destPath f fs = (None, fs')
              /\ extracted fs1 destPath (es ++ [f]) fs'.
Proof.
  intros E Hinv Hdir.
  pose proof (Hlegal f (current_entry _ _ _ E)) as Hl.
  destruct (entry_facts destPath f Hdest Hl) as (EJ & _ & _ & _).
  unfold extractFile. rewrite Hl, Hdir, EJ.
  assert (Hn : normal (entryPath destPath f)) by apply key_normal.
  destruct (MkdirAll_clean_succeeds fs (entryPath destPath f) Hn) as [fs' Hmk].
  { intros q p d Hq. apply (nothing_in_the_way es todo f fs q p d E Hinv Hq). auto. }
  rewrite Hmk. exists fs'. split; [reflexivity|].
  destruct (MkdirAll_clean_post _ _ _ Hn Hmk) as (P1 & P2 & P3).
  destruct Hinv as (I1 & I2 & I3). split; [|split].
  - intros g Hg Hgfile. apply in_app_or in Hg as [Hg|[<-|[]]]; [|congruence].
    destruct (I1 g Hg Hgfile) as (data & perm & Hd & Hnode). exists data, perm. auto.
  - intros q Hq. apply isDirPath_snoc in Hq as [Hq|[Hq _]]; [apply P3, I2, Hq|].
    apply P1, Hq.
  - intros q Hnf Hnd. rewrite P2.
    + apply I3.
      * intros H. apply Hnf, isFilePath_snoc. left. exact H.
      * intros H. apply Hnd, isDirPath_snoc. left. exact H.
    + intros Hb. apply Hnd, isDirPath_snoc. right. auto.
Qed.

(** One round of the loop of [Unzip] on a file entry. *)
Lemma extract_regular (es todo : list zipFile) (f : zipFile) (fs : os.FS) :
  files = es ++ f :: todo -> extracted fs1 destPath es fs -> IsDir f = false ->
  exists fs', extractFile destPath f fs = (None, fs')
              /\ extracted fs1 destPath (es ++ [f]) fs'.
Proof.
  intros E Hinv Hfile.
  pose proof (current_entry _ _ _ E) as Hin.
  pose proof (Hlegal f Hin) as Hl.
  destruct (entry_facts destPath f Hdest Hl) as (EJ & _ & (rest & Hrest & Erest) & EDir).
  destruct (Hstored f Hin Hfile) as [data Hdata].
  pose proof (place_not_directory es todo f fs E Hinv Hfile) as Hplace.
  set (kf := entryPath destPath f) in *.
  assert (Hn : normal kf) by apply key_normal.
  assert (Hnd : normal (removelast kf)) by (rewrite <- EDir; apply key_normal).
  assert (EDir' : filepath.Dir (filepath.Join destPath (Name f))
                  = filepath.render (removelast kf)).
  { rewrite <- EDir. unfold filepath.Dir, filepath.Clean.
    rewrite key_render by apply key_normal. reflexivity. }
  assert (Hkf : kf <> []).
  { rewrite Erest. intros E0. apply app_eq_nil in E0 as [_ E0]. congruence. }
  assert (Hshort : forall q, q `prefix_of` removelast kf -> q <> kf).
  { intros q Hq ->. apply (removelast_shorter kf Hkf). apply prefix_length_eq.
    - apply removelast_prefix.
    - apply prefix_length, Hq. }
  unfold extractFile. rewrite Hl, Hfile, EDir'.
  destruct (MkdirAll_clean_succeeds fs (removelast kf) Hnd) as [fs2 Hmk].
  { intros q p d Hq. apply (nothing_in_the_way es todo f fs q p d E Hinv).
    - etransitivity; [exact Hq|apply removelast_prefix].
    - left. apply Hshort, Hq. }
  rewrite Hmk.
  destruct (MkdirAll_clean_post _ _ _ Hnd Hmk) as (P1 & P2 & P3).
  assert (Hsame : os.node_at fs2 kf = os.node_at fs kf).
  { apply node_at_same, P2. intros Hq. exact (Hshort kf Hq eq_refl). }
  assert (Hres : os.resolve fs2 (filepath.Join destPath (Name f))
                 = inr (os.node_at fs kf)).
  { rewrite EJ, <- Hsame. apply resolve_clean; [exact Hn|].
    intros a b Eab Hb. apply P1, prefix_removelast.
    - exists b. exact Eab.
    - intros ->. apply Hb. apply (f_equal length) in Eab.
      rewrite length_app in Eab. destruct b; [reflexivity|simpl in Eab; lia]. }
  assert (Hanchor : os.anchor kf = false)
    by (apply (node_at_not_directory fs), Hplace).
  assert (Hopen : exists perm,
             (let '(r, fs3) := os.OpenFile fs2 (filepath.Join destPath (Name f)) (Mode f) in
              match r with
              | inl err => (Some (PathError err), fs3)
              | inr outFile => (None, os.write fs3 outFile data)
              end) = (@None error, <[kf := os.Regular perm data]> fs2)).
  { unfold os.OpenFile. rewrite Hres. fold kf.
    destruct (os.node_at fs kf) as [[|p old]|]; [congruence| |].
    - exists p. unfold os.write.
      rewrite lookup_insert_eq, insert_insert_eq, sapp_nil_l. reflexivity.
    - exists (Mode f). unfold os.write.
      rewrite lookup_insert_eq, insert_insert_eq, sapp_nil_l. reflexivity. }
  destruct Hopen as [perm Hopen].
  destruct (os.OpenFile fs2 (filepath.Join destPath (Name f)) (Mode f)) as [[err|out] fs3];
    [discriminate Hopen|].
  rewrite Hdata. injection Hopen as Hopen. rewrite Hopen.
  eexists. split; [reflexivity|].
  destruct Hinv as (I1 & I2 & I3). split; [|split].
  - intros g Hg Hgfile. apply in_app_or in Hg as [Hg|[<-|[]]].
    + destruct (I1 g Hg Hgfile) as (d & pg & Hd & Hnode). exists d, pg.
      split; [exact Hd|].
      rewrite node_at_insert_ne; [apply P3, Hnode|].
      intros Eq. apply (not_a_file_path es todo f kf E (reflexivity _)).
      exists g. auto.
    + exists data, perm. split; [exact Hdata|]. apply node_at_insert_eq, Hanchor.
  - intros q Hq.
    assert (Hqk : q <> kf).
    { intros ->. apply isDirPath_snoc in Hq as [Hq|[_ [Hq|Hq]]];
        [|apply Hq; reflexivity|congruence].
      apply (not_a_dir_path es todo f E Hfile Hq). }
    rewrite node_at_insert_ne by exact Hqk.
    apply isDirPath_snoc in Hq as [Hq|[Hq _]]; [apply P3, I2, Hq|].
    apply P1, prefix_removelast; assumption.
  - intros q Hnf Hndq.
    assert (Hqk : q <> kf).
    { intros ->. apply Hnf, isFilePath_snoc. right. auto. }
    rewrite lookup_insert_ne by congruence. rewrite P2.
    + apply I3.
      * intros H. apply Hnf, isFilePath_snoc. left. exact H.
      * intros H. apply Hndq, isDirPath_snoc. left. exact H.
    + intros Hb. apply Hndq, isDirPath_snoc. right. split; [|left; exact Hqk].
      etransitivity; [exact Hb|apply removelast_prefix].
Qed.

(** The loop of [Unzip], from any point of the archive on. *)
Lemma extractFiles_extracted (todo es : list zipFile) (fs : os.FS) :
  files = es ++ todo -> extracted fs1 destPath es fs ->
  exists fs', extractFiles destPath todo fs = (None, fs')
              /\ extracted fs1 destPath files fs'.
Proof.
  revert es fs. induction todo as [|f todo IH]; intros es fs E Hinv.
  - exists fs. split; [reflexivity|]. rewrite E, app_nil_r. exact Hinv.
  - assert (Hstep : exists fs2, extractFile destPath f fs = (None, fs2)
                                /\ extracted fs1 destPath (es ++ [f]) fs2).
    { destruct (IsDir f) eqn:Hd.
      - apply (extract_directory es todo f fs E Hinv Hd).
      - apply (extract_regular es todo f fs E Hinv Hd). }
    destruct Hstep as (fs2 & Hstep & Hinv1). simpl. rewrite Hstep.
    apply (IH (es ++ [f]) fs2); [|exact Hinv1].
    rewrite <- app_assoc. exact E.
Qed.

Lemma extracted_start : extracted fs1 destPath [] fs1.
Proof.
  split; [|split].
  - intros f [].
  - intros q (f & [] & _).
  - reflexivity.
Qed.

End Extraction.

Lemma Stat_extracted (fs1 fs' : os.FS) (destPath : string) (files : list zipFile)
  (f : zipFile) (n : os.node) :
  String.eqb destPath "" = false ->
  illegalPath destPath (filepath.Join destPath (Name f)) = false ->
  extracted fs1 destPath files fs' -> In f files ->
  os.node_at fs' (entryPath destPath f) = Some n ->
  os.Stat fs' (filepath.Join destPath (Name f)) = inr n.
Proof.
  intros Hd Hl (_ & I2 & _) Hin Hn.
  destruct (entry_facts destPath f Hd Hl) as (EJ & _ & _ & _).
  unfold os.Stat. rewrite EJ, resolve_clean; [rewrite Hn; reflexivity|apply key_normal|].
  intros a b Eab Hb. apply I2. exists f. split; [exact Hin|].
  split; [exists b; exact Eab|]. left. intros ->.
  apply Hb. apply (f_equal length) in Eab. rewrite length_app in Eab.
  destruct b; [reflexivity|simpl in Eab; lia].
Qed.




(** What is in the way of an entry stops the extraction as well, so the
    condition on the destination cannot be left out: a directory where
    the archive has a file, and a regular file where the archive needs
    a directory (the directory entry itself is passed over, its error
    is not looked at, and the file below it fails). *)
Lemma Unzip_fails_on_obstructed_destination :
  Unzip (Sample.withArchive Sample.archive) "tf.zip" "/tmp"
    (<[ [""; "tmp"; "terraform"] := os.Directory ]> Sample.diskWithZip)
  = (Some (PathError os.EISDIR),
     <[ [""; "tmp"; "terraform"] := os.Directory ]> Sample.diskWithZip)
  /\ Unzip (Sample.withArchive Sample.treeArchive) "tf.zip" "/tmp"
       (<[ [""; "tmp"; "bin"] := os.Regular 420 "sh" ]> Sample.diskWithZip)
     = (Some (PathError os.ENOTDIR),
        <[ [""; "tmp"; "bin"] := os.Regular 420 "sh" ]> Sample.diskWithZip).
Proof. split; evaluate. Qed.

(** * Further properties of the code *)

(** ** downloader.go: the version *)

Lemma GetLatestVersion_nonempty (env : Env) (d : Downloader) (w w' : World)
  (v : string) :
  GetLatestVersion env d w = (inr v, w') -> v <> "".
Proof.
  unfold GetLatestVersion, Get.
  destruct (httpGet env terraformCheckURL) as [resp|]; [|discriminate].
  destruct (negb (StatusCode resp =? StatusOK)%Z); [discriminate|].
  destruct (jsonDecode env (Body resp)) as [check|]; [|discriminate].
  destruct (String.eqb_spec (CurrentVersion check) "") as [|Hne]; [discriminate|].
  intros H. injection H as <- _. exact Hne.
Qed.

(** [GetVersion] returns the empty version in one case only: the explicit
    version "v".  The latest version is never returned empty. *)
Theorem GetVersion_empty_only_for_v :
  forall (env : Env) (d : Downloader) (w w' : World),
    GetVersion env d w = (inr "", w') <-> targetVer d = "v" /\ w' = w.
Proof.
  intros env d w w'. unfold GetVersion. split.
  - destruct (targetVer d) as [|c r] eqn:Hv.
    + intros H. apply GetLatestVersion_nonempty in H. congruence.
    + cbn [String.eqb negb]. rewrite TrimPrefix_v.
      destruct (Ascii.eqb_spec c "v") as [->|Hc].
      * intros H. injection H as -> <-. auto.
      * discriminate.
  - intros [-> ->]. reflexivity.
Qed.

(** ** main.go: runs with flags *)

Lemma NFlag_zero (args : list Flag) : NFlag args = 0%nat <-> args = [].
Proof.
  unfold NFlag. split; [|intros ->; reflexivity].
  destruct args as [|f args]; [reflexivity|]. intros H. exfalso.
  apply length_zero_iff_nil in H.
  assert (Hin : flagName f ∈ remove_dups (map flagName (f :: args))).
  { apply elem_of_remove_dups. left. }
  rewrite H in Hin. inversion Hin.
Qed.

(** ** Traces *)

Lemma sprefix_app (p rest : string) : String.prefix p (p +:+ rest) = true.
Proof.
  induction p as [|c p IH]; [apply sprefix_nil|].
  rewrite sapp_cons, sprefix_cons, Ascii.eqb_refl, IH. reflexivity.
Qed.

Lemma after_refl (P : Event -> Prop) (w : World) : after P w w.
Proof. exists []. split; [symmetry; apply app_nil_r|constructor]. Qed.

Lemma after_trans (P : Event -> Prop) (w1 w2 w3 : World) :
  after P w1 w2 -> after P w2 w3 -> after P w1 w3.
Proof.
  intros (e1 & H1 & F1) (e2 & H2 & F2). exists (e1 ++ e2). split.
  - rewrite H2, H1, app_assoc. reflexivity.
  - apply Forall_app. auto.
Qed.

Lemma after_emit (P : Event -> Prop) (e : Event) (w w' : World) :
  P e -> after P w w' -> after P w (emit e w').
Proof.
  intros He H. apply (after_trans P w w'); [exact H|].
  exists [e]. split; [reflexivity|]. constructor; [exact He|constructor].
Qed.

Lemma after_setFS (P : Event -> Prop) (w w' : World) (fs' : os.FS) :
  after P w w' -> after P w (setFS w' fs').
Proof. intros (evs & H & F). exists evs. split; [exact H|exact F]. Qed.

Lemma after_warn (P : Event -> Prop) (format : string) (err : option error)
  (w w' : World) :
  (forall e, P (Printf format [Err e])) -> after P w w' ->
  after P w (warn format err w').
Proof.
  intros HP H. destruct err as [e|]; [|exact H]. apply after_emit; auto.
Qed.

Lemma coversRun_Printf (P : Event -> Prop) (format : string) (args : list value) :
  coversRun P -> String.eqb format "Already up to date (version %s)\n" = false ->
  P (Printf format args).
Proof. intros (_ & _ & _ & _ & H) Hf. apply H. apply String.eqb_neq, Hf. Qed.

(** The steps of a run add [emit]s on top of one another: the goal is
    taken apart along them. *)
Ltac trace_steps HP :=
  repeat first
    [ apply after_refl
    | assumption
    | apply after_setFS
    | apply after_warn; [intros; apply (coversRun_Printf _ _ _ HP); reflexivity|]
    | apply after_emit;
      [ first [ apply (coversRun_Printf _ _ _ HP); reflexivity
              | apply HP ] | ] ].

Lemma GetLatestVersion_after (P : Event -> Prop) (env : Env) (d : Downloader)
  (w0 w : World) :
  coversRun P -> after P w0 w -> after P w0 (GetLatestVersion env d w).2.
Proof.
  intros HP H. unfold GetLatestVersion, Get.
  destruct (httpGet env terraformCheckURL) as [resp|]; cbn [snd];
    [|trace_steps HP].
  destruct (negb (StatusCode resp =? StatusOK)%Z); cbn [snd]; [trace_steps HP|].
  destruct (jsonDecode env (Body resp)) as [check|]; cbn [snd]; [|trace_steps HP].
  destruct (String.eqb (CurrentVersion check) ""); cbn [snd]; trace_steps HP.
Qed.

Lemma GetVersion_after (P : Event -> Prop) (env : Env) (d : Downloader)
  (w0 w : World) :
  coversRun P -> after P w0 w -> after P w0 (GetVersion env d w).2.
Proof.
  intros HP H. unfold GetVersion.
  destruct (negb (String.eqb (targetVer d) "")); [exact H|].
  apply GetLatestVersion_after; assumption.
Qed.

Lemma downloadVersion_after (P : Event -> Prop) (env : Env) (d : Downloader)
  (ver : string) (w0 w : World) :
  coversRun P -> after P w0 w -> after P w0 (downloadVersion env d ver w).2.
Proof.
  intros HP H. unfold downloadVersion, Get.
  set (url := terraformDownloadURL _ _ _).
  assert (Hurl : P (HttpGet url)) by apply HP.
  set (w1 := if negb (quiet d) then _ else _).
  assert (H1 : after P w0 w1) by (subst w1; destruct (quiet d); cbn [negb]; trace_steps HP).
  clearbody w1.
  destruct (httpGet env url) as [resp|]; cbn [snd];
    [|apply after_emit; assumption].
  destruct (negb (StatusCode resp =? StatusOK)%Z); cbn [snd];
    [apply after_emit; assumption|].
  destruct (os.Create _ _) as [[err|out] fs']; cbn [snd];
    [apply after_setFS, after_emit; assumption|].
  assert (H2 : after P w0 (emit (HttpGet url) w1)) by (apply after_emit; assumption).
  destruct (quiet d || (ContentLength resp <=? 0)%Z), (BodyFails resp); cbn [snd];
    trace_steps HP.
Qed.

Lemma Download_after (P : Event -> Prop) (env : Env) (d : Downloader) (w0 w : World) :
  coversRun P -> after P w0 w -> after P w0 (Download env d w).2.
Proof.
  intros HP H. unfold Download. destruct (String.eqb (targetVer d) "").
  - pose proof (GetLatestVersion_after P env d w0 w HP H) as H1.
    destruct (GetLatestVersion env d w) as [[err|latest] w1]; cbn [snd] in *;
      [exact H1|].
    apply downloadVersion_after; assumption.
  - apply downloadVersion_after; assumption.
Qed.

Lemma installFrom_after (P : Event -> Prop) (env : Env)
  (zipFile installPath tempDir : string) (w0 w : World) :
  coversRun P -> after P w0 w ->
  after P w0 (installFrom env zipFile installPath tempDir w).2.
Proof.
  intros HP H. unfold installFrom.
  destruct (Unzip env zipFile tempDir _) as [[err|] fs']; cbn [snd];
    [trace_steps HP|].
  destruct (os.Stat _ _) as [e|n]; cbn [snd]; [trace_steps HP|].
  destruct (copyFile _ _ _) as [[err|] fs2]; cbn [snd]; [trace_steps HP|].
  destruct (if negb (String.eqb (GOOS env) "windows") then _ else _)
    as [[err|] fs3]; cbn [snd]; trace_steps HP.
Qed.

Lemma installTerraform_after (P : Event -> Prop) (env : Env)
  (zipFile installPath : string) (w0 w : World) :
  coversRun P -> after P w0 w ->
  after P w0 (installTerraform env zipFile installPath w).2.
Proof.
  intros HP H. unfold installTerraform.
  destruct (match os.Stat (fs w) installPath with
            | inl err => os.IsNotExist err
            | inr _ => false
            end); cbn [snd]; [exact H|].
  destruct (os.MkdirTemp _ _ _ _) as [[err|tempDir] fs']; cbn [snd];
    [trace_steps HP|].
  pose proof (installFrom_after P env zipFile installPath tempDir w0 (setFS w fs') HP)
    as H1.
  destruct (installFrom env zipFile installPath tempDir (setFS w fs')) as [err w1].
  cbn [snd] in *. apply after_setFS, H1, after_setFS, H.
Qed.

Lemma proceed_after (P : Event -> Prop) (env : Env) (o : Flags) (config : Config)
  (flag : bool) (path : string) (d : Downloader) (ver : string) (w0 w : World) :
  coversRun P -> after P w0 w ->
  after P w0 (proceed env o config flag path d ver w).2.
Proof.
  intros HP H. unfold proceed.
  destruct (if forceFlag o && Install config && negb (String.eqb (InstallPath config) "")
            then _ else _) as [flag' path'].
  pose proof (Download_after P env d w0 w HP H) as H1.
  destruct (Download env d w) as [[err|zipFile] w1]; cbn [snd] in *;
    [trace_steps HP|].
  destruct (Update config ver flag' path' (fs w1)) as [[err config'] fs'].
  set (w2 := warn _ err (setFS w1 fs')).
  assert (H2 : after P w0 w2) by (subst w2; trace_steps HP).
  clearbody w2.
  destruct (flag' && negb (String.eqb path' "")); cbn [snd]; [|trace_steps HP].
  pose proof (installTerraform_after P env zipFile path' w0 w2 HP H2) as H3.
  destruct (installTerraform env zipFile path' w2) as [[e|] w3]; cbn [snd] in *;
    trace_steps HP.
Qed.

Lemma printHelp_after (P : Event -> Prop) (w : World) :
  coversRun P -> after P w (printHelp w).
Proof.
  intros HP. unfold printHelp.
  assert (H : after P w (emit (Printf "tfdown v%s - Terraform downloader\n\n"
                                 [Str version]) w)) by trace_steps HP.
  revert H. generalize (emit (Printf "tfdown v%s - Terraform downloader\n\n"
                                [Str version]) w).
  induction helpLines as [|l ls IH]; intros w' H; [exact H|].
  simpl. apply IH. apply after_emit; [apply HP|exact H].
Qed.

(** Whatever the flags, the environment and the world, [main] only adds
    to the trace, and every URL it calls its HTTP client with is the
    checkpoint URL or a URL under the release server's terraform
    directory.  Where the client goes from there when a server answers
    with a redirect is not in the trace, and is not claimed. *)
Theorem main_gets_only_checkpoint_and_release_urls :
  forall (env : Env) (args : list Flag) (w : World),
    after allowedEvent w (main env args w).2.
Proof.
  intros env args w.
  assert (HP : coversRun allowedEvent).
  { repeat split; simpl; auto. intros ver os arch. right.
    unfold terraformDownloadURL, strings.HasPrefix.
    apply sprefix_app. }
  unfold main. destruct (showHelp (Parse args)); [apply printHelp_after, HP|].
  destruct (showVersion (Parse args)); cbn [snd]; [trace_steps HP|].
  destruct (Load _ _) as [err config].
  set (w1 := warn _ err w).
  assert (H1 : after allowedEvent w w1) by (subst w1; trace_steps HP).
  clearbody w1.
  destruct (if Nat.eqb (NFlag args) 0 && Install config
               && negb (String.eqb (InstallPath config) "") then _ else _)
    as [flag path].
  pose proof (GetVersion_after allowedEvent env
                (NewDownloader env (targetOSFlag (Parse args))
                   (targetArchFlag (Parse args)) (targetVersion (Parse args))
                   (quietMode (Parse args))) w w1 HP H1) as H2.
  destruct (GetVersion env _ w1) as [[e|ver] w2]; cbn [snd] in *;
    [trace_steps HP|].
  unfold mainWith. destruct (upToDate _ _ _ _ _); cbn [snd].
  - apply after_emit; [exact I|exact H2].
  - apply proceed_after; assumption.
Qed.

(** A run with at least one flag never stops at the test for a run that
    has nothing to do: once the version is known it goes on to the
    download, with the install settings of the command line, and the
    line "Already up to date" is not printed. *)
Theorem main_with_flags_always_proceeds :
  forall (env : Env) (args : list Flag) (w : World),
    args <> [] ->
    showHelp (Parse args) = false -> showVersion (Parse args) = false ->
    let o := Parse args in
    let loaded := Load (NewConfig (UserHomeDir env)) (fs w) in
    let downloader :=
      NewDownloader env (targetOSFlag o) (targetArchFlag o) (targetVersion o)
        (quietMode o) in
    (forall ver w1,
        GetVersion env downloader
          (warn "Warning: Could not load config: %v\n" loaded.1 w) = (inr ver, w1) ->
        main env args w
        = proceed env o loaded.2 (installFlag o) (installPath o) downloader ver w1)
    /\ after notUpToDateLine w (main env args w).2.
Proof.
  intros env args w Hargs Hhelp Hver. cbv zeta.
  assert (Hn : Nat.eqb (NFlag args) 0 = false).
  { apply Nat.eqb_neq. intros H. apply NFlag_zero in H. contradiction. }
  assert (HP : coversRun notUpToDateLine).
  { repeat split; simpl; auto. }
  set (d := NewDownloader env (targetOSFlag (Parse args)) (targetArchFlag (Parse args))
              (targetVersion (Parse args)) (quietMode (Parse args))).
  set (w0 := warn "Warning: Could not load config: %v\n"
               (Load (NewConfig (UserHomeDir env)) (fs w)).1 w).
  assert (E : main env args w
              = match GetVersion env d w0 with
                | (inl err, w1) =>
                    (1%Z, emit (Printf "Error getting version: %v\n" [Err err]) w1)
                | (inr ver, w1) =>
                    proceed env (Parse args) (Load (NewConfig (UserHomeDir env)) (fs w)).2
                      (installFlag (Parse args)) (installPath (Parse args)) d ver w1
                end).
  { unfold main. rewrite Hhelp, Hver, Hn. cbn [andb]. subst w0.
    destruct (Load _ _) as [err config]. cbn [fst snd]. fold d.
    destruct (GetVersion env d _) as [[e|ver] w1]; [reflexivity|].
    unfold mainWith, upToDate. reflexivity. }
  split.
  - intros ver w1 H. rewrite E, H. reflexivity.
  - rewrite E.
    assert (H0 : after notUpToDateLine w w0) by (subst w0; trace_steps HP).
    pose proof (GetVersion_after notUpToDateLine env d w w0 HP H0) as H1.
    destruct (GetVersion env d w0) as [[e|ver] w1]; cbn [snd] in *.
    + trace_steps HP.
    + apply proceed_after; assumption.
Qed.

Lemma main_with_flags_always_proceeds_witness :
  after notUpToDateLine (mkWorld Sample.diskInstalled [])
    (main Sample.env [flag_q true] (mkWorld Sample.diskInstalled [])).2.
Proof.
  apply (main_with_flags_always_proceeds Sample.env [flag_q true]
           (mkWorld Sample.diskInstalled [])); [discriminate|reflexivity|reflexivity].
Defined.

(** ** Files written and read back *)

(** What [os.WriteFile] does, case by case. *)
Lemma WriteFile_cases (fs : os.FS) (name data : string) (perm : N) :
  os.WriteFile fs name data perm =
  match os.resolve fs name with
  | inl e => (Some e, fs)
  | inr (Some os.Directory) => (Some os.EISDIR, fs)
  | inr (Some (os.Regular p _)) => (None, <[filepath.key name := os.Regular p data]> fs)
  | inr None => (None, <[filepath.key name := os.Regular perm data]> fs)
  end.
Proof.
  unfold os.WriteFile, os.OpenFile, os.write.
  destruct (os.resolve fs name) as [e|[[|p old]|]]; try reflexivity;
    rewrite lookup_insert_eq, insert_insert_eq, sapp_nil_l; reflexivity.
Qed.

Lemma WriteFile_frame (fs : os.FS) (name data : string) (perm : N) (q : list string) :
  q <> filepath.key name -> (os.WriteFile fs name data perm).2 !! q = fs !! q.
Proof.
  intros Hq. rewrite WriteFile_cases.
  destruct (os.resolve fs name) as [e|[[|p old]|]]; try reflexivity;
    apply lookup_insert_ne; congruence.
Qed.

(** ** config.go: what [Save] writes *)

(** [Save] writes one file and nothing else: every other path is as
    before, whether the save succeeds or fails; and when it succeeds the
    config file holds exactly the text of the record, whatever it held
    before.  What a save that fails leaves in the config file is not
    stated: [os.WriteFile] empties the file before it writes. *)
Theorem Save_writes_one_file :
  forall (c : Config) (fs : os.FS),
    (forall q, q <> filepath.key (configPath c) -> (Save c fs).2 !! q = fs !! q)
    /\ ((Save c fs).1 = None ->
        os.ReadFile (Save c fs).2 (configPath c) = inr (saveContent c)).
Proof.
  intros c fs. unfold Save. split.
  - intros q Hq.
    pose proof (WriteFile_frame fs (configPath c) (saveContent c) 420 q Hq) as H.
    destruct (os.WriteFile _ _ _ _) as [[e|] fs']; exact H.
  - destruct (os.WriteFile _ _ _ _) as [[e|] fs'] eqn:E; cbn [fst snd];
      [discriminate|]. intros _.
    apply WriteFile_Open in E as [p E]. unfold os.ReadFile.
    unfold os.Open in E. rewrite E. reflexivity.
Qed.

Lemma Save_writes_one_file_witness :
  os.ReadFile (Save Sample.installed Sample.disk).2 (configPath Sample.installed)
  = inr (saveContent Sample.installed).
Proof.
  apply (Save_writes_one_file Sample.installed Sample.disk). evaluate.
Defined.

(** A [Save] replaces the whole record: after an earlier [Save] to the
    same file, the result, error and file system, is that of the later
    [Save] alone. *)
Theorem Save_overwrites_earlier_Save :
  forall (c1 c2 : Config) (fs : os.FS),
    configPath c1 = configPath c2 ->
    Save c2 (Save c1 fs).2 = Save c2 fs.
Proof.
  intros c1 c2 fs Hp. unfold Save. rewrite !WriteFile_cases, Hp.
  destruct (os.resolve fs (configPath c2)) as [e|[[|p old]|]] eqn:R; cbn [snd].
  - rewrite R. reflexivity.
  - rewrite R. reflexivity.
  - rewrite (resolve_insert fs _ _ _ R) by discriminate.
    rewrite insert_insert_eq. reflexivity.
  - rewrite (resolve_insert fs _ _ _ R) by discriminate.
    rewrite insert_insert_eq. reflexivity.
Qed.

Lemma Save_overwrites_earlier_Save_witness :
  Save Sample.installed
    (Save (mkConfig "1.6.0" false "" "/home/u/.tfdown.conf") Sample.disk).2
  = Save Sample.installed Sample.disk.
Proof.
  apply (Save_overwrites_earlier_Save (mkConfig "1.6.0" false "" "/home/u/.tfdown.conf")
           Sample.installed Sample.disk).
  reflexivity.
Defined.

(** ** main.go: [copyFile] *)

(** When [copyFile] succeeds the destination holds the bytes of the
    source, the source still holds them, and no other path has changed. *)
Theorem copyFile_copies :
  forall (src dst : string) (fs fs' : os.FS),
    copyFile src dst fs = (None, fs') ->
    exists data,
      os.ReadFile fs src = inr data
      /\ os.ReadFile fs' dst = inr data
      /\ os.ReadFile fs' src = inr data
      /\ (forall q, q <> filepath.key dst -> fs' !! q = fs !! q).
Proof.
  intros src dst fs fs' H. unfold copyFile in H.
  destruct (os.ReadFile fs src) as [e|data] eqn:Hread; [discriminate|].
  pose proof (WriteFile_frame fs dst data 493) as Hframe.
  destruct (os.WriteFile fs dst data 493) as [[e|] fs1] eqn:Hw; [discriminate|].
  injection H as <-. exists data. split; [reflexivity|].
  assert (Hdst : os.ReadFile fs1 dst = inr data).
  { apply WriteFile_Open in Hw as [p Hp]. unfold os.ReadFile.
    unfold os.Open in Hp. rewrite Hp. reflexivity. }
  split; [exact Hdst|]. split; [|exact Hframe].
  rewrite WriteFile_cases in Hw. unfold os.ReadFile, os.Stat in *.
  destruct (os.resolve fs src) as [e|[[|p0 d0]|]] eqn:Rs; try discriminate.
  injection Hread as ->.
  pose proof (resolve_inr _ _ _ Rs) as (_ & _ & Hsrc & _).
  assert (Hnew : exists p, fs1 = <[filepath.key dst := os.Regular p data]> fs
                           /\ os.node_at fs (filepath.key dst) <> Some os.Directory).
  { destruct (os.resolve fs dst) as [e|[[|p old]|]] eqn:Rd; try discriminate;
      pose proof (resolve_inr _ _ _ Rd) as (_ & _ & Hd & _);
      injection Hw as <-; eexists; (split; [reflexivity|]); rewrite <- Hd; discriminate. }
  destruct Hnew as (p & -> & Hnd).
  rewrite (resolve_keeps fs _ src _ (keepsDirs_insert fs _ _ Hnd) Rs).
  destruct (decide (filepath.key src = filepath.key dst)) as [Heq|Hne].
  - rewrite Heq, node_at_insert_eq; [reflexivity|].
    apply (node_at_not_directory fs), Hnd.
  - rewrite node_at_insert_ne, <- Hsrc by exact Hne. reflexivity.
Qed.

Lemma copyFile_copies_witness :
  exists data,
    os.ReadFile Sample.diskInstalled "/usr/bin/terraform" = inr data
    /\ os.ReadFile (copyFile "/usr/bin/terraform" "/tmp/tf" Sample.diskInstalled).2
         "/tmp/tf" = inr data
    /\ os.ReadFile (copyFile "/usr/bin/terraform" "/tmp/tf" Sample.diskInstalled).2
         "/usr/bin/terraform" = inr data
    /\ (forall q, q <> filepath.key "/tmp/tf" ->
          (copyFile "/usr/bin/terraform" "/tmp/tf" Sample.diskInstalled).2 !! q
          = Sample.diskInstalled !! q).
Proof.
  apply (copyFile_copies "/usr/bin/terraform" "/tmp/tf" Sample.diskInstalled).
  destruct (copyFile "/usr/bin/terraform" "/tmp/tf" Sample.diskInstalled) as [e fs'] eqn:E.
  assert (He : (copyFile "/usr/bin/terraform" "/tmp/tf" Sample.diskInstalled).1 = None)
    by evaluate.
  rewrite E in He. simpl in He. subst e. reflexivity.
Defined.

(** ** downloader.go: what [Download] leaves on the disk *)

Lemma ReadFile_WriteFile (fs fs' : os.FS) (name data : string) (perm : N) :
  os.WriteFile fs name data perm = (None, fs') ->
  os.ReadFile fs' name = inr data.
Proof.
  intros H. apply WriteFile_Open in H as [p H]. unfold os.ReadFile.
  unfold os.Open in H. rewrite H. reflexivity.
Qed.

(** The file system after [downloadVersion]: the archive written as by
    [os.WriteFile] when the body was copied, in full or in part, and the
    file system as it was otherwise. *)
Lemma downloadVersion_disk (env : Env) (d : Downloader) (ver : string)
  (w w' : World) (r : error + string) :
  downloadVersion env d ver w = (r, w') ->
  let v := strings.TrimPrefix ver "v" in
  let zip := zipName v (targetOS d) (targetArch d) in
  (exists resp,
      httpGet env (terraformDownloadURL v (targetOS d) (targetArch d)) = Some resp
      /\ StatusCode resp = StatusOK
      /\ os.WriteFile (fs w) zip (Body resp) 438 = (None, fs w')
      /\ r = if BodyFails resp
             then inl (ErrorfW "error writing file: %w" ErrTransport)
             else inr zip)
  \/ (exists err, r = inl err
        /\ err <> ErrorfW "error writing file: %w" ErrTransport
        /\ fs w' = fs w).
Proof.
  unfold downloadVersion, Get, zipName.
  set (v := strings.TrimPrefix ver "v").
  set (url := terraformDownloadURL _ _ _).
  set (zip := "terraform_" +:+ _).
  set (w1 := if negb (quiet d) then _ else _).
  assert (Hfs : fs w1 = fs w) by (subst w1; destruct (quiet d); reflexivity).
  cbv zeta.
  destruct (httpGet env url) as [resp|].
  2:{ intros H. injection H as <- <-. right. eexists. split; [reflexivity|].
      split; [discriminate|exact Hfs]. }
  destruct (StatusCode resp =? StatusOK)%Z eqn:Hs; cbn [negb].
  2:{ intros H. injection H as <- <-. right. eexists. split; [reflexivity|].
      split; [discriminate|exact Hfs]. }
  apply Z.eqb_eq in Hs. cbn [fs emit].
  unfold os.WriteFile, os.Create. rewrite Hfs.
  destruct (os.OpenFile (fs w) zip 438) as [[err|out] fs'] eqn:Ho.
  - intros H. injection H as <- <-. right. eexists. split; [reflexivity|].
    split; [discriminate|]. cbn.
    unfold os.OpenFile in Ho.
    destruct (os.resolve (fs w) zip) as [e|[[|p old]|]]; congruence.
  - intros H. left. exists resp. split; [reflexivity|]. split; [exact Hs|].
    destruct (BodyFails resp); injection H as <- <-;
      (split; [|reflexivity]);
      destruct (quiet d || (ContentLength resp <=? 0)%Z); reflexivity.
Qed.

Lemma Download_disk (env : Env) (d : Downloader) (w w' : World)
  (r : error + string) :
  Download env d w = (r, w') ->
  (exists ver resp,
      (targetVer d <> "" -> ver = strings.TrimPrefix (targetVer d) "v")
      /\ httpGet env (terraformDownloadURL ver (targetOS d) (targetArch d)) = Some resp
      /\ StatusCode resp = StatusOK
      /\ os.WriteFile (fs w) (zipName ver (targetOS d) (targetArch d)) (Body resp) 438
         = (None, fs w')
      /\ r = if BodyFails resp
             then inl (ErrorfW "error writing file: %w" ErrTransport)
             else inr (zipName ver (targetOS d) (targetArch d)))
  \/ (exists err, r = inl err
        /\ err <> ErrorfW "error writing file: %w" ErrTransport
        /\ fs w' = fs w).
Proof.
  unfold Download. destruct (String.eqb (targetVer d) "") eqn:Hv.
  - apply String.eqb_eq in Hv.
    pose proof (GetLatestVersion_fs env d w) as Hfs.
    destruct (GetLatestVersion env d w) as [[err|latest] w1] eqn:E; cbn [snd] in Hfs.
    + intros H. injection H as <- <-. right. exists err. split; [reflexivity|].
      split; [|exact Hfs].
      revert E. unfold GetLatestVersion, Get.
      destruct (httpGet env terraformCheckURL) as [resp|]; [|congruence].
      destruct (negb (StatusCode resp =? StatusOK)%Z); [congruence|].
      destruct (jsonDecode env (Body resp)) as [check|]; [|congruence].
      destruct (String.eqb (CurrentVersion check) ""); congruence.
    + intros H. apply downloadVersion_disk in H. cbv zeta in H. rewrite Hfs in H.
      destruct H as [(resp & H1 & H2 & H3 & H4)|H]; [left|right; exact H].
      exists (strings.TrimPrefix latest "v"), resp.
      split; [congruence|]. repeat split; assumption.
  - apply String.eqb_neq in Hv.
    intros H. apply downloadVersion_disk in H. cbv zeta in H.
    destruct H as [(resp & H1 & H2 & H3 & H4)|H]; [left|right; exact H].
    exists (strings.TrimPrefix (targetVer d) "v"), resp.
    split; [reflexivity|]. repeat split; assumption.
Qed.

(** When [Download] succeeds, the name it returns is that of the archive
    for the version, system and architecture; the server answered the
    request for that archive with status 200; the file of that name holds
    exactly the body of the answer, whatever it held before; and no other
    path of the file system has changed. *)
Theorem Download_stores_response_body :
  forall (env : Env) (d : Downloader) (w w' : World) (zip : string),
    Download env d w = (inr zip, w') ->
    exists ver resp,
      (targetVer d <> "" -> ver = strings.TrimPrefix (targetVer d) "v")
      /\ zip = zipName ver (targetOS d) (targetArch d)
      /\ httpGet env (terraformDownloadURL ver (targetOS d) (targetArch d)) = Some resp
      /\ StatusCode resp = 200%Z
      /\ os.ReadFile (fs w') zip = inr (Body resp)
      /\ (forall q, q <> filepath.key zip -> fs w' !! q = fs w !! q).
Proof.
  intros env d w w' zip H. apply Download_disk in H.
  destruct H as [(ver & resp & Hv & Hget & Hs & Hw & Hr)|(err & Hr & _)];
    [|discriminate].
  destruct (BodyFails resp); [discriminate|]. injection Hr as ->.
  exists ver, resp. split; [exact Hv|]. split; [reflexivity|].
  split; [exact Hget|]. split; [exact Hs|].
  split; [exact (ReadFile_WriteFile _ _ _ _ _ Hw)|].
  intros q Hq.
  pose proof (WriteFile_frame (fs w) _ (Body resp) 438 q Hq) as Hf.
  rewrite Hw in Hf. exact Hf.
Qed.

Lemma Download_stores_response_body_witness :
  exists ver resp,
    (targetVer (mkDownloader "linux" "amd64" "1.7.0" true) <> ""
     -> ver = strings.TrimPrefix "1.7.0" "v")
    /\ "terraform_1.7.0_linux_amd64.zip" = zipName ver "linux" "amd64"
    /\ httpGet Sample.env (terraformDownloadURL ver "linux" "amd64") = Some resp
    /\ StatusCode resp = 200%Z
    /\ os.ReadFile
         (fs (Download Sample.env (mkDownloader "linux" "amd64" "1.7.0" true)
                Sample.start).2)
         "terraform_1.7.0_linux_amd64.zip" = inr (Body resp)
    /\ (forall q, q <> filepath.key "terraform_1.7.0_linux_amd64.zip" ->
          fs (Download Sample.env (mkDownloader "linux" "amd64" "1.7.0" true)
                Sample.start).2 !! q = fs Sample.start !! q).
Proof.
  apply (Download_stores_response_body Sample.env
           (mkDownloader "linux" "amd64" "1.7.0" true) Sample.start).
  destruct (Download Sample.env (mkDownloader "linux" "amd64" "1.7.0" true)
              Sample.start) as [r w'] eqn:E.
  assert (Hr : (Download Sample.env (mkDownloader "linux" "amd64" "1.7.0" true)
                  Sample.start).1 = inr "terraform_1.7.0_linux_amd64.zip")
    by evaluate.
  rewrite E in Hr. simpl in Hr. subst r. reflexivity.
Defined.

(** When [Download] fails, the file system is as it was, unless the
    failure came while the body was being copied: then the file of the
    archive is left behind with the part of the body received, and no
    other path has changed. *)
Theorem Download_failure_leaves_at_most_partial_file :
  forall (env : Env) (d : Downloader) (w w' : World) (err : error),
    Download env d w = (inl err, w') ->
    (err <> ErrorfW "error writing file: %w" ErrTransport -> fs w' = fs w)
    /\ (err = ErrorfW "error writing file: %w" ErrTransport ->
        exists ver resp,
          httpGet env (terraformDownloadURL ver (targetOS d) (targetArch d)) = Some resp
          /\ BodyFails resp = true
          /\ os.ReadFile (fs w') (zipName ver (targetOS d) (targetArch d))
             = inr (Body resp)
          /\ (forall q, q <> filepath.key (zipName ver (targetOS d) (targetArch d)) ->
                fs w' !! q = fs w !! q)).
Proof.
  intros env d w w' err H. apply Download_disk in H.
  destruct H as [(ver & resp & Hv & Hget & Hs & Hw & Hr)|(err' & Hr & Hne & Hfs)].
  - destruct (BodyFails resp) eqn:Hb; [|discriminate]. injection Hr as ->.
    split; [congruence|]. intros _. exists ver, resp.
    split; [exact Hget|]. split; [exact Hb|].
    split; [exact (ReadFile_WriteFile _ _ _ _ _ Hw)|].
    intros q Hq.
    pose proof (WriteFile_frame (fs w) _ (Body resp) 438 q Hq) as Hf.
    rewrite Hw in Hf. exact Hf.
  - injection Hr as ->. split; [intros _; exact Hfs|]. congruence.
Qed.

Lemma Download_failure_leaves_at_most_partial_file_witness :
  exists ver resp,
    httpGet cutOffEnv (terraformDownloadURL ver "linux" "amd64") = Some resp
    /\ BodyFails resp = true
    /\ os.ReadFile
         (fs (Download cutOffEnv (mkDownloader "linux" "amd64" "1.7.0" true)
                Sample.start).2)
         (zipName ver "linux" "amd64") = inr (Body resp)
    /\ (forall q, q <> filepath.key (zipName ver "linux" "amd64") ->
          fs (Download cutOffEnv (mkDownloader "linux" "amd64" "1.7.0" true)
                Sample.start).2 !! q = fs Sample.start !! q).
Proof.
  apply (Download_failure_leaves_at_most_partial_file cutOffEnv
           (mkDownloader "linux" "amd64" "1.7.0" true) Sample.start
           (Download cutOffEnv (mkDownloader "linux" "amd64" "1.7.0" true)
              Sample.start).2
           (ErrorfW "error writing file: %w" ErrTransport)).
  - evaluate.
  - reflexivity.
Defined.

(** ** config.go: more on [Load] *)

Lemma scan_stops (pre post : list string) (l : string) :
  Forall short pre -> ~ short l ->
  bufio.scan (pre ++ l :: post) = (map bufio.dropCR pre, true).
Proof.
  unfold short. intros Hpre Hl. induction Hpre as [|x pre Hx _ IH]; simpl.
  - destruct (Z.leb_spec bufio.MaxScanTokenSize (Z.of_nat (String.length l)));
      [reflexivity|lia].
  - destruct (Z.leb_spec bufio.MaxScanTokenSize (Z.of_nat (String.length x)));
      [lia|]. rewrite IH. reflexivity.
Qed.

Lemma scan_flag (ls : list string) :
  (bufio.scan ls).2 = false <-> Forall short ls.
Proof.
  unfold short. induction ls as [|l ls IH]; simpl.
  - split; [constructor|reflexivity].
  - destruct (Z.leb_spec bufio.MaxScanTokenSize (Z.of_nat (String.length l))).
    + split; [discriminate|]. intros Hs. inversion Hs; subst. lia.
    + destruct (bufio.scan ls) as [ts e]. simpl in *. rewrite IH.
      split; [intros Hs; constructor; assumption|].
      intros Hs. inversion Hs; assumption.
Qed.

(** A line sets some of the three fields, to values that depend on the
    line only, and keeps the others and the path of the file. *)
Lemma loadLine_fields (text : string) :
  exists (ov : option string) (oi : option bool) (op : option string),
    forall c, loadLine c text
              = mkConfig (default (Version c) ov) (default (Install c) oi)
                  (default (InstallPath c) op) (configPath c).
Proof.
  unfold loadLine.
  destruct (String.eqb (strings.TrimSpace text) "" || _).
  { exists None, None, None. intros []. reflexivity. }
  destruct (strings.SplitN2 _ _) as [|k [|v [|x r]]];
    try (exists None, None, None; intros []; reflexivity).
  destruct (String.eqb (strings.TrimSpace k) "version").
  { exists (Some (strings.TrimSpace v)), None, None. intros []. reflexivity. }
  destruct (String.eqb (strings.TrimSpace k) "install").
  { eexists None, (Some _), None. intros []. reflexivity. }
  destruct (String.eqb (strings.TrimSpace k) "install_path").
  { exists None, None, (Some (strings.TrimSpace v)). intros []. reflexivity. }
  exists None, None, None. intros []. reflexivity.
Qed.

Lemma loadLines_fields (tokens : list string) :
  exists (ov : option string) (oi : option bool) (op : option string),
    forall c, fold_left loadLine tokens c
              = mkConfig (default (Version c) ov) (default (Install c) oi)
                  (default (InstallPath c) op) (configPath c).
Proof.
  induction tokens as [|t tokens IH].
  - exists None, None, None. intros []. reflexivity.
  - destruct (loadLine_fields t) as (ov1 & oi1 & op1 & H1).
    destruct IH as (ov & oi & op & H).
    exists (match ov with Some v => Some v | None => ov1 end),
           (match oi with Some v => Some v | None => oi1 end),
           (match op with Some v => Some v | None => op1 end).
    intros c. simpl. rewrite H, H1.
    destruct ov, oi, op; reflexivity.
Qed.

(** The over-long line in general: when the config file has a line of
    65536 bytes or more, [Load] fails with the scanner's error, the lines
    before the first such line have been applied to the receiver, and the
    lines after it have not been read. *)
Theorem Load_stops_at_first_long_line :
  forall (c : Config) (fs : os.FS) (perm : N) (data : string)
         (pre post : list string) (l : string),
    os.Open fs (configPath c) = inr (os.Regular perm data) ->
    bufio.rawLines data = pre ++ l :: post ->
    Forall (fun x => (Z.of_nat (String.length x) < 65536)%Z) pre ->
    (65536 <= Z.of_nat (String.length l))%Z ->
    Load c fs
    = (Some (ErrorfW "error reading config file: %w" ErrTooLong),
       fold_left loadLine (map bufio.dropCR pre) c).
Proof.
  intros c fs perm data pre post l Hopen Hlines Hpre Hl.
  unfold Load. rewrite Hopen. unfold scanFile, bufio.Scan.
  rewrite Hlines, (scan_stops pre post l); [reflexivity|exact Hpre|].
  unfold short, bufio.MaxScanTokenSize. lia.
Qed.

Lemma Load_stops_at_first_long_line_witness :
  Load (NewConfig (Some "/home/u"))
    (<[ [""; "home"; "u"; ".tfdown.conf"] :=
          os.Regular 420 ("install=true" +:+ LF +:+
                          repeatByte (Z.to_nat 65536) "x" +:+ LF +:+
                          "version=1.7.0" +:+ LF) ]> Sample.disk)
  = (Some (ErrorfW "error reading config file: %w" ErrTooLong),
     fold_left loadLine (map bufio.dropCR ["install=true"])
       (NewConfig (Some "/home/u"))).
Proof.
  apply (Load_stops_at_first_long_line (NewConfig (Some "/home/u")) _ 420%N
           ("install=true" +:+ LF +:+ repeatByte (Z.to_nat 65536) "x" +:+ LF +:+
            "version=1.7.0" +:+ LF)
           ["install=true"] ["version=1.7.0"] (repeatByte (Z.to_nat 65536) "x")).
  - evaluate.
  - evaluate.
  - repeat constructor.
  - vm_compute. discriminate.
Defined.

(** When [Load] succeeds and when it fails.  It returns no error exactly
    when the config file does not exist, or is a regular file all of whose
    lines are shorter than 65536 bytes.  A directory in its place, a file
    where a directory of the path should be, and a line that is too long
    are errors. *)
Theorem Load_succeeds_iff :
  forall (c : Config) (fs : os.FS),
    (Load c fs).1 = None
    <-> (os.Open fs (configPath c) = inl os.ENOENT
         \/ exists perm data,
              os.Open fs (configPath c) = inr (os.Regular perm data)
              /\ Forall (fun x => (Z.of_nat (String.length x) < 65536)%Z)
                   (bufio.rawLines data)).
Proof.
  intros c fs. unfold Load.
  destruct (os.Open fs (configPath c)) as [e|[|perm data]].
  - destruct e; cbn; split; intros H; try discriminate H;
      try (left; reflexivity); try reflexivity;
      destruct H as [H|(p & dt & H & _)]; discriminate H.
  - cbn. split; [discriminate|]. intros [H|(p & dt & H & _)]; discriminate.
  - unfold scanFile, bufio.Scan.
    pose proof (scan_flag (bufio.rawLines data)) as Hflag.
    destruct (bufio.scan (bufio.rawLines data)) as [ts [|]]; cbn in *.
    + split; [discriminate|]. intros [H|(p & dt & H & Hs)]; [discriminate|].
      injection H as <- <-. apply Hflag in Hs. discriminate.
    + split; [|reflexivity]. intros _. right. exists perm, data.
      split; [reflexivity|]. apply Hflag. reflexivity.
Qed.

(** [Load] never changes the path of the config file, and loading again
    changes nothing: the second [Load] returns the same error and the same
    record as the first. *)
Theorem Load_twice :
  forall (c c' : Config) (fs : os.FS) (err : option error),
    Load c fs = (err, c') ->
    configPath c' = configPath c /\ Load c' fs = (err, c').
Proof.
  intros c c' fs err H.
  assert (Hpath : configPath c' = configPath c).
  { revert H. unfold Load.
    destruct (os.Open fs (configPath c)) as [e|file].
    - destruct (os.IsNotExist e); intros H; injection H as _ <-; reflexivity.
    - destruct (scanFile file) as [tokens scanErr].
      destruct (loadLines_fields tokens) as (ov & oi & op & Hf).
      rewrite Hf. destruct scanErr; intros H; injection H as _ <-; reflexivity. }
  split; [exact Hpath|].
  revert H. unfold Load. rewrite Hpath.
  destruct (os.Open fs (configPath c)) as [e|file].
  - destruct (os.IsNotExist e); intros H; injection H as <- <-; reflexivity.
  - destruct (scanFile file) as [tokens scanErr].
    destruct (loadLines_fields tokens) as (ov & oi & op & Hf).
    assert (Hidem : fold_left loadLine tokens (fold_left loadLine tokens c)
                    = fold_left loadLine tokens c).
    { rewrite !Hf. destruct ov, oi, op; reflexivity. }
    destruct scanErr; intros H; injection H as <- <-; rewrite Hidem; reflexivity.
Qed.

Lemma Load_twice_witness :
  configPath Sample.installed = configPath (NewConfig (Some "/home/u"))
  /\ Load Sample.installed Sample.diskInstalled = (None, Sample.installed).
Proof.
  apply (Load_twice (NewConfig (Some "/home/u")) Sample.installed
           Sample.diskInstalled None).
  evaluate.
Defined.

(** ** downloader.go: where [Unzip] writes *)

Lemma prefix_app_cases (q kd rest : list string) :
  q `prefix_of` kd ++ rest ->
  q `prefix_of` kd \/ exists a, a <> [] /\ q = kd ++ a.
Proof.
  intros [b E]. apply List.app_eq_app in E as [l [[-> ->]|[-> ->]]].
  - left. exists l. reflexivity.
  - destruct l as [|x l].
    + left. rewrite app_nil_r. reflexivity.
    + right. exists (x :: l). split; [discriminate|reflexivity].
Qed.

Lemma prefix_snoc_cases (q k : list string) (x : string) :
  q `prefix_of` k ++ [x] -> q `prefix_of` k \/ q = k ++ [x].
Proof.
  intros [b E]. destruct b as [|y b] using rev_ind.
  - right. rewrite app_nil_r in E. congruence.
  - left. rewrite app_assoc in E. apply app_inj_tail in E as [-> _].
    exists b. reflexivity.
Qed.

Lemma step_prefix (cur : list string) (e : string) (q : list string) :
  q `prefix_of` os.step cur e -> q `prefix_of` cur \/ q = os.step cur e.
Proof.
  unfold os.step. destruct (String.eqb e "" || String.eqb e "."); [auto|].
  destruct (String.eqb e "..").
  - unfold os.parent. destruct (bool_decide (cur = [""])); [auto|].
    destruct (forallb (String.eqb "..") cur).
    + apply prefix_snoc_cases.
    + intros H. left. etransitivity; [exact H|apply removelast_prefix].
  - apply prefix_snoc_cases.
Qed.

(** Every directory above the place a path names is a place on the
    way, or is above the place where the path starts. *)
Lemma steps_prefixes (todo cur q : list string) :
  q `prefix_of` fold_left os.step todo cur ->
  q `prefix_of` cur \/ In q (os.visited cur todo).
Proof.
  revert cur. induction todo as [|e todo IH]; intros cur H; simpl in *.
  - left. exact H.
  - destruct (IH _ H) as [H1|H1]; [|auto].
    destruct (step_prefix cur e q H1) as [H2|H2]; auto.
Qed.

Lemma key_prefix_visited (fs : os.FS) (name : string) (q : list string) :
  q `prefix_of` filepath.key name -> os.node_at fs q = None ->
  In q (os.visited (os.start name) (filepath.elements name)).
Proof.
  intros Hq Hn. rewrite <- steps_key in Hq.
  destruct (steps_prefixes _ _ _ Hq) as [H|H]; [|exact H].
  exfalso. unfold os.start in H.
  assert (Ha : os.anchor q = true).
  { destruct (filepath.rooted name).
    - destruct H as [b Hb]. destruct q as [|x [|y q]]; try discriminate Hb;
        [reflexivity|]. injection Hb as <- _. reflexivity.
    - apply prefix_nil_inv in H. subst q. reflexivity. }
  rewrite (node_at_anchor fs q Ha) in Hn. discriminate.
Qed.

Lemma OpenFile_frame (fs : os.FS) (name : string) (perm : N) (q : list string) :
  q <> filepath.key name -> (os.OpenFile fs name perm).2 !! q = fs !! q.
Proof.
  intros Hq. unfold os.OpenFile.
  destruct (os.resolve fs name) as [e|[[|p old]|]]; try reflexivity;
    apply lookup_insert_ne; congruence.
Qed.

Lemma OpenFile_handle (fs fs' : os.FS) (name : string) (perm : N) (h : list string) :
  os.OpenFile fs name perm = (inr h, fs') -> h = filepath.key name.
Proof.
  unfold os.OpenFile.
  destruct (os.resolve fs name) as [e|[[|p old]|]]; congruence.
Qed.

Lemma write_frame (fs : os.FS) (h : list string) (data : string) (q : list string) :
  q <> h -> os.write fs h data !! q = fs !! q.
Proof.
  intros Hq. unfold os.write. destruct (fs !! h) as [[|p old]|]; try reflexivity.
  apply lookup_insert_ne. congruence.
Qed.

Lemma OpenFile_keeps (fs : os.FS) (name : string) (perm : N) :
  keepsDirs fs (os.OpenFile fs name perm).2.
Proof.
  unfold os.OpenFile.
  destruct (os.resolve fs name) as [e|[[|p old]|]] eqn:R; try apply keepsDirs_refl;
    pose proof (resolve_inr _ _ _ R) as (_ & _ & Hr & _);
    apply keepsDirs_insert; rewrite <- Hr; discriminate.
Qed.

Lemma write_keeps (fs : os.FS) (h : list string) (data : string) :
  keepsDirs fs (os.write fs h data).
Proof.
  unfold os.write. destruct (fs !! h) as [[|p old]|] eqn:E; try apply keepsDirs_refl.
  intros q Hq. destruct (decide (q = h)) as [->|Hne].
  - unfold os.node_at in *. destruct (os.anchor h); [reflexivity|]. congruence.
  - rewrite node_at_insert_ne by exact Hne. exact Hq.
Qed.

Lemma MkdirAll_keepsDirs (fs : os.FS) (name : string) :
  keepsDirs fs (os.MkdirAll fs name).2.
Proof. intros q Hq. apply MkdirAll_keeps, Hq. Qed.

Lemma extractionChange_trans (destPath : string) (fs fs1 fs2 : os.FS) :
  (forall q, fs1 !! q <> fs !! q -> extractionChange destPath fs fs1 q) ->
  (forall q, fs2 !! q <> fs1 !! q -> extractionChange destPath fs1 fs2 q) ->
  forall q, fs2 !! q <> fs !! q -> extractionChange destPath fs fs2 q.
Proof.
  intros H1 H2 q Hq.
  destruct (decide (fs1 !! q = fs !! q)) as [Heq|Hne].
  - rewrite <- Heq in Hq. destruct (H2 q Hq) as [Hb|[Hp [Hn Hd]]]; [left; exact Hb|].
    right. split; [exact Hp|]. split; [|exact Hd].
    rewrite <- Hn. apply node_at_same. symmetry. exact Heq.
  - destruct (H1 q Hne) as [Hb|[Hp [Hn Hd]]]; [left; exact Hb|].
    destruct (decide (fs2 !! q = fs1 !! q)) as [Heq2|Hne2].
    + right. split; [exact Hp|]. split; [exact Hn|]. rewrite Heq2. exact Hd.
    + destruct (H2 q Hne2) as [Hb|[_ [Hn2 _]]]; [left; exact Hb|].
      apply node_at_None in Hn2 as [_ Hn2]. congruence.
Qed.

Lemma normal_app_inv (k b : list string) : normal (k ++ b) -> normal k.
Proof.
  induction b as [|x b IH] using rev_ind; [rewrite app_nil_r; auto|].
  rewrite app_assoc. intros H. apply IH. exact (normal_snoc_inv _ _ H).
Qed.

Lemma extractFile_frame (destPath : string) (f : zipFile) (fs fs' : os.FS)
  (r : option error) :
  String.eqb destPath "" = false ->
  extractFile destPath f fs = (r, fs') ->
  forall q, fs' !! q <> fs !! q -> extractionChange destPath fs fs' q.
Proof.
  intros Hd. unfold extractFile.
  destruct (illegalPath destPath (filepath.Join destPath (Name f))) eqn:Hl.
  { intros H. injection H as _ <-. congruence. }
  destruct (entry_facts destPath f Hd Hl) as (EJ & _ & (rest & Hrest & Hk) & Hdir).
  assert (Hn : normal (entryPath destPath f)) by apply key_normal.
  assert (Hcases : forall (fs2 : os.FS) q,
             q `prefix_of` entryPath destPath f -> created fs fs2 q ->
             extractionChange destPath fs fs2 q).
  { intros fs2 q Hq Hc.
    assert (Hnq : normal q).
    { destruct Hq as [b Hb]. apply (normal_app_inv q b). rewrite <- Hb. exact Hn. }
    rewrite Hk in Hq. apply prefix_app_cases in Hq as [Hq|(a & Ha & Hq)].
    - right. split; [|exact Hc]. apply (key_prefix_visited fs _ _ Hq), Hc.
    - left. exists a. auto. }
  assert (Hself : forall q, q = filepath.key (filepath.Join destPath (Name f)) ->
                    exists a, a <> [] /\ q = filepath.key destPath ++ a /\ normal q).
  { intros q ->. exists rest. split; [exact Hrest|]. split; [exact Hk|apply key_normal]. }
  destruct (IsDir f).
  - intros H. injection H as _ <-. intros q Hq.
    rewrite EJ in *. apply MkdirAll_frame in Hq as [Hv Hc].
    apply Hcases; [|exact Hc]. apply (clean_visited _ Hn _ Hv).
  - assert (Hnd : normal (removelast (entryPath destPath f)))
      by (rewrite <- Hdir; apply key_normal).
    assert (EDir : filepath.Dir (filepath.Join destPath (Name f))
                   = filepath.render (removelast (entryPath destPath f))).
    { rewrite <- Hdir. unfold filepath.Dir, filepath.Clean.
      rewrite key_render by apply key_normal. reflexivity. }
    pose proof (MkdirAll_frame fs (filepath.Dir (filepath.Join destPath (Name f))))
      as Hmk.
    destruct (os.MkdirAll fs (filepath.Dir (filepath.Join destPath (Name f))))
      as [e1 fs1].
    cbn [snd] in Hmk.
    assert (H1 : forall q, fs1 !! q <> fs !! q -> extractionChange destPath fs fs1 q).
    { intros q Hq. apply Hmk in Hq as [Hv Hc]. rewrite EDir in Hv.
      apply Hcases; [|exact Hc].
      etransitivity; [apply (clean_visited _ Hnd _ Hv)|apply removelast_prefix]. }
    destruct e1 as [e1|].
    { intros H. injection H as _ <-. exact H1. }
    pose proof (OpenFile_frame fs1 (filepath.Join destPath (Name f)) (Mode f)) as Hop.
    destruct (os.OpenFile fs1 (filepath.Join destPath (Name f)) (Mode f))
      as [[e2|h] fs2] eqn:Eo.
    + cbn [snd] in Hop. intros H. injection H as _ <-.
      apply (extractionChange_trans destPath fs fs1 fs2 H1).
      intros q Hq. left.
      destruct (decide (q = filepath.key (filepath.Join destPath (Name f))))
        as [Heq|Hne]; [exact (Hself q Heq)|]. specialize (Hop q Hne). congruence.
    + cbn [snd] in Hop. apply OpenFile_handle in Eo. subst h.
      assert (H2 : forall data q,
                 os.write fs2 (filepath.key (filepath.Join destPath (Name f))) data !! q
                 <> fs1 !! q ->
                 extractionChange destPath fs1
                   (os.write fs2 (filepath.key (filepath.Join destPath (Name f))) data) q).
      { intros data q Hq. left.
        destruct (decide (q = filepath.key (filepath.Join destPath (Name f))))
          as [Heq|Hne]; [exact (Hself q Heq)|].
        rewrite write_frame in Hq by exact Hne. specialize (Hop q Hne). congruence. }
      destruct (Data f) as [data| |data]; intros H; injection H as _ <-.
      * apply (extractionChange_trans destPath fs fs1 _ H1 (H2 data)).
      * apply (extractionChange_trans destPath fs fs1 _ H1).
        intros q Hq. left.
        destruct (decide (q = filepath.key (filepath.Join destPath (Name f))))
          as [Heq|Hne]; [exact (Hself q Heq)|]. specialize (Hop q Hne). congruence.
      * apply (extractionChange_trans destPath fs fs1 _ H1 (H2 data)).
Qed.

Lemma extractFiles_frame (destPath : string) (files : list zipFile) (fs fs' : os.FS)
  (r : option error) :
  String.eqb destPath "" = false ->
  extractFiles destPath files fs = (r, fs') ->
  forall q, fs' !! q <> fs !! q -> extractionChange destPath fs fs' q.
Proof.
  intros Hd. revert fs. induction files as [|f files IH]; intros fs H; simpl in H.
  - injection H as _ <-. congruence.
  - destruct (extractFile destPath f fs) as [[err|] fs1] eqn:E.
    + injection H as _ <-. exact (extractFile_frame _ _ _ _ _ Hd E).
    + apply (extractionChange_trans destPath fs fs1 fs').
      * exact (extractFile_frame _ _ _ _ _ Hd E).
      * exact (IH _ H).
Qed.

Lemma Unzip_frame (env : Env) (zipPath destPath : string) (fs : os.FS) :
  forall q, (Unzip env zipPath destPath fs).2 !! q <> fs !! q ->
            extractionChange destPath fs (Unzip env zipPath destPath fs).2 q.
Proof.
  unfold Unzip. destruct (OpenReader env fs zipPath) as [err|files]; [cbn; congruence|].
  destruct (String.eqb destPath "") eqn:Hd.
  { unfold os.MkdirAll. rewrite Hd. cbn. congruence. }
  pose proof (MkdirAll_frame fs destPath) as Hmk.
  destruct (os.MkdirAll fs destPath) as [[e|] fs1]; cbn [snd] in Hmk.
  - cbn [snd]. intros q Hq. right. apply Hmk, Hq.
  - destruct (extractFiles destPath files fs1) as [r fs'] eqn:E. cbn [snd].
    apply (extractionChange_trans destPath fs fs1 fs').
    + intros q Hq. right. apply Hmk, Hq.
    + exact (extractFiles_frame _ _ _ _ _ Hd E).
Qed.

(** [Unzip] never removes a directory and never puts a file in the place
    of one. *)
Lemma extractFile_keeps (destPath : string) (f : zipFile) (fs : os.FS) :
  keepsDirs fs (extractFile destPath f fs).2.
Proof.
  unfold extractFile.
  destruct (illegalPath destPath (filepath.Join destPath (Name f)));
    [apply keepsDirs_refl|].
  destruct (IsDir f); [apply MkdirAll_keepsDirs|].
  pose proof (MkdirAll_keepsDirs fs (filepath.Dir (filepath.Join destPath (Name f))))
    as H1.
  destruct (os.MkdirAll fs (filepath.Dir (filepath.Join destPath (Name f))))
    as [[e1|] fs1]; cbn [snd] in *; [exact H1|].
  pose proof (OpenFile_keeps fs1 (filepath.Join destPath (Name f)) (Mode f)) as H2.
  destruct (os.OpenFile fs1 (filepath.Join destPath (Name f)) (Mode f))
    as [[e2|h] fs2]; cbn [snd] in *;
    [exact (keepsDirs_trans _ _ _ H1 H2)|].
  destruct (Data f) as [data| |data]; cbn [snd];
    try exact (keepsDirs_trans _ _ _ H1 H2);
    exact (keepsDirs_trans _ _ _ H1 (keepsDirs_trans _ _ _ H2 (write_keeps fs2 h data))).
Qed.

Lemma extractFiles_keeps (destPath : string) (files : list zipFile) (fs : os.FS) :
  keepsDirs fs (extractFiles destPath files fs).2.
Proof.
  revert fs. induction files as [|f files IH]; intros fs; simpl;
    [apply keepsDirs_refl|].
  pose proof (extractFile_keeps destPath f fs) as H1.
  destruct (extractFile destPath f fs) as [[err|] fs1]; cbn [snd] in *; [exact H1|].
  exact (keepsDirs_trans _ _ _ H1 (IH fs1)).
Qed.

Lemma Unzip_keeps (env : Env) (zipPath destPath : string) (fs : os.FS) :
  keepsDirs fs (Unzip env zipPath destPath fs).2.
Proof.
  unfold Unzip. destruct (OpenReader env fs zipPath) as [err|files];
    [apply keepsDirs_refl|].
  pose proof (MkdirAll_keepsDirs fs destPath) as H1.
  destruct (os.MkdirAll fs destPath) as [[e|] fs1]; cbn [snd] in *; [exact H1|].
  exact (keepsDirs_trans _ _ _ H1 (extractFiles_keeps destPath files fs1)).
Qed.

Lemma normal_below_real (kd rest : list string) :
  normal (kd ++ rest) -> (exists e, In e kd /\ e <> "..") -> Forall real rest.
Proof.
  intros [(body & E & Hb)|(ds & body & E & Hds & Hb)] (e & He & Hne).
  - destruct kd as [|x kd]; [destruct He|]. simpl in E. injection E as _ <-.
    apply Forall_app in Hb as [_ Hb]. exact Hb.
  - apply List.app_eq_app in E as [l [[-> ->]|[-> ->]]].
    + apply Forall_app in Hb as [_ Hb]. exact Hb.
    + exfalso. apply Forall_app in Hds as [Hds _].
      rewrite Forall_forall in Hds. apply Hne. symmetry. apply Hds, list_elem_of_In, He.
Qed.

(** The extraction stays in the destination, for every archive and
    whether [Unzip] succeeds or fails.  A path that [Unzip] has changed
    lies below the destination, by proper elements only (no [".."]) when
    the destination is not a chain of [".."]; or it is a directory on the
    way to the destination, as the path of the destination is written
    (for ["nowhere/../d"] these are [nowhere] and [d]), that did not exist
    and has been created.  The file system of the model has no symbolic
    links. *)
Theorem Unzip_stays_in_destination :
  forall (env : Env) (zipPath destPath : string) (fs : os.FS) (q : list string),
    (Unzip env zipPath destPath fs).2 !! q <> fs !! q ->
    (exists rest,
        rest <> [] /\ q = filepath.key destPath ++ rest
        /\ ((exists e, In e (filepath.key destPath) /\ e <> "..") -> Forall real rest))
    \/ (In q (os.visited (os.start destPath) (filepath.elements destPath))
        /\ os.node_at fs q = None
        /\ (Unzip env zipPath destPath fs).2 !! q = Some os.Directory).
Proof.
  intros env zipPath destPath fs q Hq.
  destruct (Unzip_frame env zipPath destPath fs q Hq)
    as [(rest & Hrest & E & Hn)|(Hp & Hnone & Hdir)].
  - left. exists rest. split; [exact Hrest|]. split; [exact E|].
    rewrite E in Hn. exact (normal_below_real _ _ Hn).
  - right. auto.
Qed.

Lemma Unzip_stays_in_destination_witness :
  (exists rest,
      rest <> []
      /\ [""; "nowhere"] = filepath.key "/nowhere/../tmp/x" ++ rest
      /\ ((exists e, In e (filepath.key "/nowhere/../tmp/x") /\ e <> "..")
          -> Forall real rest))
  \/ (In [""; "nowhere"]
         (os.visited (os.start "/nowhere/../tmp/x")
            (filepath.elements "/nowhere/../tmp/x"))
      /\ os.node_at Sample.diskWithZip [""; "nowhere"] = None
      /\ (Unzip Sample.env "tf.zip" "/nowhere/../tmp/x" Sample.diskWithZip).2
           !! [""; "nowhere"] = Some os.Directory).
Proof.
  apply (Unzip_stays_in_destination Sample.env "tf.zip" "/nowhere/../tmp/x"
           Sample.diskWithZip [""; "nowhere"]).
  assert (H1 : (Unzip Sample.env "tf.zip" "/nowhere/../tmp/x" Sample.diskWithZip).2
               !! [""; "nowhere"] = Some os.Directory)
    by evaluate.
  assert (H2 : Sample.diskWithZip !! [""; "nowhere"] = None)
    by evaluate.
  rewrite H1, H2. discriminate.
Defined.

(** ** main.go: what [installTerraform] leaves behind *)

Lemma mkdirTemp_inr (rands : list string) (fs fs1 : os.FS) (prefix tempDir : string) :
  os.mkdirTemp fs prefix rands = (inr tempDir, fs1) ->
  os.resolve fs tempDir = inr None
  /\ fs1 = <[filepath.key tempDir := os.Directory]> fs.
Proof.
  induction rands as [|r rands IH]; simpl; [discriminate|].
  unfold os.Mkdir.
  destruct (os.resolve fs (prefix +:+ r)) as [e|[n|]] eqn:R.
  - destruct (os.IsExist e); [exact IH|discriminate].
  - exact IH.
  - intros H. injection H as <- <-. auto.
Qed.

Lemma elements_nonempty (s : string) : filepath.elements s <> [].
Proof.
  destruct s as [|c s]; [discriminate|]. simpl.
  destruct (Ascii.eqb c filepath.Separator); [discriminate|].
  destruct (filepath.elements s); discriminate.
Qed.

Lemma elements_app (s t : string) :
  filepath.elements (s +:+ String "/" t) = filepath.elements s ++ filepath.elements t.
Proof.
  induction s as [|c s IH]; [reflexivity|].
  rewrite sapp_cons. simpl. rewrite IH.
  destruct (Ascii.eqb c filepath.Separator); [reflexivity|].
  pose proof (elements_nonempty s) as Hs.
  destruct (filepath.elements s) as [|e es]; [congruence|reflexivity].
Qed.

Lemma follow_last_dot (fs : os.FS) (a cur k : list string) :
  os.follow fs cur (a ++ ["."]) = inr k -> os.node_at fs k = Some os.Directory.
Proof.
  revert cur. induction a as [|e a IH]; intros cur H; simpl in H.
  - destruct (os.node_at fs cur) as [[|]|] eqn:E; try discriminate.
    injection H as <-. exact E.
  - destruct (os.node_at fs cur) as [[|]|]; try discriminate. apply (IH _ H).
Qed.

(** A path that names nothing does not end in ["."]. *)
Lemma resolve_None_not_dot (fs : os.FS) (name : string) :
  os.resolve fs name = inr None -> os.endsWithDot name = false.
Proof.
  intros H. destruct (os.endsWithDot name) eqn:E; [exfalso|reflexivity].
  unfold os.endsWithDot in E. apply orb_prop in E as [E|E].
  - apply String.eqb_eq in E. subst name. discriminate H.
  - unfold strings.HasSuffix in E.
    change (String.rev "/.") with "./" in E.
    destruct (String.rev name) as [|c1 [|c2 r]] eqn:Er; try discriminate E.
    + rewrite sprefix_cons in E. apply andb_prop in E as [_ E]. discriminate E.
    + rewrite !sprefix_cons in E. apply andb_prop in E as [E1 E].
      apply andb_prop in E as [E2 _].
      apply Ascii.eqb_eq in E1, E2. subst c1 c2.
      apply (f_equal String.rev) in Er. rewrite srev_involutive in Er.
      rewrite !srev_cons, sapp_assoc in Er.
      change ("/" +:+ ".") with (String "/" ".") in Er.
      unfold os.resolve in H. destruct (String.eqb name ""); [discriminate|].
      rewrite Er, elements_app in H.
      change (filepath.elements ".") with ["."] in H.
      destruct (os.follow fs _ _) as [e|k] eqn:F; [discriminate|].
      apply follow_last_dot in F. congruence.
Qed.

Lemma RemoveAll_below (fs : os.FS) (name : string) (n : os.node) (q : list string) :
  os.resolve fs name = inr (Some n) -> os.endsWithDot name = false ->
  filepath.key name `prefix_of` q ->
  os.RemoveAll fs name !! q = None.
Proof.
  intros Hr Hd Hq. pose proof (resolve_inr _ _ _ Hr) as (Hn & _).
  unfold os.RemoveAll. rewrite Hn, Hd, Hr. simpl.
  apply map_lookup_filter_None_2. right. intros x _ H. apply H. exact Hq.
Qed.

Lemma RemoveAll_frame (fs : os.FS) (name : string) (q : list string) :
  ~ filepath.key name `prefix_of` q -> os.RemoveAll fs name !! q = fs !! q.
Proof.
  intros Hq. unfold os.RemoveAll.
  destruct (String.eqb name "" || os.endsWithDot name); [reflexivity|].
  destruct (os.resolve fs name) as [e|[n|]]; try reflexivity.
  destruct (fs !! q) as [x|] eqn:E.
  - apply map_lookup_filter_Some_2; [exact E|exact Hq].
  - apply map_lookup_filter_None_2. left. exact E.
Qed.

Lemma copyFile_frame (src dst : string) (fs : os.FS) (q : list string) :
  q <> filepath.key dst -> (copyFile src dst fs).2 !! q = fs !! q.
Proof.
  intros Hq. unfold copyFile. destruct (os.ReadFile fs src) as [e|data]; [reflexivity|].
  pose proof (WriteFile_frame fs dst data 493 q Hq) as H.
  destruct (os.WriteFile fs dst data 493) as [[e|] fs']; exact H.
Qed.

Lemma Chmod_frame (fs : os.FS) (name : string) (perm : N) (q : list string) :
  q <> filepath.key name -> (os.Chmod fs name perm).2 !! q = fs !! q.
Proof.
  intros Hq. unfold os.Chmod. destruct (os.Stat fs name) as [e|[|p data]];
    try reflexivity. apply lookup_insert_ne. congruence.
Qed.

Lemma Remove_frame (fs : os.FS) (name : string) (q : list string) :
  q <> filepath.key name -> (os.Remove fs name).2 !! q = fs !! q.
Proof.
  intros Hq. unfold os.Remove. destruct (os.Stat fs name) as [e|[|p data]];
    try reflexivity.
  - destruct (bool_decide _); [|reflexivity]. apply lookup_delete_ne. congruence.
  - apply lookup_delete_ne. congruence.
Qed.

Lemma WriteFile_keeps (fs : os.FS) (name data : string) (perm : N) :
  keepsDirs fs (os.WriteFile fs name data perm).2.
Proof.
  rewrite WriteFile_cases.
  destruct (os.resolve fs name) as [e|[[|p old]|]] eqn:R; try apply keepsDirs_refl;
    pose proof (resolve_inr _ _ _ R) as (_ & _ & Hr & _);
    apply keepsDirs_insert; rewrite <- Hr; discriminate.
Qed.

Lemma copyFile_keeps (src dst : string) (fs : os.FS) :
  keepsDirs fs (copyFile src dst fs).2.
Proof.
  unfold copyFile. destruct (os.ReadFile fs src) as [e|data]; [apply keepsDirs_refl|].
  pose proof (WriteFile_keeps fs dst data 493) as H.
  destruct (os.WriteFile fs dst data 493) as [[e|] fs']; exact H.
Qed.

Lemma Chmod_keeps (fs : os.FS) (name : string) (perm : N) :
  keepsDirs fs (os.Chmod fs name perm).2.
Proof.
  unfold os.Chmod, os.Stat.
  destruct (os.resolve fs name) as [e|[[|p data]|]] eqn:R; try apply keepsDirs_refl.
  pose proof (resolve_inr _ _ _ R) as (_ & _ & Hr & _).
  apply keepsDirs_insert. rewrite <- Hr. discriminate.
Qed.

(** [installFrom] removes no directory: the only thing it deletes is the
    archive, which it has read as a file. *)
Lemma installFrom_keeps (env : Env) (zipFile installPath tempDir : string) (w : World) :
  keepsDirs (fs w) (fs (installFrom env zipFile installPath tempDir w).2).
Proof.
  unfold installFrom. cbv zeta. cbn [fs emit setFS].
  pose proof (Unzip_keeps env zipFile tempDir (fs w)) as HU.
  destruct (Unzip env zipFile tempDir (fs w)) as [[err|] fsU] eqn:EU; [exact HU|].
  cbn [fs emit setFS snd] in *.
  assert (Hzip : os.node_at (fs w) (filepath.key zipFile) <> Some os.Directory).
  { revert EU. unfold Unzip, OpenReader, os.ReadFile, os.Stat.
    destruct (os.resolve (fs w) zipFile) as [e|[[|p d]|]] eqn:R; try discriminate.
    pose proof (resolve_inr _ _ _ R) as (_ & _ & Hr & _). rewrite <- Hr. discriminate. }
  destruct (os.Stat fsU _) as [e|n]; [exact HU|].
  match goal with
  | |- context [copyFile ?src ?dst fsU] =>
      pose proof (copyFile_keeps src dst fsU) as Hc;
      destruct (copyFile src dst fsU) as [[e|] fs2]
  end; cbn [snd fs setFS] in *; [exact (keepsDirs_trans _ _ _ HU Hc)|].
  assert (H3 : forall fs3, keepsDirs fs2 fs3 ->
                 keepsDirs (fs w) (os.Remove fs3 zipFile).2).
  { intros fs3 Hk q Hq.
    assert (Hne : q <> filepath.key zipFile) by (intros ->; congruence).
    rewrite (node_at_same _ fs3 q (Remove_frame fs3 zipFile q Hne)).
    apply Hk, Hc, HU, Hq. }
  destruct (negb (String.eqb (GOOS env) "windows")).
  - match goal with
    | |- context [os.Chmod fs2 ?dst 493] =>
        pose proof (Chmod_keeps fs2 dst 493) as Hm;
        destruct (os.Chmod fs2 dst 493) as [[e|] fs3]
    end; cbn [snd fs setFS] in *.
    + exact (keepsDirs_trans _ _ _ HU (keepsDirs_trans _ _ _ Hc Hm)).
    + apply H3, Hm.
  - cbn [snd fs setFS]. apply H3, keepsDirs_refl.
Qed.

(** Apart from the installed binary and the archive, the file system
    after [installFrom] is that after the extraction. *)
Lemma installFrom_fs (env : Env) (zipFile installPath tempDir : string) (w : World)
  (q : list string) :
  q <> filepath.key (filepath.Join installPath
                       (if strings.Contains zipFile "windows"
                        then "terraform.exe" else "terraform")) ->
  q <> filepath.key zipFile ->
  fs (installFrom env zipFile installPath tempDir w).2 !! q
  = (Unzip env zipFile tempDir (fs w)).2 !! q.
Proof.
  intros Hdst Hzip. unfold installFrom. cbv zeta. cbn [fs emit setFS].
  destruct (Unzip env zipFile tempDir (fs w)) as [[err|] fs1]; [reflexivity|].
  cbn [fs emit setFS snd].
  destruct (os.Stat fs1 _) as [e|n]; [reflexivity|].
  match goal with
  | |- context [copyFile ?src ?dst fs1] =>
      pose proof (copyFile_frame src dst fs1 q Hdst) as Hc;
      destruct (copyFile src dst fs1) as [[e|] fs2]
  end; cbn [snd fs setFS] in *; [exact Hc|].
  rewrite <- Hc.
  destruct (negb (String.eqb (GOOS env) "windows")).
  - match goal with
    | |- context [os.Chmod fs2 ?dst 493] =>
        pose proof (Chmod_frame fs2 dst 493 q Hdst) as Hm;
        destruct (os.Chmod fs2 dst 493) as [[e|] fs3]
    end; cbn [snd fs setFS] in *; [exact Hm|].
    rewrite <- Hm. apply Remove_frame, Hzip.
  - cbn [snd fs setFS]. apply Remove_frame, Hzip.
Qed.

(** The temporary directory never outlives the call.  When the install
    path is not reported missing and the temporary directory has been
    created, then after [installTerraform], whether it succeeds or fails,
    nothing is left at or below the temporary directory, and apart from
    the installed binary and the downloaded archive every other path of
    the file system is as it was. *)
Theorem installTerraform_removes_temp_dir :
  forall (env : Env) (zipFile installPath : string) (w : World)
         (tempDir : string) (fs1 : os.FS),
    os.Stat (fs w) installPath <> inl os.ENOENT ->
    os.MkdirTemp (fs w) (TempDir env) "tfdown-" (Random env) = (inr tempDir, fs1) ->
    let w' := (installTerraform env zipFile installPath w).2 in
    let binaryName :=
      if strings.Contains zipFile "windows" then "terraform.exe" else "terraform" in
    (forall q, filepath.key tempDir `prefix_of` q -> fs w' !! q = None)
    /\ (forall q, ~ filepath.key tempDir `prefix_of` q ->
                  q <> filepath.key (filepath.Join installPath binaryName) ->
                  q <> filepath.key zipFile ->
                  fs w' !! q = fs w !! q).
Proof.
  intros env zipFile installPath w tempDir fs1 Hstat Htemp w' binaryName.
  assert (Hw' : fs w' = os.RemoveAll
                         (fs (installFrom env zipFile installPath tempDir
                                (setFS w fs1)).2) tempDir).
  { subst w'. unfold installTerraform.
    destruct (os.Stat (fs w) installPath) as [e|n] eqn:Es.
    - assert (He : os.IsNotExist e = false).
      { unfold os.IsNotExist. apply bool_decide_eq_false. congruence. }
      rewrite He, Htemp.
      destruct (installFrom env zipFile installPath tempDir (setFS w fs1));
        reflexivity.
    - rewrite Htemp.
      destruct (installFrom env zipFile installPath tempDir (setFS w fs1));
        reflexivity. }
  apply mkdirTemp_inr in Htemp as [Hres ->].
  pose proof (resolve_inr _ _ _ Hres) as (_ & Hfollow & Hnone & _).
  symmetry in Hnone.
  set (fs1 := <[filepath.key tempDir := os.Directory]> (fs w)) in *.
  assert (Hkt : os.node_at fs1 (filepath.key tempDir) = Some os.Directory).
  { apply node_at_insert_eq, (node_at_not_directory (fs w)). congruence. }
  pose proof (installFrom_keeps env zipFile installPath tempDir (setFS w fs1)) as Hk.
  cbn [fs setFS] in Hk.
  assert (R1 : os.resolve fs1 tempDir = inr (Some os.Directory)).
  { apply (resolve_insert (fs w) tempDir os.Directory None Hres). discriminate. }
  rewrite Hw'. split.
  - intros q Hq. apply (RemoveAll_below _ _ os.Directory).
    + rewrite (resolve_keeps fs1 _ tempDir _ Hk R1), (Hk _ Hkt). reflexivity.
    + apply (resolve_None_not_dot (fs w)), Hres.
    + exact Hq.
  - intros q Hq Hdst Hzip. rewrite RemoveAll_frame by exact Hq.
    rewrite installFrom_fs by assumption. cbn [fs setFS].
    assert (Hqt : q <> filepath.key tempDir) by (intros ->; apply Hq; reflexivity).
    rewrite <- (lookup_insert_ne (fs w) (filepath.key tempDir) q os.Directory)
      by congruence.
    fold fs1.
    destruct (decide ((Unzip env zipFile tempDir fs1).2 !! q = fs1 !! q))
      as [Heq|Hdiff]; [exact Heq|].
    exfalso. apply Unzip_frame in Hdiff as [(rest & _ & E & _)|(Hv & Hn & _)].
    + apply Hq. exists rest. exact E.
    + destruct (follow_visited _ _ _ _ Hfollow q Hv) as [Hd|Hd]; [|congruence].
      unfold fs1 in Hn. rewrite node_at_insert_ne in Hn by exact Hqt. congruence.
Qed.

Lemma installTerraform_removes_temp_dir_witness :
  let w' := (installTerraform Sample.env "tf.zip" "/usr/bin"
               (mkWorld Sample.diskWithZip [])).2 in
  (forall q, filepath.key "/tmp/tfdown-1234" `prefix_of` q -> fs w' !! q = None)
  /\ (forall q, ~ filepath.key "/tmp/tfdown-1234" `prefix_of` q ->
                q <> filepath.key (filepath.Join "/usr/bin" "terraform") ->
                q <> filepath.key "tf.zip" ->
                fs w' !! q = Sample.diskWithZip !! q).
Proof.
  apply (installTerraform_removes_temp_dir Sample.env "tf.zip" "/usr/bin"
           (mkWorld Sample.diskWithZip []) "/tmp/tfdown-1234"
           (<[ [""; "tmp"; "tfdown-1234"] := os.Directory ]> Sample.diskWithZip)).
  - assert (H : os.Stat Sample.diskWithZip "/usr/bin" = inr os.Directory) by evaluate.
    cbn [fs]. rewrite H. discriminate.
  - evaluate.
Defined.

(** ** downloader.go: the progress reader *)

Lemma int64_small (z : Z) : (- 2 ^ 63 <= z < 2 ^ 63)%Z -> int64 z = z.
Proof. intros H. unfold int64. rewrite Z.mod_small; lia. Qed.

(** The reader counts what has been read.  As long as the count fits an
    [int64], after any sequence of reads the count has grown by the sum of
    the byte counts returned, reads that end in an error included; the
    total is unchanged; and the callback, when there is one, has been
    called once for every read, with the running count and the total. *)
Theorem ProgressReader_counts_bytes :
  forall (rs : list (Z * option error)) (pr : ProgressReader),
    Forall (fun s => (- 2 ^ 63 <= s < 2 ^ 63)%Z)
      (runningSums (Current pr) (map fst rs)) ->
    Current (readAll pr rs).1 = (Current pr + fold_right Z.add 0 (map fst rs))%Z
    /\ Total (readAll pr rs).1 = Total pr
    /\ (readAll pr rs).2
       = if onProgress pr
         then map (fun s => (s, Total pr)) (runningSums (Current pr) (map fst rs))
         else [].
Proof.
  induction rs as [|[n err] rs IH]; intros pr H.
  - simpl. rewrite Z.add_0_r. destruct (onProgress pr); auto.
  - simpl in H. inversion H as [|s l Hs Hl]; subst.
    cbn [readAll Read].
    set (pr1 := mkProgressReader (Total pr) (int64 (Current pr + n)) (onProgress pr)).
    assert (Hc : Current pr1 = (Current pr + n)%Z) by (apply int64_small; exact Hs).
    specialize (IH pr1). rewrite Hc in IH. specialize (IH Hl).
    destruct (readAll pr1 rs) as [pr2 calls]. cbn [fst snd] in *.
    destruct IH as (I1 & I2 & I3). split; [|split].
    + rewrite I1. simpl. lia.
    + exact I2.
    + rewrite I3. cbn [onProgress pr1 Total map fst runningSums].
      subst pr1. cbn [onProgress Total Current]. rewrite int64_small by exact Hs.
      destruct (onProgress pr); reflexivity.
Qed.

Lemma ProgressReader_counts_bytes_witness :
  Current (readAll (mkProgressReader 10 0 true)
             [(4, None); (6, None); (0, Some ErrTransport)]%Z).1
  = (0 + fold_right Z.add 0 (map fst [(4, None); (6, None); (0, Some ErrTransport)]))%Z
  /\ Total (readAll (mkProgressReader 10 0 true)
              [(4, None); (6, None); (0, Some ErrTransport)]%Z).1 = 10%Z
  /\ (readAll (mkProgressReader 10 0 true)
        [(4, None); (6, None); (0, Some ErrTransport)]%Z).2
     = map (fun s => (s, 10%Z))
         (runningSums 0 (map fst [(4, None); (6, None); (0, Some ErrTransport)]%Z)).
Proof.
  apply (ProgressReader_counts_bytes [(4, None); (6, None); (0, Some ErrTransport)]%Z
           (mkProgressReader 10 0 true)).
  simpl. repeat constructor; lia.
Defined.

(** ** main.go: help, version and the exit status *)

Lemma printLines (ls : list string) (w : World) :
  fs (fold_left (fun w l => emit (Println l) w) ls w) = fs w
  /\ after isOutput w (fold_left (fun w l => emit (Println l) w) ls w).
Proof.
  revert w. induction ls as [|l ls IH]; intros w; simpl.
  - split; [reflexivity|apply after_refl].
  - destruct (IH (emit (Println l) w)) as [H1 H2]. split; [exact H1|].
    apply (after_trans isOutput w (emit (Println l) w)); [|exact H2].
    apply after_emit; [exact I|apply after_refl].
Qed.

(** Help and version are answered first and offline: when [--help] or
    [--version] is set, whatever the other flags, [main] exits with
    status 0, leaves the file system as it is and sends no request; it
    only prints. *)
Theorem main_help_and_version_only_print :
  forall (env : Env) (args : list Flag) (w : World),
    showHelp (Parse args) = true \/ showVersion (Parse args) = true ->
    (main env args w).1 = 0%Z
    /\ fs (main env args w).2 = fs w
    /\ after isOutput w (main env args w).2.
Proof.
  intros env args w H. unfold main.
  destruct (showHelp (Parse args)).
  - cbn [fst snd]. split; [reflexivity|]. unfold printHelp.
    destruct (printLines helpLines
                (emit (Printf "tfdown v%s - Terraform downloader\n\n" [Str version]) w))
      as [H1 H2].
    split; [exact H1|].
    apply (after_trans isOutput w
             (emit (Printf "tfdown v%s - Terraform downloader\n\n" [Str version]) w));
      [|exact H2].
    apply after_emit; [exact I|apply after_refl].
  - destruct H as [H|H]; [discriminate H|]. rewrite H. cbn [fst snd].
    split; [reflexivity|]. split; [reflexivity|].
    apply after_emit; [exact I|apply after_refl].
Qed.

Lemma main_help_and_version_only_print_witness :
  (main Sample.env [flag_install true; flag_help true] Sample.start).1 = 0%Z
  /\ fs (main Sample.env [flag_install true; flag_help true] Sample.start).2
     = fs Sample.start
  /\ after isOutput Sample.start
       (main Sample.env [flag_install true; flag_help true] Sample.start).2.
Proof.
  apply (main_help_and_version_only_print Sample.env
           [flag_install true; flag_help true] Sample.start).
  left. reflexivity.
Defined.

Lemma last_emit (e : Event) (w : World) : last (trace (emit e w)) = Some e.
Proof. unfold emit. cbn [trace]. apply last_snoc. Qed.

Ltac exit_with_error :=
  eexists; split; [apply last_emit|]; left; split; [reflexivity|];
  eexists; eauto.

Ltac exit_clean :=
  eexists; split; [apply last_emit|]; right; split; [reflexivity|];
  intros [? [?|[?|?]]]; discriminate.

Lemma proceed_exit (env : Env) (o : Flags) (config : Config) (flag : bool)
  (path : string) (d : Downloader) (ver : string) (w : World) :
  exists e,
    last (trace (proceed env o config flag path d ver w).2) = Some e
    /\ ((proceed env o config flag path d ver w).1 = 1%Z /\ errorLine e
        \/ (proceed env o config flag path d ver w).1 = 0%Z /\ ~ errorLine e).
Proof.
  unfold proceed.
  destruct (if forceFlag o && Install config && negb (String.eqb (InstallPath config) "")
            then _ else _) as [flag' path'].
  destruct (Download env d w) as [[err|zipFile] w1]; cbn [fst snd];
    [exit_with_error|].
  destruct (Update config ver flag' path' (fs w1)) as [[err config'] fs'].
  destruct (flag' && negb (String.eqb path' "")); cbn [fst snd]; [|exit_clean].
  destruct (installTerraform env zipFile path' _) as [[e|] w3]; cbn [fst snd];
    [exit_with_error|exit_clean].
Qed.


(** ** downloader.go: the limit of the check of [Unzip] *)

(** The check of [Unzip] compares strings, and a destination that is the
    parent directory is a prefix of paths further up.  With the
    destination [".."], an entry named ["../name"] passes the check and is
    written to ["../../name"], which is not in the destination. *)
Theorem Unzip_to_parent_directory_escapes :
  forall (env : Env) (zipPath : string) (fs : os.FS) (name data : string) (mode : N),
    real name ->
    OpenReader env fs zipPath
    = inr [mkZipFile ("../" +:+ name) false mode (Stored data)] ->
    fs !! [".."; ".."; name] = None ->
    Unzip env zipPath ".." fs
    = (None, <[ [".."; ".."; name] := os.Regular mode data ]> fs).
Proof.
  intros env zipPath fs name data mode Hreal Hopen Hfree.
  set (k := [".."; ".."; name]).
  assert (Hn : normal k).
  { right. exists [".."; ".."], [name]. repeat split; repeat constructor; apply Hreal. }
  assert (Hjoin : filepath.Join ".." ("../" +:+ name) = filepath.render k).
  { change (filepath.Join ".." ("../" +:+ name))
      with (filepath.render (filepath.key (filepath.render k))).
    rewrite key_render by exact Hn. reflexivity. }
  assert (Hanchor : os.anchor k = false).
  { destruct Hreal as (_ & _ & Hdots & _). unfold os.anchor, k. cbn [forallb].
    assert (E : String.eqb ".." name = false)
      by (apply String.eqb_neq; congruence).
    rewrite E. reflexivity. }
  unfold Unzip. rewrite Hopen.
  change (os.MkdirAll fs "..") with (@None os.Errno, fs).
  cbn [extractFiles]. unfold extractFile. cbn [Name IsDir Mode Data].
  rewrite Hjoin.
  assert (Hlegal : illegalPath ".." (filepath.render k) = false) by reflexivity.
  rewrite Hlegal.
  assert (Hmk : os.MkdirAll fs (filepath.Dir (filepath.render k)) = (None, fs)).
  { assert (E : filepath.Dir (filepath.render k) = "../..").
    { pose proof (key_Dir_render k Hn) as Hd.
      unfold filepath.Dir, filepath.Clean in *.
      rewrite key_render in Hd by apply key_normal.
      rewrite Hd by discriminate. reflexivity. }
    rewrite E. reflexivity. }
  rewrite Hmk.
  assert (Hres : os.resolve fs (filepath.render k) = inr None).
  { rewrite resolve_clean; [|exact Hn|].
    - unfold os.node_at. rewrite Hanchor. f_equal. exact Hfree.
    - intros a b E Hb. apply node_at_anchor. unfold k in E.
      destruct a as [|x1 [|x2 [|x3 a]]]; simpl in E.
      + reflexivity.
      + injection E as <- _. reflexivity.
      + injection E as <- <- _. reflexivity.
      + injection E as _ _ _ E. symmetry in E.
        apply app_eq_nil in E as [_ E]. congruence. }
  unfold os.OpenFile. rewrite Hres, key_render by exact Hn.
  unfold os.write. rewrite lookup_insert_eq, insert_insert_eq, sapp_nil_l.
  reflexivity.
Qed.

Lemma Unzip_to_parent_directory_escapes_witness :
  Unzip (Sample.withArchive [mkZipFile "../evil" false 493 (Stored "evil")])
    "tf.zip" ".." Sample.diskWithZip
  = (None, <[ [".."; ".."; "evil"] := os.Regular 493 "evil" ]> Sample.diskWithZip).
Proof.
  apply (Unzip_to_parent_directory_escapes
           (Sample.withArchive [mkZipFile "../evil" false 493 (Stored "evil")])
           "tf.zip" Sample.diskWithZip "evil" "evil" 493%N).
  - repeat split; discriminate.
  - evaluate.
  - evaluate.
Defined.

(** ** main.go: what a successful install leaves *)

Lemma WriteFile_node (fs fs' : os.FS) (name data : string) (perm : N) :
  os.WriteFile fs name data perm = (None, fs') ->
  exists p, fs' !! filepath.key name = Some (os.Regular p data)
            /\ os.resolve fs' name = inr (Some (os.Regular p data)).
Proof.
  rewrite WriteFile_cases.
  destruct (os.resolve fs name) as [e|[[|p old]|]] eqn:R; try discriminate;
    intros H; injection H as <-; eexists;
    (split; [apply lookup_insert_eq|apply (resolve_insert fs _ _ _ R); discriminate]).
Qed.

(** When [installTerraform] succeeds, the binary is in place: the file
    [installPath/terraform] is a regular file with the bytes of the
    extracted binary, executable (mode 0755) unless the program runs on
    Windows.  The archive and the binary are assumed to be different
    files, and the binary not to lie in the temporary directory. *)
Theorem installTerraform_installs_binary :
  forall (env : Env) (zipFile installPath : string) (w w' : World)
         (tempDir : string) (fs1 : os.FS),
    os.MkdirTemp (fs w) (TempDir env) "tfdown-" (Random env) = (inr tempDir, fs1) ->
    installTerraform env zipFile installPath w = (None, w') ->
    let binaryName :=
      if strings.Contains zipFile "windows" then "terraform.exe" else "terraform" in
    let dstPath := filepath.Join installPath binaryName in
    filepath.key zipFile <> filepath.key dstPath ->
    ~ filepath.key tempDir `prefix_of` filepath.key dstPath ->
    exists perm data,
      os.ReadFile (Unzip env zipFile tempDir fs1).2 (filepath.Join tempDir binaryName)
      = inr data
      /\ fs w' !! filepath.key dstPath = Some (os.Regular perm data)
      /\ (GOOS env <> "windows" -> perm = 493%N).
Proof.
  intros env zipFile installPath w w' tempDir fs1 Htemp H binaryName dstPath Hzip Hout.
  unfold installTerraform in H.
  destruct (match os.Stat (fs w) installPath with
            | inl err => os.IsNotExist err
            | inr _ => false
            end); [discriminate|].
  rewrite Htemp in H.
  destruct (installFrom env zipFile installPath tempDir (setFS w fs1)) as [err w2] eqn:E.
  injection H as -> <-. cbn [fs setFS].
  rewrite RemoveAll_frame by exact Hout.
  revert E. unfold installFrom. cbv zeta. cbn [fs emit setFS].
  fold binaryName. fold dstPath.
  destruct (Unzip env zipFile tempDir fs1) as [[err|] fsU]; [discriminate|].
  cbn [snd fs setFS].
  destruct (os.Stat fsU (filepath.Join tempDir binaryName)) as [e|n]; [discriminate|].
  unfold copyFile.
  destruct (os.ReadFile fsU (filepath.Join tempDir binaryName)) as [e|data] eqn:Hread;
    [discriminate|].
  destruct (os.WriteFile fsU dstPath data 493) as [[e|] fs2] eqn:Hw; [discriminate|].
  cbn [fs setFS].
  apply WriteFile_node in Hw as (p & Hlook & Hres).
  destruct (String.eqb (GOOS env) "windows") eqn:Hos; cbn [negb].
  - intros E. injection E as <-. cbn [fs setFS].
    exists p, data. split; [reflexivity|]. split.
    + rewrite Remove_frame by congruence. exact Hlook.
    + apply String.eqb_eq in Hos. congruence.
  - unfold os.Chmod, os.Stat. rewrite Hres.
    intros E. injection E as <-. cbn [fs setFS].
    exists 493%N, data. split; [reflexivity|]. split; [|reflexivity].
    rewrite Remove_frame by congruence. apply lookup_insert_eq.
Qed.

Lemma installTerraform_installs_binary_witness :
  exists perm data,
    os.ReadFile (Unzip Sample.env "tf.zip" "/tmp/tfdown-1234"
                   (<[ [""; "tmp"; "tfdown-1234"] := os.Directory ]> Sample.diskWithZip)).2
      (filepath.Join "/tmp/tfdown-1234" "terraform") = inr data
    /\ fs (installTerraform Sample.env "tf.zip" "/usr/bin"
             (mkWorld Sample.diskWithZip [])).2
         !! filepath.key (filepath.Join "/usr/bin" "terraform")
       = Some (os.Regular perm data)
    /\ (GOOS Sample.env <> "windows" -> perm = 493%N).
Proof.
  apply (installTerraform_installs_binary Sample.env "tf.zip" "/usr/bin"
           (mkWorld Sample.diskWithZip [])
           (installTerraform Sample.env "tf.zip" "/usr/bin"
              (mkWorld Sample.diskWithZip [])).2
           "/tmp/tfdown-1234"
           (<[ [""; "tmp"; "tfdown-1234"] := os.Directory ]> Sample.diskWithZip)).
  - evaluate.
  - destruct (installTerraform Sample.env "tf.zip" "/usr/bin"
                (mkWorld Sample.diskWithZip [])) as [err w'] eqn:E.
    assert (He : (installTerraform Sample.env "tf.zip" "/usr/bin"
                    (mkWorld Sample.diskWithZip [])).1 = None) by evaluate.
    rewrite E in He. cbn in He. subst err. reflexivity.
  - vm_compute. discriminate.
  - vm_compute. intros [b Hb]. discriminate Hb.
Defined.
